(** * Verification of the design-to-code pipeline agents

    A shallow embedding of the five pipeline agents of the repository
    (Figma parser, design analyzer, EDS mapper, code orchestrator and
    code validator) together with the properties stated about them.

    Modelling conventions.
    - A JavaScript string is a [string]: a sequence of 8-bit code units,
      read as the Latin-1 range of UTF-16.  [toLowerCase] is exact on that
      range.
    - A JavaScript number is a rational [Q] where the code computes scores,
      and a [nat] where it only counts or indexes.
    - A mutable field of an agent object is a field of an explicit state
      record which every method takes and returns.
    - An exception is the [inl] branch of a sum. *)

From Stdlib Require Import List String Ascii Bool Arith PeanoNat ZArith QArith Qround Lia.
From Stdlib Require Import Permutation Sorted.
Import ListNotations.

Close Scope Q_scope.
Open Scope nat_scope.
Open Scope list_scope.

(** ** JavaScript primitives and small types shared by the agents *)

Module Js.

(** Code units as numbers, for range tests. *)
Definition code (c : ascii) : nat := nat_of_ascii c.

Definition inRange (lo hi : nat) (c : ascii) : bool :=
  (lo <=? code c) && (code c <=? hi).

(** [String.prototype.toLowerCase] on one Latin-1 code unit: A-Z and the
    accented capitals U+00C0..U+00DE (the multiplication sign U+00D7
    excepted) move up by 32, everything else is unchanged. *)
Definition toLowerCaseChar (c : ascii) : ascii :=
  if inRange 65 90 c then ascii_of_nat (code c + 32)
  else if inRange 192 222 c && negb (code c =? 215) then ascii_of_nat (code c + 32)
  else c.

Fixpoint toLowerCase (s : string) : string :=
  match s with
  | EmptyString => EmptyString
  | String c s' => String (toLowerCaseChar c) (toLowerCase s')
  end.

(** The character class [[a-z0-9]]. *)
Definition isLowerAlnum (c : ascii) : bool :=
  inRange 97 122 c || inRange 48 57 c.

(** [s.replace(/[^a-z0-9]/g, '')]. *)
Fixpoint stripNonLowerAlnum (s : string) : string :=
  match s with
  | EmptyString => EmptyString
  | String c s' =>
      if isLowerAlnum c then String c (stripNonLowerAlnum s')
      else stripNonLowerAlnum s'
  end.

(** [s.includes(sub)]: [sub] occurs in [s] at some offset. *)
Fixpoint includes (s sub : string) : bool :=
  String.prefix sub s ||
  match s with
  | EmptyString => false
  | String _ s' => includes s' sub
  end.

(** Truthiness of a string: [!s] is true exactly for the empty string. *)
Definition truthyString (s : string) : bool :=
  negb (String.eqb s EmptyString).

(** Severity of a reported issue: ['error' | 'warning' | 'info']. *)
Inductive Severity : Type := SevError | SevWarning | SevInfo.

Definition severityEqb (a b : Severity) : bool :=
  match a, b with
  | SevError, SevError | SevWarning, SevWarning | SevInfo, SevInfo => true
  | _, _ => false
  end.

(** A template literal: text with numbers spliced in. *)
Inductive Piece : Type :=
| Lit (s : string)
| Num (q : Q)
| Count (n : nat).

Definition Text := list Piece.

(** The double quote character, as a string. *)
Definition dquote : string := String (ascii_of_nat 34) EmptyString.

(** The line feed character. *)
Definition newline : ascii := ascii_of_nat 10.

(** [\d] *)
Definition isDigit (c : ascii) : bool := inRange 48 57 c.

(** [[A-Za-z]], which is [[a-z]] under the [i] flag *)
Definition isLetter (c : ascii) : bool := inRange 65 90 c || inRange 97 122 c.

(** [[A-Za-z0-9]] *)
Definition isAlnum (c : ascii) : bool := isLetter c || isDigit c.

(** [\w]: [[A-Za-z0-9_]] *)
Definition isWord (c : ascii) : bool := isAlnum c || (code c =? 95).

(** [\s], and what [trim] removes: tab, line feed, vertical tab, form feed,
    carriage return, space and no-break space. *)
Definition isSpace (c : ascii) : bool :=
  inRange 9 13 c || (code c =? 32) || (code c =? 160).

(** [(s.match(/c/g) || []).length] for a single character [c] *)
Fixpoint countChar (c : ascii) (s : string) : nat :=
  match s with
  | EmptyString => 0
  | String x rest => (if Ascii.eqb x c then 1 else 0) + countChar c rest
  end.

(** [s.split('\n')]; [line] holds the characters of the current line in
    reverse. *)
Fixpoint splitLinesFrom (s : string) (line : list ascii) : list string :=
  match s with
  | EmptyString => [string_of_list_ascii (rev line)]
  | String c rest =>
      if Ascii.eqb c newline
      then string_of_list_ascii (rev line) :: splitLinesFrom rest []
      else splitLinesFrom rest (c :: line)
  end.

Definition splitLines (s : string) : list string := splitLinesFrom s [].

(** [s.trim() === ''] *)
Fixpoint isBlank (s : string) : bool :=
  match s with
  | EmptyString => true
  | String c rest => isSpace c && isBlank rest
  end.

(** [s.search(/\S/)] *)
Fixpoint searchNonSpace (s : string) : Z :=
  match s with
  | EmptyString => (-1)%Z
  | String c rest =>
      if isSpace c
      then (let k := searchNonSpace rest in if (k <? 0)%Z then (-1)%Z else (k + 1)%Z)
      else 0%Z
  end.

(** [lines.findIndex(test)] *)
Fixpoint findIndex {A : Type} (test : A -> bool) (l : list A) : Z :=
  match l with
  | [] => (-1)%Z
  | x :: rest =>
      if test x then 0%Z
      else (let k := findIndex test rest in if (k <? 0)%Z then (-1)%Z else (k + 1)%Z)
  end.

(** The longest prefix of [s] whose characters all satisfy [test], and
    what follows it: a greedy [[...]*]. *)
Fixpoint span (test : ascii -> bool) (s : string) : string * string :=
  match s with
  | EmptyString => (EmptyString, EmptyString)
  | String c rest =>
      if test c then (let (run, after) := span test rest in (String c run, after))
      else (EmptyString, s)
  end.

(** [s] without its prefix [p], when it has that prefix. *)
Fixpoint afterPrefix (p s : string) : option string :=
  match p, s with
  | EmptyString, _ => Some s
  | String a p', String b s' => if Ascii.eqb a b then afterPrefix p' s' else None
  | String _ _, EmptyString => None
  end.

(** [(s.match(/\d+px/g) || []).length]: the digit runs followed by [px].
    [inDigits] tells that the previous character was a digit. *)
Fixpoint countFixedPixels (s : string) (inDigits : bool) : nat :=
  match s with
  | EmptyString => 0
  | String c rest =>
      if isDigit c then countFixedPixels rest true
      else (if inDigits && String.prefix "px" s then 1 else 0) + countFixedPixels rest false
  end.

(** [(s.match(/\d+rem|\d+em|\d+%|calc\(/g) || []).length] *)
Fixpoint countRelativeUnits (s : string) (inDigits : bool) : nat :=
  match s with
  | EmptyString => 0
  | String c rest =>
      if isDigit c then countRelativeUnits rest true
      else (if (inDigits && (String.prefix "rem" s || String.prefix "em" s || String.prefix "%" s))
               || String.prefix "calc(" s
            then 1 else 0) + countRelativeUnits rest false
  end.

(** The first capture of [/const\s+([A-Za-z0-9_]+)\s*=/] anchored at the
    start of [s]. *)
Definition matchConstHere (s : string) : option string :=
  match afterPrefix "const" s with
  | None => None
  | Some r1 =>
      let (gap, r2) := span isSpace r1 in
      let (ident, r3) := span isWord r2 in
      let (_, r4) := span isSpace r3 in
      if truthyString gap && truthyString ident && String.prefix "=" r4
      then Some ident else None
  end.

(** [s.match(/const\s+([A-Za-z0-9_]+)\s*=/)]: the capture of the leftmost
    match. *)
Fixpoint matchConst (s : string) : option string :=
  match matchConstHere s with
  | Some ident => Some ident
  | None =>
      match s with
      | EmptyString => None
      | String _ rest => matchConst rest
      end
  end.

Definition isQuote (c : ascii) : bool := (code c =? 39) || (code c =? 34).

(** [[A-Za-z0-9_-]] *)
Definition isNameChar (c : ascii) : bool := isWord c || (code c =? 45).

Definition startsWithQuote (s : string) : option string :=
  match s with
  | String c rest => if isQuote c then Some rest else None
  | EmptyString => None
  end.

(** The capture of [/name:\s*['"]([A-Za-z0-9_-]+)['"]/] anchored at the
    start of [s]. *)
Definition matchNameHere (s : string) : option string :=
  match afterPrefix "name:" s with
  | None => None
  | Some r1 =>
      let (_, r2) := span isSpace r1 in
      match startsWithQuote r2 with
      | None => None
      | Some r3 =>
          let (ident, r4) := span isNameChar r3 in
          match startsWithQuote r4 with
          | Some _ => if truthyString ident then Some ident else None
          | None => None
          end
      end
  end.

Fixpoint matchName (s : string) : option string :=
  match matchNameHere s with
  | Some ident => Some ident
  | None =>
      match s with
      | EmptyString => None
      | String _ rest => matchName rest
      end
  end.

(** The text up to and including the first [>], and what follows it. *)
Fixpoint throughGt (s : string) : option (string * string) :=
  match s with
  | EmptyString => None
  | String c rest =>
      if (code c =? 62) then Some (String c EmptyString, rest)
      else match throughGt rest with
           | Some (taken, after) => Some (String c taken, after)
           | None => None
           end
  end.

(** A tag name followed by [\b[^>]*>] at the start of [s]: a letter, the
    letters and digits after it, no underscore next, and a [>] further on.
    Gives the text matched from the name on and what follows the match. *)
Definition matchTagBody (s : string) : option (string * string) :=
  match s with
  | String c rest =>
      if isLetter c then
        let (run, after) := span isAlnum rest in
        if String.prefix "_" after then None
        else match throughGt after with
             | Some (taken, remainder) => Some (String c (run ++ taken)%string, remainder)
             | None => None
             end
      else None
  | EmptyString => None
  end.

(** The pattern [<] [([a-z][a-z0-9]* )] [\b[^>]*>] with flags [gi], anchored
    at the start of [s]: the matched text and the rest. *)
Definition matchOpenTagHere (s : string) : option (string * string) :=
  match afterPrefix "<" s with
  | Some r =>
      match matchTagBody r with
      | Some (body, remainder) => Some (("<" ++ body)%string, remainder)
      | None => None
      end
  | None => None
  end.

(** The same pattern for closing tags, which starts with [</]. *)
Definition matchCloseTagHere (s : string) : option (string * string) :=
  match afterPrefix "</" s with
  | Some r =>
      match matchTagBody r with
      | Some (body, remainder) => Some (("</" ++ body)%string, remainder)
      | None => None
      end
  | None => None
  end.

(** The [while ((match = pattern.exec(code)) !== null)] loop: the texts
    matched, left to right, each search resuming where the last match
    ended.  [fuel] bounds the number of characters still to look at. *)
Fixpoint execAll (matchHere : string -> option (string * string)) (fuel : nat) (s : string)
    : list string :=
  match fuel with
  | O => []
  | S fuel' =>
      match matchHere s with
      | Some (matched, remainder) => matched :: execAll matchHere fuel' remainder
      | None =>
          match s with
          | EmptyString => []
          | String _ rest => execAll matchHere fuel' rest
          end
      end
  end.

(** [for (let k = lo; k < lo + count; k++) s = body(k, s)]. *)
Definition forLoop {S : Type} (lo count : nat) (body : nat -> S -> S) (s : S) : S :=
  fold_left (fun acc k => body k acc) (seq lo count) s.

(** [Array.prototype.sort] with a comparator is a stable sort; the stable
    insertion sort below gives the same array for a comparator that is a
    total preorder.  [before a b] stands for "[cmp(a, b) <= 0]". *)
Fixpoint insertSorted {A : Type} (before : A -> A -> bool) (x : A) (l : list A) : list A :=
  match l with
  | [] => [x]
  | y :: l' => if before x y then x :: l else y :: insertSorted before x l'
  end.

Definition sortBy {A : Type} (before : A -> A -> bool) (l : list A) : list A :=
  fold_right (insertSorted before) [] l.

End Js.

(** ** Figma parser agent

    Source: [lib/agents/figma-parser/figmaParserAgent.ts] and its
    [types.ts]. *)

Module FigmaParser.

#[local] Unset Elimination Schemes.

(** A value of type [any] that the agents copy around without looking
    inside. *)
Inductive Json : Type :=
| JNull
| JBool (b : bool)
| JNum (q : Q)
| JStr (s : string)
| JArr (items : list Json)
| JObj (fields : list (string * Json)).

(** [if (v)] on a number: zero is falsy. *)
Definition truthyNum (q : Q) : bool := negb (Qeq_bool q 0).

(** [if (v)] on a JSON value. *)
Definition truthy (v : Json) : bool :=
  match v with
  | JNull => false
  | JBool b => b
  | JNum q => truthyNum q
  | JStr s => Js.truthyString s
  | JArr _ => true
  | JObj _ => true
  end.

(** [if (o.k)] for an optional field. *)
Definition truthyOpt {A : Type} (test : A -> bool) (v : option A) : bool :=
  match v with
  | Some x => test x
  | None => false
  end.

(** [if (o.k) p.k = o.k]: the field is carried over when truthy. *)
Definition copyIf {A : Type} (test : A -> bool) (v : option A) : option A :=
  if truthyOpt test v then v else None.

Record Color : Type := mkColor { red : Q; green : Q; blue : Q; alpha : Q }.

(** An entry of [fills] (or [strokes]). *)
Record Paint : Type := mkPaint {
  paintType : option string;
  paintVisible : option bool;
  paintOpacity : option Q;
  paintColor : option Color
}.

(** An entry of [effects]. *)
Record Effect : Type := mkEffect {
  effectType : option string;
  effectVisible : option bool;
  effectRadius : option Q
}.

(** [x.visible !== false] *)
Definition notExplicitlyHidden (visible : option bool) : bool :=
  match visible with
  | Some false => false
  | _ => true
  end.

(** The design attributes of a node: the fields [traverseNodes] looks at.
    Those the modelled code inspects are typed; the others sit in [other],
    in source order, under their field name. *)
Record Properties : Type := mkProperties {
  fills : option (list Paint);
  effects : option (list Effect);
  cornerRadius : option Q;
  opacity : option Q;
  characters : option string;
  fontSize : option Q;
  visible : option bool;
  other : list (string * Json)
}.

Definition noProperties : Properties :=
  mkProperties None None None None None None None [].

(** A node of the raw document. [rawChildren] is [None] when the node has
    no [children] array. *)
Inductive RawNode : Type :=
| mkRawNode (rawId rawName rawType : string) (rawProps : Properties)
            (rawChildren : option (list RawNode)).

#[local] Set Elimination Schemes.

Definition rawId (n : RawNode) : string :=
  match n with mkRawNode i _ _ _ _ => i end.
Definition rawName (n : RawNode) : string :=
  match n with mkRawNode _ nm _ _ _ => nm end.
Definition rawType (n : RawNode) : string :=
  match n with mkRawNode _ _ t _ _ => t end.
Definition rawProps (n : RawNode) : Properties :=
  match n with mkRawNode _ _ _ p _ => p end.
Definition rawChildren (n : RawNode) : option (list RawNode) :=
  match n with mkRawNode _ _ _ _ c => c end.

Record RawDocument : Type := mkRawDocument {
  documentChildren : option (list RawNode)
}.

(** The argument of [parseJson]. *)
Record JsonData : Type := mkJsonData {
  dataName : option string;
  dataDocument : option RawDocument;
  dataLastModified : option string;
  dataThumbnailUrl : option string;
  dataVersion : option string;
  dataSchemaVersion : option Q
}.

(** The empty object [{}]. *)
Definition emptyObject : JsonData := mkJsonData None None None None None None.

Record FigmaNode : Type := mkFigmaNode {
  id : string;
  name : string;
  type : string;
  parentId : option string;
  depth : nat;
  children : list string;
  properties : Properties
}.

(** The payload of a style record. *)
Inductive StyleValue : Type :=
| FillValue (p : Paint)
| TextValue (size : option Q) (rest : list (string * option Json))
| EffectValue (e : Effect).

Record FigmaStyle : Type := mkFigmaStyle {
  styleId : string;
  styleName : string;
  styleType : string;
  styleValue : StyleValue;
  styleNodeId : string
}.

(** [Record<string, FigmaStyle>]: keys in insertion order. *)
Definition StyleTable := list (string * FigmaStyle).

Record FigmaComponent : Type := mkFigmaComponent {
  componentId : string;
  componentName : string;
  componentType : string;
  componentChildren : list string;
  componentProperties : Properties;
  componentStyles : StyleTable
}.

Record FigmaPage : Type := mkFigmaPage {
  pageId : string;
  pageName : string;
  pageType : string;
  pageChildren : list RawNode
}.

Record FigmaDesign : Type := mkFigmaDesign {
  designName : string;
  designDocument : RawDocument;
  pages : list FigmaPage;
  lastModified : string;
  thumbnailUrl : string;
  version : string;
  schemaVersion : Q
}.

(** The private fields of the agent. *)
Record State : Type := mkState {
  designTree : option FigmaDesign;
  flattenedNodes : list FigmaNode;
  extractedStyles : StyleTable;
  components : list FigmaComponent
}.

(** [new FigmaParserAgent()] *)
Definition initial : State := mkState None [] [] [].

(** [table[key]] *)
Fixpoint lookup {A : Type} (key : string) (table : list (string * A)) : option A :=
  match table with
  | [] => None
  | (k, v) :: rest => if String.eqb k key then Some v else lookup key rest
  end.

(** [table[key] = v]: an existing key keeps its place, a new one goes last. *)
Fixpoint assign {A : Type} (key : string) (v : A) (table : list (string * A)) : list (string * A) :=
  match table with
  | [] => [(key, v)]
  | (k, w) :: rest =>
      if String.eqb k key then (k, v) :: rest else (k, w) :: assign key v rest
  end.

(** The fields [traverseNodes] copies besides the typed ones, in the order
    of its [if] statements. *)
Definition copiedOtherKeys : list string :=
  ["strokes"; "styles"; "layout"; "layoutMode"; "primaryAxisSizingMode";
   "counterAxisSizingMode"; "paddingLeft"; "paddingRight"; "paddingTop";
   "paddingBottom"; "itemSpacing"; "strokeWeight"; "blendMode"; "fontName";
   "textAlignHorizontal"; "textAlignVertical"; "letterSpacing"; "lineHeight";
   "textCase"; "textDecoration"; "textStyleId"]%string.

Definition copyOther (fields : list (string * Json)) : list (string * Json) :=
  flat_map (fun key =>
              match lookup key fields with
              | Some v => if truthy v then [(key, v)] else []
              | None => []
              end) copiedOtherKeys.

(** The block of [if (node.k) flatNode.properties.k = node.k] statements. *)
Definition copyProperties (p : Properties) : Properties :=
  {| fills := copyIf (fun _ => true) (fills p);
     effects := copyIf (fun _ => true) (effects p);
     cornerRadius := copyIf truthyNum (cornerRadius p);
     opacity := copyIf truthyNum (opacity p);
     characters := copyIf Js.truthyString (characters p);
     fontSize := copyIf truthyNum (fontSize p);
     visible := visible p;
     other := copyOther (other p) |}.

(** The recursive closure of [flattenNodes]; [acc] is [this.flattenedNodes]. *)
Fixpoint traverseNodes (node : RawNode) (parent : option string) (depth : nat)
    (acc : list FigmaNode) {struct node} : list FigmaNode :=
  match node with
  | mkRawNode nodeId nodeName nodeType props kids =>
      let flatNode :=
        {| id := nodeId;
           name := nodeName;
           type := nodeType;
           parentId := parent;
           depth := depth;
           children := match kids with
                       | Some cs => map rawId cs
                       | None => []
                       end;
           properties := copyProperties props |} in
      let acc := acc ++ [flatNode] in
      match kids with
      | Some cs =>
          fold_left (fun acc child => traverseNodes child (Some nodeId) (depth + 1) acc)
                    cs acc
      | None => acc
      end
  end.

(** A page as [traverseNodes] receives it: only [id], [name], [type] and
    [children] survive the construction of the page list. *)
Definition pageAsNode (page : FigmaPage) : RawNode :=
  mkRawNode (pageId page) (pageName page) (pageType page) noProperties
            (Some (pageChildren page)).

(** An exception: [new Error(message)]. *)
Definition Error := string.

Definition flattenNodes (st : State) : (Error + unit) * State :=
  match designTree st with
  | None => (inl "Design tree not initialized"%string, st)
  | Some tree =>
      let nodes := fold_left (fun acc page => traverseNodes (pageAsNode page) None 0 acc)
                             (pages tree) [] in
      (inr tt, mkState (designTree st) nodes (extractedStyles st) (components st))
  end.

Definition fillStyleId (node : FigmaNode) (fillType : string) : string :=
  ("fill-" ++ id node ++ "-" ++ fillType)%string.
Definition textStyleId (node : FigmaNode) : string :=
  ("text-" ++ id node)%string.
Definition effectStyleId (node : FigmaNode) (effectType : string) : string :=
  ("effect-" ++ id node ++ "-" ++ effectType)%string.

(** The body of [fills.forEach]. *)
Definition extractFill (node : FigmaNode) (table : StyleTable) (fill : Paint) : StyleTable :=
  match paintType fill with
  | Some t =>
      if Js.truthyString t && notExplicitlyHidden (paintVisible fill) then
        assign (fillStyleId node t)
               (mkFigmaStyle (fillStyleId node t) (name node ++ " Fill")%string "FILL"
                             (FillValue fill) (id node))
               table
      else table
  | None => table
  end.

(** The body of [effects.forEach]. *)
Definition extractEffect (node : FigmaNode) (table : StyleTable) (effect : Effect) : StyleTable :=
  match effectType effect with
  | Some t =>
      if Js.truthyString t && notExplicitlyHidden (effectVisible effect) then
        assign (effectStyleId node t)
               (mkFigmaStyle (effectStyleId node t) (name node ++ " Effect")%string "EFFECT"
                             (EffectValue effect) (id node))
               table
      else table
  | None => table
  end.

Definition textValueKeys : list string :=
  ["fontName"; "textAlignHorizontal"; "textAlignVertical"; "letterSpacing";
   "lineHeight"; "textCase"; "textDecoration"]%string.

Definition extractText (node : FigmaNode) (table : StyleTable) : StyleTable :=
  if String.eqb (type node) "TEXT" && truthyOpt truthyNum (fontSize (properties node)) then
    assign (textStyleId node)
           (mkFigmaStyle (textStyleId node) (name node ++ " Text")%string "TEXT"
              (TextValue (fontSize (properties node))
                 (map (fun key => (key, lookup key (other (properties node)))) textValueKeys))
              (id node))
           table
  else table.

(** The body of [this.flattenedNodes.forEach] in [extractStyles]. *)
Definition extractNodeStyles (table : StyleTable) (node : FigmaNode) : StyleTable :=
  let table :=
    match fills (properties node) with
    | Some fs => fold_left (extractFill node) fs table
    | None => table
    end in
  let table := extractText node table in
  match effects (properties node) with
  | Some es => fold_left (extractEffect node) es table
  | None => table
  end.

Definition extractStyles (st : State) : (Error + unit) * State :=
  match designTree st, flattenedNodes st with
  | None, _ | _, [] => (inl "Design tree or flattened nodes not initialized"%string, st)
  | Some _, _ :: _ =>
      (inr tt,
       mkState (designTree st) (flattenedNodes st)
               (fold_left extractNodeStyles (flattenedNodes st) (extractedStyles st))
               (components st))
  end.

Definition isComponentType (t : string) : bool :=
  String.eqb t "COMPONENT" || String.eqb t "INSTANCE".

Definition optionEqb (a : option string) (b : string) : bool :=
  match a with
  | Some x => String.eqb x b
  | None => false
  end.

Definition toComponent (st : State) (node : FigmaNode) : FigmaComponent :=
  let childNodes := filter (fun child => optionEqb (parentId child) (id node))
                           (flattenedNodes st) in
  {| componentId := id node;
     componentName := name node;
     componentType := type node;
     componentChildren := map id childNodes;
     componentProperties := properties node;
     componentStyles :=
       fold_left (fun styles entry =>
                    if String.eqb (styleNodeId (snd entry)) (id node)
                    then assign (styleId (snd entry)) (snd entry) styles
                    else styles)
                 (extractedStyles st) [] |}.

Definition identifyComponents (st : State) : (Error + unit) * State :=
  match designTree st, flattenedNodes st with
  | None, _ | _, [] => (inl "Design tree or flattened nodes not initialized"%string, st)
  | Some _, _ :: _ =>
      (inr tt,
       mkState (designTree st) (flattenedNodes st) (extractedStyles st)
               (map (toComponent st)
                    (filter (fun node => isComponentType (type node)) (flattenedNodes st))))
  end.

Definition orDefault {A : Type} (test : A -> bool) (v : option A) (default : A) : A :=
  match v with
  | Some x => if test x then x else default
  | None => default
  end.

Definition toPage (page : RawNode) : FigmaPage :=
  {| pageId := rawId page;
     pageName := rawName page;
     pageType := rawType page;
     pageChildren := match rawChildren page with
                     | Some cs => cs
                     | None => []
                     end |}.

(** The [try] block of [parseJson]: the design tree or the error thrown,
    with the fields as the statements executed so far left them. *)
Definition parseJsonBody (now : string) (jsonData : JsonData) (st : State)
    : (Error + FigmaDesign) * State :=
  match dataDocument jsonData with
  | None => (inl "Invalid Figma file format"%string, st)
  | Some document =>
      match documentChildren document with
      | None => (inl "Invalid Figma file format"%string, st)
      | Some kids =>
          let tree :=
            {| designName := orDefault Js.truthyString (dataName jsonData) "Untitled Design"%string;
               designDocument := document;
               pages := map toPage kids;
               lastModified := orDefault Js.truthyString (dataLastModified jsonData) now;
               thumbnailUrl := orDefault Js.truthyString (dataThumbnailUrl jsonData) EmptyString;
               version := orDefault Js.truthyString (dataVersion jsonData) "1"%string;
               schemaVersion := orDefault truthyNum (dataSchemaVersion jsonData) 0%Q |} in
          let st := mkState (Some tree) (flattenedNodes st) (extractedStyles st)
                            (components st) in
          match flattenNodes st with
          | (inl e, st) => (inl e, st)
          | (inr _, st) =>
              match extractStyles st with
              | (inl e, st) => (inl e, st)
              | (inr _, st) =>
                  match identifyComponents st with
                  | (inl e, st) => (inl e, st)
                  | (inr _, st) => (inr tree, st)
                  end
              end
          end
      end
  end.

(** [parseJson]: the [catch] clause rethrows with a prefixed message.
    [now] is the value of [new Date().toISOString()]. *)
Definition parseJson (now : string) (jsonData : JsonData) (st : State)
    : (Error + FigmaDesign) * State :=
  match parseJsonBody now jsonData st with
  | (inl message, st) => (inl ("Failed to parse Figma file: " ++ message)%string, st)
  | (inr tree, st) => (inr tree, st)
  end.

Definition getFlattenedNodes (st : State) : list FigmaNode := flattenedNodes st.
Definition getExtractedStyles (st : State) : StyleTable := extractedStyles st.
Definition getComponents (st : State) : list FigmaComponent := components st.
Definition getDesignTree (st : State) : option FigmaDesign := designTree st.

End FigmaParser.

(** ** Design analyzer agent

    Source: [lib/agents/design-analyzer/designAnalyzerAgent.ts], the
    button detector, the confidence adjustments and the typography
    validator. *)

Module DesignAnalyzer.

Import Js FigmaParser.

Record ComponentPattern : Type := mkComponentPattern {
  patternId : string;
  patternType : string;
  patternNodeId : string;
  patternName : string;
  confidence : Q;
  patternProperties : list (string * Json);
  matchedNodes : list string
}.

Record StyleIssue : Type := mkStyleIssue {
  issueId : Text;
  issueType : string;
  severity : Severity;
  message : Text;
  detailSizes : list Q;
  detailFamilies : list (option Json);
  affectedNodes : list string;
  suggestion : Text
}.

(** [child.parentId === node.id && child.type === 'TEXT'] *)
Definition isTextChildOf (node child : FigmaNode) : bool :=
  optionEqb (parentId child) (id node) && String.eqb (type child) "TEXT".

(** The predicate of [this.flattenedNodes.filter] in
    [detectButtonPatterns]. *)
Definition isButtonCandidate (nodes : list FigmaNode) (node : FigmaNode) : bool :=
  let nameHint := Js.includes (Js.toLowerCase (name node)) "button"
                  || Js.includes (Js.toLowerCase (name node)) "btn" in
  let hasButtonShape := match cornerRadius (properties node) with
                        | Some _ => true
                        | None => false
                        end in
  let hasButtonFill := match fills (properties node) with
                       | Some fs => existsb (fun fill => notExplicitlyHidden (paintVisible fill)) fs
                       | None => false
                       end in
  let hasTextChild := existsb (isTextChildOf node) nodes in
  (nameHint || (hasButtonShape && hasButtonFill)) && hasTextChild.

Definition buttonVariant (node : FigmaNode) : string :=
  match fills (properties node) with
  | Some fs =>
      match find (fun f => notExplicitlyHidden (paintVisible f)) fs with
      | Some fill =>
          if truthyOpt (fun o => truthyNum o && negb (Qle_bool 1 o)) (paintOpacity fill)
          then "secondary"
          else if optionEqb (paintType fill) "SOLID"
                  && truthyOpt (fun c => Qeq_bool (alpha c) 0) (paintColor fill)
          then "outline"
          else "primary"
      | None => "outline"
      end
  | None => "primary"
  end.

Definition buttonSize (textChild : option FigmaNode) : string :=
  match textChild with
  | Some child =>
      match fontSize (properties child) with
      | Some size =>
          if truthyNum size then
            if negb (Qle_bool 14 size) then "sm"
            else if negb (Qle_bool size 16) then "lg"
            else "md"
          else "md"
      | None => "md"
      end
  | None => "md"
  end.

Definition buttonLabel (textChild : option FigmaNode) : string :=
  match textChild with
  | Some child => orDefault Js.truthyString (characters (properties child)) "Button"%string
  | None => "Button"
  end.

(** The pattern [detectButtonPatterns] pushes for one candidate. *)
Definition buttonPattern (nodes : list FigmaNode) (node : FigmaNode) : ComponentPattern :=
  let textChild := find (isTextChildOf node) nodes in
  {| patternId := ("button-" ++ id node)%string;
     patternType := "button";
     patternNodeId := id node;
     patternName := name node;
     confidence := (85 # 100)%Q;
     patternProperties :=
       [("variant", JStr (buttonVariant node));
        ("size", JStr (buttonSize textChild));
        ("label", JStr (buttonLabel textChild));
        ("disabled", JBool (truthyOpt (fun o => negb (Qle_bool 1 o))
                                      (opacity (properties node))))]%string;
     matchedNodes := id node :: match textChild with
                                | Some child => [id child]
                                | None => []
                                end |}.

(** [detectButtonPatterns]: [patterns] is [this.patterns]. *)
Definition detectButtonPatterns (nodes : list FigmaNode) (patterns : list ComponentPattern)
    : list ComponentPattern :=
  patterns ++ map (buttonPattern nodes) (filter (isButtonCandidate nodes) nodes).

Definition Qmin1 (q : Q) : Q := if Qle_bool 1 q then 1%Q else q.
Definition Qmax0 (q : Q) : Q := if Qle_bool q 0 then 0%Q else q.

(** The body of [this.patterns.forEach] in [calculatePatternConfidence]. *)
Definition adjustConfidence (pattern : ComponentPattern) : ComponentPattern :=
  let c := confidence pattern in
  let c := if Js.includes (Js.toLowerCase (patternName pattern)) (patternType pattern)
           then Qmin1 (c + (1 # 10)) else c in
  let c := if 3 <? List.length (matchedNodes pattern)
           then Qmin1 (c + (5 # 100)) else c in
  let c := if List.length (patternProperties pattern) <? 2
           then Qmax0 (c - (1 # 10)) else c in
  {| patternId := patternId pattern;
     patternType := patternType pattern;
     patternNodeId := patternNodeId pattern;
     patternName := patternName pattern;
     confidence := c;
     patternProperties := patternProperties pattern;
     matchedNodes := matchedNodes pattern |}.

(** [calculatePatternConfidence]: the adjusted patterns and their average
    confidence. *)
Definition calculatePatternConfidence (patterns : list ComponentPattern)
    : list ComponentPattern * Q :=
  match patterns with
  | [] => ([], 0%Q)
  | _ :: _ =>
      let adjusted := map adjustConfidence patterns in
      let total := fold_left (fun sum pattern => (sum + confidence pattern)%Q) adjusted 0%Q in
      (adjusted, (total / inject_Z (Z.of_nat (List.length adjusted)))%Q)
  end.

(** [Map<number, string[]>] and [Map<string, string[]>], keys in insertion
    order. *)
Fixpoint record {K : Type} (same : K -> K -> bool) (key : K) (nodeId : string)
    (used : list (K * list string)) : list (K * list string) :=
  match used with
  | [] => [(key, [nodeId])]
  | (k, ids) :: rest =>
      if same k key then (k, ids ++ [nodeId]) :: rest
      else (k, ids) :: record same key nodeId rest
  end.

(** The key under which a font name is recorded:
    [typeof fontName === 'string' ? fontName : fontName.family], [None]
    for [undefined].  The font name is truthy where this is evaluated. *)
Definition fontFamily (fontName : Json) : option Json :=
  match fontName with
  | JStr s => Some (JStr s)
  | JObj fields => lookup "family" fields
  | _ => None
  end.

(** Equality of two keys of a [Map]: primitive values by value, while
    the arrays and objects met here, each read from another node, are
    never the same object. *)
Definition sameFamily (a b : option Json) : bool :=
  match a, b with
  | None, None => true
  | Some JNull, Some JNull => true
  | Some (JBool x), Some (JBool y) => Bool.eqb x y
  | Some (JNum x), Some (JNum y) => Qeq_bool x y
  | Some (JStr x), Some (JStr y) => String.eqb x y
  | _, _ => false
  end.

Definition trackTypography (used : list (Q * list string) * list (option Json * list string))
    (node : FigmaNode) : list (Q * list string) * list (option Json * list string) :=
  if String.eqb (type node) "TEXT" then
    match fontSize (properties node) with
    | Some size =>
        if truthyNum size then
          (record Qeq_bool size (id node) (fst used),
           match lookup "fontName" (other (properties node)) with
           | Some fontName =>
               if truthy fontName
               then record sameFamily (fontFamily fontName) (id node) (snd used)
               else snd used
           | None => snd used
           end)
        else used
    | None => used
    end
  else used.

Definition standardSizes : list Q :=
  [12; 14; 16; 18; 20; 24; 32; 40; 48; 56; 64]%Q.

(** [sizes.includes(x)] *)
Definition includesNum (sizes : list Q) (x : Q) : bool :=
  existsb (fun s => Qeq_bool s x) sizes.

(** [Math.round] *)
Definition round (x : Q) : Q := inject_Z (Qfloor (x + (1 # 2))).

(** [Math.abs] *)
Definition Qabs' (x : Q) : Q := if Qle_bool 0 x then x else (- x)%Q.

(** [Math.abs(curr - size) < Math.abs(prev - size) ? curr : prev] *)
Definition nearer (size prev curr : Q) : Q :=
  if negb (Qle_bool (Qabs' (prev - size)) (Qabs' (curr - size))) then curr else prev.

(** [sizes.reduce(...)] with no initial value; the code calls it on a
    non-empty array only. *)
Definition findNearestStandardSize (size : Q) (sizes : list Q) : Q :=
  match sizes with
  | [] => 0%Q
  | first :: rest => fold_left (nearer size) rest first
  end.

Definition nonStandardIssue (size : Q) (nodeIds : list string) : StyleIssue :=
  {| issueId := [Lit "typography-non-standard-"; Num size];
     issueType := "typography";
     severity := SevInfo;
     message := [Lit "Found non-standard font size: "; Num size; Lit "px"];
     detailSizes := [size];
     detailFamilies := [];
     affectedNodes := nodeIds;
     suggestion := [Lit "Consider using the nearest standard size: ";
                    Num (findNearestStandardSize size standardSizes); Lit "px"] |}.

Definition isNonStandard (size : Q) : bool :=
  negb (includesNum standardSizes size) && negb (includesNum standardSizes (round size)).

(** [validateTypography]: [issues] is [this.styleIssues]. *)
Definition validateTypography (nodes : list FigmaNode) (issues : list StyleIssue)
    : list StyleIssue :=
  let used := fold_left trackTypography nodes ([], []) in
  let usedFontSizes := fst used in
  let usedFontFamilies := snd used in
  let issues :=
    if 5 <? List.length usedFontSizes then
      issues ++
      [{| issueId := [Lit "typography-too-many-sizes"];
          issueType := "typography";
          severity := SevWarning;
          message := [Lit "Found "; Count (List.length usedFontSizes);
                      Lit " different font sizes which may indicate inconsistent typography"];
          detailSizes := map fst usedFontSizes;
          detailFamilies := [];
          affectedNodes := [];
          suggestion := [Lit "Consider using a type scale with fewer font sizes for better consistency"] |}]
    else issues in
  let issues :=
    issues ++
    flat_map (fun entry => if isNonStandard (fst entry)
                           then [nonStandardIssue (fst entry) (snd entry)]
                           else [])
             usedFontSizes in
  if 2 <? List.length usedFontFamilies then
    issues ++
    [{| issueId := [Lit "typography-too-many-families"];
        issueType := "typography";
        severity := SevWarning;
        message := [Lit "Found "; Count (List.length usedFontFamilies);
                    Lit " different font families which may indicate inconsistent typography"];
        detailSizes := [];
        detailFamilies := map fst usedFontFamilies;
        affectedNodes := [];
        suggestion := [Lit "Consider using fewer font families (ideally 1-2) for better consistency"] |}]
  else issues.

End DesignAnalyzer.

(** ** EDS mapper agent

    Source: [lib/agents/eds-mapper/edsMapperAgent.ts], name similarity
    and the fallback mapping pass. *)

Module EdsMapper.

(** The distance matrix [d: number[][]]. *)
Definition matrix := list (list nat).

Fixpoint update {A : Type} (l : list A) (k : nat) (v : A) : list A :=
  match l, k with
  | [], _ => []
  | _ :: t, O => v :: t
  | h :: t, S k' => h :: update t k' v
  end.

(** [d[i][j]] *)
Definition mget (d : matrix) (i j : nat) : nat := nth j (nth i d []) 0.

(** [d[i][j] = v] *)
Definition mset (d : matrix) (i j v : nat) : matrix :=
  update d i (update (nth i d []) j v).

(** [s1[i] === s2[j]] on two in-range or out-of-range indices. *)
Definition sameChar (a b : option ascii) : bool :=
  match a, b with
  | Some x, Some y => Ascii.eqb x y
  | None, None => true
  | _, _ => false
  end.

Definition min3 (a b c : nat) : nat := Nat.min (Nat.min a b) c.

(** One cell of the fill loop. *)
Definition fillCell (s1 s2 : string) (j i : nat) (d : matrix) : matrix :=
  let cost := if sameChar (String.get (i - 1) s1) (String.get (j - 1) s2) then 0 else 1 in
  mset d i j (min3 (mget d (i - 1) j + 1) (mget d i (j - 1) + 1) (mget d (i - 1) (j - 1) + cost)).

Definition levenshteinDistance (s1 s2 : string) : nat :=
  let m := String.length s1 in
  let n := String.length s2 in
  let d := repeat (repeat 0 (n + 1)) (m + 1) in
  let d := Js.forLoop 0 (m + 1) (fun i d => mset d i 0 i) d in
  let d := Js.forLoop 0 (n + 1) (fun j d => mset d 0 j j) d in
  let d := Js.forLoop 1 n (fun j d => Js.forLoop 1 m (fillCell s1 s2 j) d) d in
  mget d m n.

Definition cleanName (name : string) : string :=
  Js.stripNonLowerAlnum (Js.toLowerCase name).

Definition calculateNameSimilarity (name1 name2 : string) : Q :=
  let clean1 := cleanName name1 in
  let clean2 := cleanName name2 in
  if negb (Js.truthyString clean1) || negb (Js.truthyString clean2) then 0%Q
  else if String.eqb clean1 clean2 then 1%Q
  else if Js.includes clean1 clean2 || Js.includes clean2 clean1 then (9 # 10)%Q
  else
    let distance := levenshteinDistance clean1 clean2 in
    let maxLength := Nat.max (String.length clean1) (String.length clean2) in
    (1 - (Z.of_nat distance # Pos.of_nat maxLength))%Q.

(** *** Fallback mapping by name and properties *)

Import FigmaParser.

Record EDSComponent : Type := mkEDSComponent {
  edsId : string;
  edsName : string;
  edsType : string;
  edsDescription : string;
  edsProperties : list (string * Json)
}.

Record EDSLibrary : Type := mkEDSLibrary {
  libraryId : string;
  libraryName : string;
  libraryComponents : list EDSComponent
}.

(** The value of one entry of a node's [properties]. *)
Inductive PropValue : Type :=
| PFills (fs : list Paint)
| PEffects (es : list Effect)
| PNumber (q : Q)
| PString (s : string)
| PBoolean (b : bool)
| PJson (v : Json).

(** The keys [traverseNodes] may set, in the order it sets them. *)
Definition propertyKeyOrder : list string :=
  ["fills"; "strokes"; "effects"; "styles"; "layout"; "layoutMode";
   "primaryAxisSizingMode"; "counterAxisSizingMode"; "paddingLeft"; "paddingRight";
   "paddingTop"; "paddingBottom"; "itemSpacing"; "strokeWeight"; "cornerRadius";
   "opacity"; "blendMode"; "characters"; "fontSize"; "fontName";
   "textAlignHorizontal"; "textAlignVertical"; "letterSpacing"; "lineHeight";
   "textCase"; "textDecoration"; "textStyleId"; "visible"]%string.

(** [properties[key]] *)
Definition propertyValue (p : Properties) (key : string) : option PropValue :=
  if String.eqb key "fills" then option_map PFills (fills p)
  else if String.eqb key "effects" then option_map PEffects (effects p)
  else if String.eqb key "cornerRadius" then option_map PNumber (cornerRadius p)
  else if String.eqb key "opacity" then option_map PNumber (opacity p)
  else if String.eqb key "characters" then option_map PString (characters p)
  else if String.eqb key "fontSize" then option_map PNumber (fontSize p)
  else if String.eqb key "visible" then option_map PBoolean (visible p)
  else option_map PJson (lookup key (other p)).

(** The keys of [keys] that are not among [seen], each once, in order. *)
Fixpoint distinctKeys (seen keys : list string) : list string :=
  match keys with
  | [] => []
  | key :: rest =>
      if existsb (String.eqb key) seen then distinctKeys seen rest
      else key :: distinctKeys (key :: seen) rest
  end.

(** [Object.keys(properties)]: every key the object has, once.  The keys
    [traverseNodes] sets come in the order it sets them, the object's
    further keys, which [other] holds, in the order of [other]. *)
Definition propertyKeys (p : Properties) : list string :=
  filter (fun key => match propertyValue p key with
                     | Some _ => true
                     | None => false
                     end) propertyKeyOrder
  ++ distinctKeys propertyKeyOrder (map fst (other p)).

Record PropertyMapping : Type := mkPropertyMapping {
  figmaProperty : string;
  edsProperty : string;
  mappedValue : option PropValue;
  propertyConfidence : Q
}.

Record ComponentMapping : Type := mkComponentMapping {
  mappingId : string;
  figmaComponent : FigmaComponent;
  edsComponent : EDSComponent;
  patternType : string;
  confidence : Q;
  propertyMappings : list PropertyMapping;
  matchedNodes : list string
}.

(** The comparator [(a, b) => b.similarity - a.similarity] puts [a] no
    later than [b] when [b.similarity <= a.similarity]. *)
Definition bySimilarity {A : Type} (a b : A * Q) : bool := Qle_bool (snd b) (snd a).

(** [x > y] on numbers *)
Definition Qgtb (x y : Q) : bool := negb (Qle_bool x y).

Definition findBestPropertyMatch (figmaProp : string) (eds : EDSComponent)
    : option (string * Q) :=
  let matches := map (fun edsProp => (edsProp, calculateNameSimilarity figmaProp edsProp))
                     (map fst (edsProperties eds)) in
  match Js.sortBy bySimilarity matches with
  | best :: _ => if Qgtb (snd best) (7 # 10) then Some best else None
  | [] => None
  end.

(** The body of [unmappedComponents.forEach]; [mappings] is
    [this.componentMappings]. *)
Definition mapByName (library : EDSLibrary) (mappings : list ComponentMapping)
    (figma : FigmaComponent) : list ComponentMapping :=
  let potentialMatches :=
    map (fun eds => (eds, calculateNameSimilarity (componentName figma) (edsName eds)))
        (libraryComponents library) in
  match Js.sortBy bySimilarity potentialMatches with
  | (eds, similarity) :: _ =>
      if Qgtb similarity (6 # 10) then
        let props :=
          flat_map (fun figmaProp =>
                      match findBestPropertyMatch figmaProp eds with
                      | Some (edsProp, sim) =>
                          [{| figmaProperty := figmaProp;
                              edsProperty := edsProp;
                              mappedValue := propertyValue (componentProperties figma) figmaProp;
                              propertyConfidence := sim |}]
                      | None => []
                      end)
                   (propertyKeys (componentProperties figma)) in
        mappings ++
        [{| mappingId := ("mapping-" ++ componentId figma ++ "-" ++ edsId eds)%string;
            figmaComponent := figma;
            edsComponent := eds;
            patternType := "unknown";
            confidence := similarity;
            propertyMappings := props;
            matchedNodes := [componentId figma] |}]
      else mappings
  | [] => mappings
  end.

(** [mapComponentsBasedOnNameAndProperties], for a loaded library. *)
Definition mapComponentsBasedOnNameAndProperties (library : EDSLibrary)
    (figmaComponents : list FigmaComponent) (mappings : list ComponentMapping)
    : list ComponentMapping :=
  let unmappedComponents :=
    filter (fun component =>
              negb (existsb (fun mapping =>
                               String.eqb (componentId (figmaComponent mapping))
                                          (componentId component))
                            mappings))
           figmaComponents in
  fold_left (mapByName library) unmappedComponents mappings.

End EdsMapper.

(** ** Code orchestrator agent

    Source: [lib/agents/llm-orchestrator/llmOrchestratorAgent.ts],
    [generateCode] and what it calls; the template engine is a
    parameter. *)

Module LlmOrchestrator.

Import FigmaParser.

#[local] Open Scope string_scope.

Record FrameworkConfig : Type := mkFrameworkConfig {
  frameworkName : string;
  frameworkOptions : option (list (string * Json))
}.

Record PromptTemplate : Type := mkPromptTemplate {
  templateId : string;
  templateName : string;
  template : string;
  placeholders : list string
}.

Record CodeGenerationRequest : Type := mkCodeGenerationRequest {
  mappingIds : list string;
  generateLayout : bool;
  options : list (string * Json)
}.

Record GeneratedComponent : Type := mkGeneratedComponent {
  artifactId : string;
  artifactName : string;
  code : string;
  language : string;
  success : bool;
  error : option string
}.

Record GeneratedLayout : Type := mkGeneratedLayout {
  layoutName : string;
  layoutCode : string;
  layoutLanguage : string;
  layoutSuccess : bool;
  layoutError : option string
}.

Record CodeGenerationResult : Type := mkCodeGenerationResult {
  resultSuccess : bool;
  resultMessage : string;
  resultComponents : list GeneratedComponent;
  resultLayout : option GeneratedLayout;
  resultFramework : string;
  resultTimestamp : string
}.

(** What a [catch] clause receives. *)
Inductive Thrown : Type :=
| ErrorObject (message : string)
| OtherValue.

(** [error instanceof Error ? error.message : 'Unknown error'] *)
Definition errorMessage (e : Thrown) : string :=
  match e with
  | ErrorObject message => message
  | OtherValue => "Unknown error"
  end.

Record State : Type := mkState {
  mappings : list EdsMapper.ComponentMapping;
  frameworkConfig : option FrameworkConfig;
  promptTemplates : list (string * PromptTemplate)
}.

(** [options?.typescript || false], as a condition *)
Definition useTypescript (config : FrameworkConfig) : bool :=
  match frameworkOptions config with
  | Some opts => truthyOpt truthy (lookup "typescript" opts)
  | None => false
  end.

Definition getTemplateKeyFromFramework (st : State) : string :=
  match frameworkConfig st with
  | None => "react"
  | Some config =>
      let name := frameworkName config in
      if String.eqb name "react" then (if useTypescript config then "react-ts" else "react")
      else if String.eqb name "vue" then (if useTypescript config then "vue-ts" else "vue")
      else if String.eqb name "angular" then "angular"
      else if String.eqb name "html" then "html"
      else "react"
  end.

Definition getLanguageFromFramework (st : State) : string :=
  match frameworkConfig st with
  | None => "javascript"
  | Some config =>
      let name := frameworkName config in
      if String.eqb name "react" || String.eqb name "vue"
      then (if useTypescript config then "typescript" else "javascript")
      else if String.eqb name "angular" then "typescript"
      else if String.eqb name "html" then "html"
      else "javascript"
  end.

(** [`${this.frameworkConfig?.name}`] *)
Definition frameworkNameText (st : State) : string :=
  match frameworkConfig st with
  | Some config => frameworkName config
  | None => "undefined"
  end.

Section Generators.

(** The template engine: [prepareTemplateVariables] followed by
    [fillTemplate], and the same for layouts.  Either may throw. *)
Variable renderComponent :
  State -> PromptTemplate -> EdsMapper.ComponentMapping -> list (string * Json) -> Thrown + string.
Variable renderLayout :
  State -> PromptTemplate -> list EdsMapper.ComponentMapping -> list (string * Json) -> Thrown + string.

Definition generateComponentCode (st : State) (mapping : EdsMapper.ComponentMapping)
    (opts : list (string * Json)) : Thrown + GeneratedComponent :=
  match lookup (getTemplateKeyFromFramework st) (promptTemplates st) with
  | None => inl (ErrorObject ("No template found for framework " ++ frameworkNameText st))
  | Some tpl =>
      match renderComponent st tpl mapping opts with
      | inl thrown => inl thrown
      | inr text =>
          inr {| artifactId := EdsMapper.mappingId mapping;
                 artifactName := componentName (EdsMapper.figmaComponent mapping);
                 code := text;
                 language := getLanguageFromFramework st;
                 success := true;
                 error := None |}
      end
  end.

Definition generateLayoutCode (st : State) (selected : list EdsMapper.ComponentMapping)
    (opts : list (string * Json)) : Thrown + GeneratedLayout :=
  match lookup (getTemplateKeyFromFramework st) (promptTemplates st) with
  | None => inl (ErrorObject ("No template found for framework " ++ frameworkNameText st))
  | Some tpl =>
      match renderLayout st tpl selected opts with
      | inl thrown => inl thrown
      | inr text =>
          inr {| layoutName := "Layout";
                 layoutCode := text;
                 layoutLanguage := getLanguageFromFramework st;
                 layoutSuccess := true;
                 layoutError := None |}
      end
  end.

(** The [try]/[catch] around one component. *)
Definition generateOrReport (st : State) (opts : list (string * Json))
    (mapping : EdsMapper.ComponentMapping) : GeneratedComponent :=
  match generateComponentCode st mapping opts with
  | inr component => component
  | inl thrown =>
      {| artifactId := EdsMapper.mappingId mapping;
         artifactName := componentName (EdsMapper.figmaComponent mapping);
         code := "// Error generating code: " ++ errorMessage thrown;
         language := getLanguageFromFramework st;
         success := false;
         error := Some (errorMessage thrown) |}
  end.

Definition selectedMappings (st : State) (request : CodeGenerationRequest)
    : list EdsMapper.ComponentMapping :=
  filter (fun mapping => existsb (String.eqb (EdsMapper.mappingId mapping)) (mappingIds request))
         (mappings st).

(** [generateCode]; [now] is [new Date().toISOString()]. *)
Definition generateCode (now : string) (st : State) (request : CodeGenerationRequest)
    : FigmaParser.Error + CodeGenerationResult :=
  match frameworkConfig st with
  | None => inl "Framework configuration not set"
  | Some config =>
      match selectedMappings st request with
      | [] => inl "No valid component mappings selected"
      | selected =>
          let generatedComponents := map (generateOrReport st (options request)) selected in
          let layout :=
            if generateLayout request then
              match generateLayoutCode st selected (options request) with
              | inr l => Some l
              | inl thrown =>
                  Some {| layoutName := "Layout";
                          layoutCode := "// Error generating layout code: " ++ errorMessage thrown;
                          layoutLanguage := getLanguageFromFramework st;
                          layoutSuccess := false;
                          layoutError := Some (errorMessage thrown) |}
              end
            else None in
          inr {| resultSuccess := forallb success generatedComponents;
                 resultMessage := if forallb success generatedComponents
                                  then "Code generation completed successfully"
                                  else "Some components failed to generate";
                 resultComponents := generatedComponents;
                 resultLayout := layout;
                 resultFramework := frameworkName config;
                 resultTimestamp := now |}
      end
  end.

End Generators.

End LlmOrchestrator.

(** ** Code validator agent

    Source: [lib/agents/code-validator/codeValidatorAgent.ts]. *)

Module CodeValidator.

Import Js LlmOrchestrator.

#[local] Open Scope string_scope.

Record ValidationIssue : Type := mkValidationIssue {
  issueId : string;
  issueType : string;
  severity : Severity;
  message : Text;
  locationComponent : string;
  locationLine : option Z;
  suggestion : string
}.

Record SyntaxCheckResult : Type := mkSyntaxCheckResult {
  syntaxPassed : bool;
  syntaxScore : Q;
  syntaxIssues : list ValidationIssue
}.

Record StyleCheckResult : Type := mkStyleCheckResult {
  stylePassed : bool;
  styleScore : Q;
  styleIssues : list ValidationIssue;
  criticalIssues : nat
}.

Record ResponsivenessCheckResult : Type := mkResponsivenessCheckResult {
  responsivenessPassed : bool;
  responsivenessScore : Q;
  responsivenessIssues : list ValidationIssue;
  isResponsive : bool;
  testedBreakpoints : list string
}.

Record ValidationResult : Type := mkValidationResult {
  validationSuccess : bool;
  validationMessage : string;
  syntaxCheck : SyntaxCheckResult;
  styleCheck : StyleCheckResult;
  responsivenessCheck : ResponsivenessCheckResult;
  overallScore : Q;
  isProductionReady : bool;
  issues : list ValidationIssue;
  timestamp : string
}.

Record State : Type := mkState {
  generatedCode : option CodeGenerationResult;
  validationIssues : list ValidationIssue;
  framework : string
}.

(** [new CodeValidatorAgent()] *)
Definition fresh : State := mkState None [] "react".

Definition initialize (code : CodeGenerationResult) (st : State) : State :=
  mkState (Some code) [] (resultFramework code).

Definition issue (id type : string) (sev : Severity) (msg : string) (component : string)
    (line : option Z) (hint : string) : ValidationIssue :=
  mkValidationIssue id type sev [Lit msg] component line hint.

(** [code.split('\n').findIndex(line => line.includes(needle))] *)
Definition lineOf (needle code : string) : Z :=
  findIndex (fun line => includes line needle) (splitLines code).

Definition when (condition : bool) (found : ValidationIssue) : list ValidationIssue :=
  if condition then [found] else [].

Definition openBrace : ascii := ascii_of_nat 123.
Definition closeBrace : ascii := ascii_of_nat 125.
Definition openParen : ascii := ascii_of_nat 40.
Definition closeParen : ascii := ascii_of_nat 41.
Definition singleQuote : ascii := ascii_of_nat 39.
Definition doubleQuote : ascii := ascii_of_nat 34.

(** The branch of [validateComponentSyntax] shared by react and vue. *)
Definition scriptSyntaxIssues (fw : string) (c : GeneratedComponent) : list ValidationIssue :=
  let src := code c in
  when (negb (includes src "import ") && negb (includes src "require("))
       (issue ("syntax-missing-imports-" ++ artifactId c) "syntax" SevWarning
              "Missing import statements" (artifactName c) (Some 1%Z)
              "Add necessary import statements at the top of the file")
  ++ when (negb (countChar openBrace src =? countChar closeBrace src)%nat)
       (issue ("syntax-unbalanced-braces-" ++ artifactId c) "syntax" SevError
              "Unbalanced curly braces" (artifactName c) None
              "Ensure all opening braces have matching closing braces")
  ++ when (negb (countChar openParen src =? countChar closeParen src)%nat)
       (issue ("syntax-unbalanced-parens-" ++ artifactId c) "syntax" SevError
              "Unbalanced parentheses" (artifactName c) None
              "Ensure all opening parentheses have matching closing parentheses")
  ++ (if String.eqb fw "react" then
        when (includes src "return (" && negb (includes src "return (")
              && negb (includes src "</"))
             (issue ("syntax-invalid-jsx-" ++ artifactId c) "syntax" SevError
                    "Invalid JSX syntax in return statement" (artifactName c)
                    (Some (lineOf "return (" src))
                    "Ensure JSX elements are properly formatted and closed")
        ++ when ((includes src "JSX" || (includes src "<" && includes src "/>"))
                 && (negb (includes src "import React")
                     && negb (includes src ("from " ++ dquote ++ "react" ++ dquote))
                     && negb (includes src "from 'react'")))
             (issue ("syntax-missing-react-import-" ++ artifactId c) "syntax" SevError
                    "Missing React import in JSX file" (artifactName c) (Some 1%Z)
                    ("Add " ++ dquote ++ "import React from 'react';" ++ dquote
                     ++ " at the top of the file"))
      else [])%list
  ++ (if String.eqb fw "vue" then
        when (includes src "<template>" && negb (includes src "</template>"))
             (issue ("syntax-invalid-template-" ++ artifactId c) "syntax" SevError
                    "Unclosed template tag" (artifactName c)
                    (Some (lineOf "<template>" src)) "Add closing </template> tag")
        ++ when (includes src "<script>" && negb (includes src "</script>"))
             (issue ("syntax-invalid-script-" ++ artifactId c) "syntax" SevError
                    "Unclosed script tag" (artifactName c)
                    (Some (lineOf "<script>" src)) "Add closing </script> tag")
      else [])%list.

Definition angularSyntaxIssues (c : GeneratedComponent) : list ValidationIssue :=
  let src := code c in
  when (negb (includes src "@Component"))
       (issue ("syntax-missing-component-decorator-" ++ artifactId c) "syntax" SevError
              "Missing @Component decorator" (artifactName c) None
              "Add @Component decorator to define the component")
  ++ when (includes src "template:" && negb (includes src "`"))
       (issue ("syntax-invalid-template-syntax-" ++ artifactId c) "syntax" SevError
              "Invalid template syntax" (artifactName c)
              (Some (lineOf "template:" src))
              "Use backticks (`) for multi-line templates").

(** The opening tags that are not self-closing, and the closing tags. *)
Definition openTags (src : string) : list string :=
  filter (fun matched => negb (includes matched "/>"))
         (execAll matchOpenTagHere (S (String.length src)) src).

Definition closingTags (src : string) : list string :=
  execAll matchCloseTagHere (S (String.length src)) src.

Definition htmlSyntaxIssues (c : GeneratedComponent) : list ValidationIssue :=
  let src := code c in
  when (negb (includes (toLowerCase src) "<!doctype html>")
        && negb (includes (toLowerCase src) "<!DOCTYPE html>"))
       (issue ("syntax-missing-doctype-" ++ artifactId c) "syntax" SevWarning
              "Missing DOCTYPE declaration" (artifactName c) (Some 1%Z)
              "Add <!DOCTYPE html> at the beginning of the file")
  ++ when (negb (List.length (openTags src) =? List.length (closingTags src))%nat)
       (issue ("syntax-unbalanced-html-tags-" ++ artifactId c) "syntax" SevError
              "Unbalanced HTML tags" (artifactName c) None
              "Ensure all HTML tags are properly closed").

Definition validateComponentSyntax (fw : string) (c : GeneratedComponent)
    : list ValidationIssue :=
  if String.eqb fw "react" || String.eqb fw "vue" then scriptSyntaxIssues fw c
  else if String.eqb fw "angular" then angularSyntaxIssues c
  else if String.eqb fw "html" then htmlSyntaxIssues c
  else [].

(** A layout seen as a component, as the three [validateLayout...] methods
    build it. *)
Definition layoutAsComponent (l : GeneratedLayout) : GeneratedComponent :=
  {| artifactId := "layout";
     artifactName := layoutName l;
     code := layoutCode l;
     language := layoutLanguage l;
     success := layoutSuccess l;
     error := layoutError l |}.

(** The indentation loop: [index] is [i], [previous] is [lines[i-1]] and
    [previousIndent] the indentation of the last line that was not blank.
    Gives [inconsistentIndentLine]. *)
Fixpoint indentScan (lines : list string) (index : Z) (previous : string)
    (previousIndent : Z) : Z :=
  match lines with
  | [] => (-1)%Z
  | line :: rest =>
      if isBlank line then indentScan rest (index + 1)%Z line previousIndent
      else
        let indent := searchNonSpace line in
        if negb (previousIndent =? -1)%Z
           && (2 <? Z.abs (indent - previousIndent))%Z
           && negb (includes previous "{") && negb (includes previous "(")
           && negb (includes line "}") && negb (includes line ")")
        then (index + 1)%Z
        else indentScan rest (index + 1)%Z line indent
  end.

(** [c !== c.toUpperCase()] for a character of the class [\w] *)
Definition changesInUpperCase (s : string) : bool :=
  match s with
  | String c _ => inRange 97 122 c
  | EmptyString => false
  end.

(** [name[0].toUpperCase() + name.slice(1)] for a name made of [\w] *)
Definition capitalize (s : string) : string :=
  match s with
  | String c rest => String (if inRange 97 122 c then ascii_of_nat (Js.code c - 32) else c) rest
  | EmptyString => EmptyString
  end.

Definition validateComponentStyle (fw : string) (c : GeneratedComponent)
    : list ValidationIssue :=
  let src := code c in
  let lines := splitLines src in
  let inconsistentIndentLine := indentScan lines 0%Z EmptyString (-1)%Z in
  let longLines := filter (fun entry => (100 <? String.length (fst entry))%nat)
                          (combine lines (seq 0 (List.length lines))) in
  let singleQuotes := countChar singleQuote src in
  let doubleQuotes := countChar doubleQuote src in
  when (negb (inconsistentIndentLine =? -1)%Z)
       (issue ("style-inconsistent-indent-" ++ artifactId c) "style" SevWarning
              "Inconsistent indentation" (artifactName c) (Some inconsistentIndentLine)
              "Use consistent indentation (2 or 4 spaces recommended)")
  ++ match longLines with
     | first :: _ =>
         [mkValidationIssue ("style-line-too-long-" ++ artifactId c) "style" SevInfo
            [Lit "Found "; Count (List.length longLines);
             Lit " lines that exceed 100 characters"]
            (artifactName c) (Some (Z.of_nat (snd first) + 1)%Z)
            "Break long lines into multiple lines for better readability"]
     | [] => []
     end
  ++ when ((0 <? singleQuotes)%nat && (0 <? doubleQuotes)%nat
           && (3 <? Nat.min singleQuotes doubleQuotes)%nat)
       (issue ("style-inconsistent-quotes-" ++ artifactId c) "style" SevInfo
              "Inconsistent quote style" (artifactName c) None
              "Use consistent quote style (either single or double quotes)")
  ++ (if String.eqb fw "react" then
        match matchConst src with
        | Some componentName =>
            when (changesInUpperCase componentName)
                 (issue ("style-component-naming-" ++ artifactId c) "style-critical" SevWarning
                        "Component name should use PascalCase" (artifactName c)
                        (Some (lineOf ("const " ++ componentName) src + 1)%Z)
                        ("Rename component from " ++ dquote ++ componentName ++ dquote
                         ++ " to " ++ dquote ++ capitalize componentName ++ dquote))
        | None => []
        end
        ++ when (includes src "props." && negb (includes src "...props"))
             (issue ("style-prop-destructuring-" ++ artifactId c) "style" SevInfo
                    "Props should be destructured" (artifactName c)
                    (Some (lineOf "props." src + 1)%Z)
                    "Destructure props in the function parameters or at the beginning of the component")
      else if String.eqb fw "vue" then
        match matchName src with
        | Some componentName =>
            when (negb (includes componentName "-") && negb (includes componentName "_"))
                 (issue ("style-component-naming-" ++ artifactId c) "style" SevInfo
                        "Vue component names should be multi-word" (artifactName c)
                        (Some (lineOf ("name: '" ++ componentName ++ "'") src + 1)%Z)
                        "Use kebab-case for component names and ensure they are multi-word to avoid conflicts with HTML elements")
        | None => []
        end
      else [])%list.

Definition validateComponentResponsiveness (fw : string) (c : GeneratedComponent)
    : list ValidationIssue :=
  let src := code c in
  let hasMediaQueries := includes src "@media" in
  let fixedPixels := countFixedPixels src false in
  let relativeUnits := countRelativeUnits src false in
  let hasFlexbox := includes src "display: flex" || includes src "display:flex" in
  let hasGrid := includes src "display: grid" || includes src "display:grid" in
  let hasViewportMeta := includes src "viewport" && includes src "width=device-width" in
  when (negb hasMediaQueries && negb (String.eqb fw "react"))
       (issue ("responsiveness-no-media-queries-" ++ artifactId c) "responsiveness" SevWarning
              "No media queries found" (artifactName c) None
              "Add media queries to handle different screen sizes")
  ++ when ((5 <? fixedPixels)%nat && (2 * relativeUnits <? fixedPixels)%nat)
       (issue ("responsiveness-fixed-units-" ++ artifactId c) "responsiveness" SevWarning
              "Excessive use of fixed pixel units" (artifactName c) None
              "Use relative units (rem, em, %) instead of fixed pixels for better responsiveness")
  ++ when (negb hasFlexbox && negb hasGrid && includes (toLowerCase (artifactName c)) "layout")
       (issue ("responsiveness-no-flexible-layout-" ++ artifactId c) "responsiveness" SevWarning
              "No flexible layout system detected" (artifactName c) None
              "Use Flexbox or CSS Grid for responsive layouts")
  ++ when (String.eqb fw "html" && negb hasViewportMeta)
       (issue ("responsiveness-no-viewport-meta-" ++ artifactId c) "responsiveness" SevError
              "Missing viewport meta tag" (artifactName c) None
              ("Add <meta name=" ++ dquote ++ "viewport" ++ dquote ++ " content=" ++ dquote
               ++ "width=device-width, initial-scale=1.0" ++ dquote
               ++ "> in the head section")).

(** [issues.filter(issue => issue.severity === sev).length] *)
Definition countSeverity (sev : Severity) (l : list ValidationIssue) : nat :=
  List.length (filter (fun i => severityEqb (severity i) sev) l).

Definition isCritical (i : ValidationIssue) : bool :=
  severityEqb (severity i) SevError
  || (severityEqb (severity i) SevWarning && String.eqb (issueType i) "style-critical").

Definition Qmax0 (q : Q) : Q := if Qle_bool q 0 then 0%Q else q.

Definition penalty (count : nat) (weight : Q) : Q :=
  (inject_Z (Z.of_nat count) * weight)%Q.

Definition calculateSyntaxScore (l : list ValidationIssue) : Q :=
  match l with
  | [] => 1%Q
  | _ =>
      Qmax0 (1 - (penalty (countSeverity SevError l) (3 # 10)
                  + penalty (countSeverity SevWarning l) (1 # 10)
                  + penalty (countSeverity SevInfo l) (3 # 100)))%Q
  end.

Definition calculateStyleScore (l : list ValidationIssue) : Q :=
  match l with
  | [] => 1%Q
  | _ =>
      let criticalCount := List.length (filter isCritical l) in
      let warningCount :=
        List.length (filter (fun i => severityEqb (severity i) SevWarning
                                      && negb (String.eqb (issueType i) "style-critical")) l) in
      Qmax0 (1 - (penalty criticalCount (25 # 100)
                  + penalty warningCount (1 # 10)
                  + penalty (countSeverity SevInfo l) (2 # 100)))%Q
  end.

Definition calculateResponsivenessScore (l : list ValidationIssue) : Q :=
  match l with
  | [] => 1%Q
  | _ =>
      Qmax0 (1 - (penalty (countSeverity SevError l) (3 # 10)
                  + penalty (countSeverity SevWarning l) (15 # 100)
                  + penalty (countSeverity SevInfo l) (5 # 100)))%Q
  end.

Definition calculateOverallScore (syntax style responsiveness : Q) : Q :=
  (syntax * (5 # 10) + style * (3 # 10) + responsiveness * (2 # 10))%Q.

(** The issues one of the three checks collects: every component in
    turn, then the layout when there is one. *)
Definition collect (check : GeneratedComponent -> list ValidationIssue)
    (generated : CodeGenerationResult) : list ValidationIssue :=
  (flat_map check (resultComponents generated)
   ++ match resultLayout generated with
      | Some l => check (layoutAsComponent l)
      | None => []
      end)%list.

Definition checkSyntax (generated : CodeGenerationResult) (st : State)
    : SyntaxCheckResult * State :=
  let found := collect (validateComponentSyntax (framework st)) generated in
  ({| syntaxPassed := (countSeverity SevError found =? 0)%nat;
      syntaxScore := calculateSyntaxScore found;
      syntaxIssues := found |},
   mkState (generatedCode st) (validationIssues st ++ found)%list (framework st)).

Definition checkStyle (generated : CodeGenerationResult) (st : State)
    : StyleCheckResult * State :=
  let found := collect (validateComponentStyle (framework st)) generated in
  let critical := List.length (filter isCritical found) in
  ({| stylePassed := (critical =? 0)%nat;
      styleScore := calculateStyleScore found;
      styleIssues := found;
      criticalIssues := critical |},
   mkState (generatedCode st) (validationIssues st ++ found)%list (framework st)).

Definition checkResponsiveness (generated : CodeGenerationResult) (st : State)
    : ResponsivenessCheckResult * State :=
  let found := collect (validateComponentResponsiveness (framework st)) generated in
  let score := calculateResponsivenessScore found in
  ({| responsivenessPassed := Qle_bool (7 # 10) score;
      responsivenessScore := score;
      responsivenessIssues := found;
      isResponsive := Qle_bool (7 # 10) score;
      testedBreakpoints := ["mobile"; "tablet"; "desktop"] |},
   mkState (generatedCode st) (validationIssues st ++ found)%list (framework st)).

(** [validateCode]; [now] is [new Date().toISOString()]. *)
Definition validateCode (now : string) (st : State) : (FigmaParser.Error + ValidationResult) * State :=
  match generatedCode st with
  | None => (inl "No generated code to validate", st)
  | Some generated =>
      let (syntaxResults, st) := checkSyntax generated st in
      let (styleResults, st) := checkStyle generated st in
      let (responsivenessResults, st) := checkResponsiveness generated st in
      let overall := calculateOverallScore (syntaxScore syntaxResults) (styleScore styleResults)
                                           (responsivenessScore responsivenessResults) in
      let ready := Qle_bool (8 # 10) overall
                   && (List.length (syntaxIssues syntaxResults) =? 0)%nat
                   && (criticalIssues styleResults =? 0)%nat in
      (inr {| validationSuccess := (countSeverity SevError (validationIssues st) =? 0)%nat;
              validationMessage := if ready
                                   then "Code validation passed, ready for production"
                                   else "Code validation completed with issues";
              syntaxCheck := syntaxResults;
              styleCheck := styleResults;
              responsivenessCheck := responsivenessResults;
              overallScore := overall;
              isProductionReady := ready;
              issues := validationIssues st;
              timestamp := now |},
       st)
  end.

End CodeValidator.

(** ** Reference notions the agents are compared with *)

Module Reference.

(** Classic unit-cost edit distance.  [edits s t n]: some sequence of
    single-character deletions, insertions and substitutions, [n] in
    number, turns [s] into [t] (characters left alone cost nothing). *)
Inductive edits : list ascii -> list ascii -> nat -> Prop :=
| edits_nil : edits [] [] 0
| edits_delete x s t n : edits s t n -> edits (x :: s) t (S n)
| edits_insert y s t n : edits s t n -> edits s (y :: t) (S n)
| edits_substitute x y s t n : x <> y -> edits s t n -> edits (x :: s) (y :: t) (S n)
| edits_keep x s t n : edits s t n -> edits (x :: s) (x :: t) n.

(** [n] is the edit distance of [s] and [t]: the least cost of a script. *)
Definition isEditDistance (s t : list ascii) (n : nat) : Prop :=
  edits s t n /\ forall k, edits s t k -> n <= k.

(** The textbook recursion for the same quantity. *)
Fixpoint levenshtein (s : list ascii) : list ascii -> nat :=
  match s with
  | [] => fun t => List.length t
  | x :: s' =>
      fix inner (t : list ascii) : nat :=
        match t with
        | [] => S (List.length s')
        | y :: t' =>
            Nat.min (Nat.min (levenshtein s' t + 1) (inner t' + 1))
                    (levenshtein s' t' + (if Ascii.eqb x y then 0 else 1))
        end
  end.

(** The number of nodes of a tree. *)
Fixpoint countNodes (n : FigmaParser.RawNode) : nat :=
  match n with
  | FigmaParser.mkRawNode _ _ _ _ kids =>
      S (match kids with
         | Some cs => list_sum (map countNodes cs)
         | None => 0
         end)
  end.

(** The nodes of a tree, parent before children, siblings left to right. *)
Fixpoint preorder (n : FigmaParser.RawNode) : list FigmaParser.RawNode :=
  match n with
  | FigmaParser.mkRawNode _ _ _ _ kids =>
      n :: match kids with
           | Some cs => flat_map preorder cs
           | None => []
           end
  end.

(** What identifies a source node in the flattened list. *)
Definition nodeLabel (n : FigmaParser.RawNode) : string * string * string :=
  (FigmaParser.rawId n, FigmaParser.rawName n, FigmaParser.rawType n).

Definition entryLabel (e : FigmaParser.FigmaNode) : string * string * string :=
  (FigmaParser.id e, FigmaParser.name e, FigmaParser.type e).

(** [e], found after the entries [before], has its parent among them:
    an entry whose id is [e]'s [parentId], one level up, and which lists
    [e] among its children. *)
Definition hasParentAmong (before : list FigmaParser.FigmaNode) (e : FigmaParser.FigmaNode)
    : Prop :=
  exists front parent back,
    before = front ++ parent :: back /\
    FigmaParser.parentId e = Some (FigmaParser.id parent) /\
    FigmaParser.depth e = FigmaParser.depth parent + 1 /\
    In (FigmaParser.id e) (FigmaParser.children parent).

Definition isRootEntry (e : FigmaParser.FigmaNode) : bool :=
  match FigmaParser.parentId e with
  | None => true
  | Some _ => false
  end.

(** A fill that style extraction records, and its type. *)
Definition recordedFill (fill : FigmaParser.Paint) (t : string) : Prop :=
  FigmaParser.paintType fill = Some t /\ Js.truthyString t = true /\
  FigmaParser.notExplicitlyHidden (FigmaParser.paintVisible fill) = true.

Definition recordedEffect (effect : FigmaParser.Effect) (t : string) : Prop :=
  FigmaParser.effectType effect = Some t /\ Js.truthyString t = true /\
  FigmaParser.notExplicitlyHidden (FigmaParser.effectVisible effect) = true.

(** A text node with a font size. *)
Definition sizedText (node : FigmaParser.FigmaNode) : Prop :=
  FigmaParser.type node = "TEXT"%string /\
  FigmaParser.truthyOpt FigmaParser.truthyNum
    (FigmaParser.fontSize (FigmaParser.properties node)) = true.

(** [styleSource nodes key style]: some node of [nodes] has a recorded
    fill, a font size or a recorded effect for which style extraction
    builds the record [style] and stores it under [key]. *)
Inductive styleSource (nodes : list FigmaParser.FigmaNode)
    : string -> FigmaParser.FigmaStyle -> Prop :=
| fromFill node fs fill t :
    In node nodes -> FigmaParser.fills (FigmaParser.properties node) = Some fs ->
    In fill fs -> recordedFill fill t ->
    styleSource nodes (FigmaParser.fillStyleId node t)
      (FigmaParser.mkFigmaStyle (FigmaParser.fillStyleId node t)
         (FigmaParser.name node ++ " Fill")%string "FILL"
         (FigmaParser.FillValue fill) (FigmaParser.id node))
| fromText node :
    In node nodes -> sizedText node ->
    styleSource nodes (FigmaParser.textStyleId node)
      (FigmaParser.mkFigmaStyle (FigmaParser.textStyleId node)
         (FigmaParser.name node ++ " Text")%string "TEXT"
         (FigmaParser.TextValue (FigmaParser.fontSize (FigmaParser.properties node))
            (map (fun key => (key, FigmaParser.lookup key
                                     (FigmaParser.other (FigmaParser.properties node))))
                 FigmaParser.textValueKeys))
         (FigmaParser.id node))
| fromEffect node es effect t :
    In node nodes -> FigmaParser.effects (FigmaParser.properties node) = Some es ->
    In effect es -> recordedEffect effect t ->
    styleSource nodes (FigmaParser.effectStyleId node t)
      (FigmaParser.mkFigmaStyle (FigmaParser.effectStyleId node t)
         (FigmaParser.name node ++ " Effect")%string "EFFECT"
         (FigmaParser.EffectValue effect) (FigmaParser.id node)).

(** The fills of a node that are not explicitly hidden. *)
Definition visibleFills (node : FigmaParser.FigmaNode) : list FigmaParser.Paint :=
  match FigmaParser.fills (FigmaParser.properties node) with
  | Some fs => filter (fun f => FigmaParser.notExplicitlyHidden (FigmaParser.paintVisible f)) fs
  | None => []
  end.

(** The records of a table that are fill records of a given node. *)
Definition fillRecordsOf (node : FigmaParser.FigmaNode) (table : FigmaParser.StyleTable)
    : list FigmaParser.FigmaStyle :=
  filter (fun r => String.eqb (FigmaParser.styleType r) "FILL"
                   && String.eqb (FigmaParser.styleNodeId r) (FigmaParser.id node))
         (map snd table).

(** The button confidence as the stated formula gives it: 0.5 for the
    exact name, 0.3 for a partial name match, plus 0.2 for a corner radius,
    plus 0.3 for a text child, at most 1. *)
Definition claimedButtonConfidence (nodes : list FigmaParser.FigmaNode)
    (node : FigmaParser.FigmaNode) : Q :=
  let lowered := Js.toLowerCase (FigmaParser.name node) in
  let byName :=
    if String.eqb (FigmaParser.name node) "button" then (5 # 10)%Q
    else if Js.includes lowered "button" || Js.includes lowered "btn" then (3 # 10)%Q
    else 0%Q in
  let byShape :=
    match FigmaParser.cornerRadius (FigmaParser.properties node) with
    | Some _ => (2 # 10)%Q
    | None => 0%Q
    end in
  let byText :=
    if existsb (DesignAnalyzer.isTextChildOf node) nodes then (3 # 10)%Q else 0%Q in
  DesignAnalyzer.Qmin1 (byName + byShape + byText)%Q.

(** The set of font sizes the statement calls standard. *)
Definition claimedStandardSizes : list Q :=
  [12; 14; 16; 18; 20; 24; 30; 36; 48; 60; 72]%Q.


(** [node] is a text node whose font size is [size]. *)
Definition textOfSize (node : FigmaParser.FigmaNode) (size : Q) : Prop :=
  FigmaParser.type node = "TEXT"%string /\
  FigmaParser.fontSize (FigmaParser.properties node) = Some size /\
  FigmaParser.truthyNum size = true.

(** Distance of two numbers, as the nearest-size search measures it. *)
Definition distance (x y : Q) : Q := DesignAnalyzer.Qabs' (x - y).

(** Name normalisation as specified: lowercase, then keep letters and
    digits only. *)
Definition normalize (s : string) : string :=
  string_of_list_ascii
    (filter Js.isAlnum (map Js.toLowerCaseChar (list_ascii_of_string s))).

Definition distanceRatio (x y : string) : Q :=
  (inject_Z (Z.of_nat (levenshtein (list_ascii_of_string x) (list_ascii_of_string y)))
   / inject_Z (Z.of_nat (Nat.max (String.length x) (String.length y))))%Q.

(** The similarity of two normalised names, by the three stated rules. *)
Definition similarityOfNormalized (x y : string) : Q :=
  if String.eqb x y then 1%Q
  else if Js.includes x y || Js.includes y x then (9 # 10)%Q
  else (1 - distanceRatio x y)%Q.

(** Name similarity as specified. *)
Definition specifiedSimilarity (a b : string) : Q :=
  similarityOfNormalized (normalize a) (normalize b).

(** Name similarity with the empty-name rule put first. *)
Definition guardedSimilarity (a b : string) : Q :=
  if String.eqb (normalize a) EmptyString || String.eqb (normalize b) EmptyString
  then 0%Q
  else specifiedSimilarity a b.

End Reference.

(** ** Concrete inputs used as examples *)

Module Scenario.

Import LlmOrchestrator.

#[local] Open Scope string_scope.

(** A generation result with one React component that has no import
    statement and is otherwise clean. *)
Definition componentWithoutImport : GeneratedComponent :=
  {| artifactId := "mapping-2:1-eds-button";
     artifactName := "Card";
     code := "const Card = () => null;";
     language := "javascript";
     success := true;
     error := None |}.

Definition generatedWithoutImport : CodeGenerationResult :=
  {| resultSuccess := true;
     resultMessage := "Code generation completed successfully";
     resultComponents := [componentWithoutImport];
     resultLayout := None;
     resultFramework := "react";
     resultTimestamp := "2024-01-01T00:00:00.000Z" |}.

Definition someFigmaComponent (id name : string) : FigmaParser.FigmaComponent :=
  FigmaParser.mkFigmaComponent id name "COMPONENT" [] FigmaParser.noProperties [].







(** A rectangle with two visible solid fills, red then blue. *)
Definition redFill : FigmaParser.Paint :=
  FigmaParser.mkPaint (Some "SOLID") None (Some 1%Q) (Some (FigmaParser.mkColor 1 0 0 1)).

Definition blueFill : FigmaParser.Paint :=
  FigmaParser.mkPaint (Some "SOLID") None (Some 1%Q) (Some (FigmaParser.mkColor 0 0 1 1)).

Definition twoFillProperties : FigmaParser.Properties :=
  FigmaParser.mkProperties (Some [redFill; blueFill]) None None None None None None [].

(** A document of one page holding that rectangle, and the entry the
    parser makes for the rectangle. *)
Definition twoFillDocument : FigmaParser.JsonData :=
  FigmaParser.mkJsonData (Some "Design")
    (Some (FigmaParser.mkRawDocument
             (Some [FigmaParser.mkRawNode "1:1" "Page 1" "CANVAS" FigmaParser.noProperties
                      (Some [FigmaParser.mkRawNode "1:2" "Box" "RECTANGLE"
                               twoFillProperties None])])))
    None None None None.

Definition twoFillBox : FigmaParser.FigmaNode :=
  FigmaParser.mkFigmaNode "1:2" "Box" "RECTANGLE" (Some "1:1") 1 [] twoFillProperties.

(** A frame named exactly "button", with a corner radius, a visible fill
    and a text child. *)
Definition buttonFrame : FigmaParser.FigmaNode :=
  FigmaParser.mkFigmaNode "1:2" "button" "FRAME" (Some "1:1") 1 ["1:3"]
    (FigmaParser.mkProperties
       (Some [FigmaParser.mkPaint (Some "SOLID") None None None]) None
       (Some 4%Q) None None None None []).

Definition buttonLabel : FigmaParser.FigmaNode :=
  FigmaParser.mkFigmaNode "1:3" "Label" "TEXT" (Some "1:2") 2 []
    (FigmaParser.mkProperties None None None None (Some "Submit") (Some 16%Q) None []).

(** A text node of font size 30. *)
Definition titleOfSize30 : FigmaParser.FigmaNode :=
  FigmaParser.mkFigmaNode "1:3" "Title" "TEXT" (Some "1:2") 2 []
    (FigmaParser.mkProperties None None None None (Some "Hello") (Some 30%Q) None []).

(** The document of the parser's test suite: one page, one component,
    its text label. *)
Definition testPage : FigmaParser.FigmaPage :=
  FigmaParser.mkFigmaPage "1:1" "Page 1" "CANVAS"
    [FigmaParser.mkRawNode "2:1" "Button" "COMPONENT" FigmaParser.noProperties
       (Some [FigmaParser.mkRawNode "3:1" "Label" "TEXT" FigmaParser.noProperties None])].

Definition testDesign : FigmaParser.FigmaDesign :=
  FigmaParser.mkFigmaDesign "Test Design" (FigmaParser.mkRawDocument None) [testPage]
    "2024-01-01T00:00:00.000Z" EmptyString "1" 0%Q.

End Scenario.

(** ** Vocabulary of the loop invariants *)

Module Invariant.

Import EdsMapper.

(** A matrix of [rows] rows of [cols] cells each. *)
Definition shaped (rows cols : nat) (d : matrix) : Prop :=
  List.length d = rows /\ Forall (fun r => List.length r = cols) d.

(** Edit distance of the first [i] characters of [l1] and the first [j]
    characters of [l2]: the quantity cell [(i, j)] is meant to hold. *)
Definition prefixDistance (l1 l2 : list ascii) (i j : nat) : nat :=
  Reference.levenshtein (rev (firstn i l1)) (rev (firstn j l2)).

(** State of the matrix for [s1] and [s2] while column [j] is being
    filled, rows [1..i-1] of it done. *)
Definition filledUpTo (s1 s2 : string) (j i : nat) (d : matrix) : Prop :=
  let D := prefixDistance (list_ascii_of_string s1) (list_ascii_of_string s2) in
  shaped (String.length s1 + 1) (String.length s2 + 1) d /\
  (forall i' j', i' <= String.length s1 -> j' < j -> mget d i' j' = D i' j') /\
  (forall j', j' <= String.length s2 -> mget d 0 j' = D 0 j') /\
  (forall i', i' < i -> mget d i' j = D i' j).

(** The assignments style extraction makes for one fill, one effect,
    the text style of a node, and a whole node, in order. *)
Definition fillWrite (node : FigmaParser.FigmaNode) (fill : FigmaParser.Paint)
    : list (string * FigmaParser.FigmaStyle) :=
  match FigmaParser.paintType fill with
  | Some t =>
      if Js.truthyString t && FigmaParser.notExplicitlyHidden (FigmaParser.paintVisible fill)
      then [(FigmaParser.fillStyleId node t,
             FigmaParser.mkFigmaStyle (FigmaParser.fillStyleId node t)
               (FigmaParser.name node ++ " Fill")%string "FILL"
               (FigmaParser.FillValue fill) (FigmaParser.id node))]
      else []
  | None => []
  end.

Definition effectWrite (node : FigmaParser.FigmaNode) (effect : FigmaParser.Effect)
    : list (string * FigmaParser.FigmaStyle) :=
  match FigmaParser.effectType effect with
  | Some t =>
      if Js.truthyString t && FigmaParser.notExplicitlyHidden (FigmaParser.effectVisible effect)
      then [(FigmaParser.effectStyleId node t,
             FigmaParser.mkFigmaStyle (FigmaParser.effectStyleId node t)
               (FigmaParser.name node ++ " Effect")%string "EFFECT"
               (FigmaParser.EffectValue effect) (FigmaParser.id node))]
      else []
  | None => []
  end.

Definition textWrite (node : FigmaParser.FigmaNode)
    : list (string * FigmaParser.FigmaStyle) :=
  if String.eqb (FigmaParser.type node) "TEXT"
     && FigmaParser.truthyOpt FigmaParser.truthyNum
          (FigmaParser.fontSize (FigmaParser.properties node))
  then [(FigmaParser.textStyleId node,
         FigmaParser.mkFigmaStyle (FigmaParser.textStyleId node)
           (FigmaParser.name node ++ " Text")%string "TEXT"
           (FigmaParser.TextValue (FigmaParser.fontSize (FigmaParser.properties node))
              (map (fun key => (key, FigmaParser.lookup key
                                       (FigmaParser.other (FigmaParser.properties node))))
                   FigmaParser.textValueKeys))
           (FigmaParser.id node))]
  else [].

Definition writes (node : FigmaParser.FigmaNode) : list (string * FigmaParser.FigmaStyle) :=
  match FigmaParser.fills (FigmaParser.properties node) with
  | Some fs => flat_map (fillWrite node) fs
  | None => []
  end
  ++ textWrite node
  ++ match FigmaParser.effects (FigmaParser.properties node) with
     | Some es => flat_map (effectWrite node) es
     | None => []
     end.

Definition applyWrites {A : Type} (ws : list (string * A)) (table : list (string * A))
    : list (string * A) :=
  fold_left (fun t kv => FigmaParser.assign (fst kv) (snd kv) t) ws table.

(** The part of [trackTypography] that maintains the font-size map. *)
Definition trackSize (used : list (Q * list string)) (node : FigmaParser.FigmaNode)
    : list (Q * list string) :=
  if String.eqb (FigmaParser.type node) "TEXT" then
    match FigmaParser.fontSize (FigmaParser.properties node) with
    | Some size =>
        if FigmaParser.truthyNum size
        then DesignAnalyzer.record Qeq_bool size (FigmaParser.id node) used
        else used
    | None => used
    end
  else used.

(** The entries one call of [traverseNodes] appends, as a list. *)
Fixpoint entries (node : FigmaParser.RawNode) (parent : option string) (depth : nat)
    : list FigmaParser.FigmaNode :=
  match node with
  | FigmaParser.mkRawNode nodeId nodeName nodeType props kids =>
      FigmaParser.mkFigmaNode nodeId nodeName nodeType parent depth
        (match kids with
         | Some cs => map FigmaParser.rawId cs
         | None => []
         end)
        (FigmaParser.copyProperties props)
      :: match kids with
         | Some cs => flat_map (fun child => entries child (Some nodeId) (depth + 1)) cs
         | None => []
         end
  end.

(** Induction over a tree and the list of its children. *)
Fixpoint RawNode_induction (P : FigmaParser.RawNode -> Prop)
    (step : forall i n t p kids,
        (forall cs, kids = Some cs -> Forall P cs) -> P (FigmaParser.mkRawNode i n t p kids))
    (node : FigmaParser.RawNode) {struct node} : P node :=
  match node with
  | FigmaParser.mkRawNode i n t p kids =>
      step i n t p kids
        (match kids as k return forall cs, k = Some cs -> Forall P cs with
         | Some cs0 =>
             fun cs (H : Some cs0 = Some cs) =>
               match H in (_ = o) return match o with
                                         | Some c => Forall P c
                                         | None => True
                                         end with
               | eq_refl =>
                   (fix all (l : list FigmaParser.RawNode) : Forall P l :=
                      match l with
                      | [] => Forall_nil P
                      | c :: l' => Forall_cons c (RawNode_induction P step c) (all l')
                      end) cs0
               end
         | None => fun cs (H : None = Some cs) =>
                     match H in (_ = o) return match o with
                                               | Some c => Forall P c
                                               | None => True
                                               end with
                     | eq_refl => I
                     end
         end)
  end.

(** Every entry of [l] but the first has its parent before it. *)
Definition linked (l : list FigmaParser.FigmaNode) : Prop :=
  forall before e after,
    l = before ++ e :: after -> before <> [] -> Reference.hasParentAmong before e.

End Invariant.

(** ** EDS mapper agent: the pattern pass, the confidence pass and
    [mapComponents]

    Source: [lib/agents/eds-mapper/edsMapperAgent.ts].  An object of the
    library or of a pattern is the list of its entries, one per key. *)

Module EdsMapperPasses.

Import FigmaParser EdsMapper.

(** What [mapComponents] can throw: [new Error(message)], or the
    [TypeError] of calling a method that a value does not have. *)
Inductive Exception : Type :=
| ErrorWith (message : string)
| TypeError.

(** A value read from a pattern, as the value of a property mapping. *)
Definition valueOf (v : Json) : PropValue :=
  match v with
  | JNum q => PNumber q
  | JStr s => PString s
  | JBool b => PBoolean b
  | _ => PJson v
  end.

(** [if (o.key)] *)
Definition has (key : string) (o : list (string * Json)) : bool :=
  truthyOpt truthy (lookup key o).

(** [o.key !== undefined] *)
Definition defined (key : string) (o : list (string * Json)) : bool :=
  match lookup key o with
  | Some _ => true
  | None => false
  end.

(** [o.key], as the value of a property mapping *)
Definition valueAt (key : string) (o : list (string * Json)) : option PropValue :=
  option_map valueOf (lookup key o).

(** [o.key === text] *)
Definition isText (key text : string) (o : list (string * Json)) : bool :=
  match lookup key o with
  | Some (JStr s) => String.eqb s text
  | _ => false
  end.

(** [if (condition) propertyMappings.push({ figmaProperty, edsProperty,
    value, confidence })] *)
Definition pushIf (condition : bool) (figmaProp edsProp : string) (value : option PropValue)
    (c : Q) : list PropertyMapping :=
  if condition then [mkPropertyMapping figmaProp edsProp value c] else [].

(** The five [map...Properties] methods receive an empty array and push
    into it; each is given here by the entries it pushes, in order. *)
Definition mapButtonProperties (pattern : DesignAnalyzer.ComponentPattern) (eds : EDSComponent)
    : list PropertyMapping :=
  let p := DesignAnalyzer.patternProperties pattern in
  let e := edsProperties eds in
  pushIf (has "variant" p && has "variant" e) "variant" "variant" (valueAt "variant" p) (9 # 10)
  ++ pushIf (has "size" p && has "size" e) "size" "size" (valueAt "size" p) (8 # 10)
  ++ pushIf (has "label" p && has "children" e) "label" "children" (valueAt "label" p) (9 # 10)
  ++ pushIf (defined "disabled" p && defined "disabled" e) "disabled" "disabled"
            (valueAt "disabled" p) (9 # 10).

Definition mapInputProperties (pattern : DesignAnalyzer.ComponentPattern) (eds : EDSComponent)
    : list PropertyMapping :=
  let p := DesignAnalyzer.patternProperties pattern in
  let e := edsProperties eds in
  pushIf (has "type" p && has "type" e) "type" "type" (valueAt "type" p) (9 # 10)
  ++ pushIf (has "placeholder" p && has "placeholder" e) "placeholder" "placeholder"
            (valueAt "placeholder" p) (9 # 10)
  ++ pushIf (defined "disabled" p && defined "disabled" e) "disabled" "disabled"
            (valueAt "disabled" p) (9 # 10)
  ++ pushIf (defined "required" p && defined "required" e) "required" "required"
            (valueAt "required" p) (7 # 10).

Definition mapNavigationProperties (pattern : DesignAnalyzer.ComponentPattern)
    (eds : EDSComponent) : list PropertyMapping :=
  let p := DesignAnalyzer.patternProperties pattern in
  let e := edsProperties eds in
  pushIf (has "type" p && has "orientation" e) "type" "orientation" (valueAt "type" p) (9 # 10)
  ++ pushIf (defined "isHeader" p && defined "variant" e) "isHeader" "variant"
            (Some (PString (if has "isHeader" p then "header" else "default"))) (8 # 10)
  ++ pushIf (defined "isSidebar" p && defined "variant" e) "isSidebar" "variant"
            (Some (PString (if has "isSidebar" p then "sidebar" else "default"))) (8 # 10).

(** [pattern.properties.type.startsWith] is a function only when the type
    is a string. *)
Definition mapLayoutProperties (pattern : DesignAnalyzer.ComponentPattern) (eds : EDSComponent)
    : Exception + list PropertyMapping :=
  let p := DesignAnalyzer.patternProperties pattern in
  let e := edsProperties eds in
  let display :=
    if has "type" p && has "display" e then
      match lookup "type" p with
      | Some (JStr t) =>
          inr [mkPropertyMapping "type" "display"
                 (Some (PString (if String.prefix "flex" t then "flex" else "grid")))
                 (9 # 10)]
      | _ => inl TypeError
      end
    else inr [] in
  match display with
  | inl thrown => inl thrown
  | inr pushed =>
      inr (pushed
           ++ pushIf (has "type" p
                      && (isText "type" "flex-row" p || isText "type" "flex-column" p)
                      && has "flexDirection" e)
                     "type" "flexDirection"
                     (Some (PString (if isText "type" "flex-row" p then "row" else "column")))
                     (9 # 10)
           ++ pushIf (defined "spacing" p && defined "gap" e) "spacing" "gap"
                     (valueAt "spacing" p) (8 # 10)
           ++ pushIf (has "alignment" p && has "justifyContent" e) "alignment" "justifyContent"
                     (valueAt "alignment" p) (8 # 10)
           ++ pushIf (has "padding" p && has "padding" e) "padding" "padding"
                     (valueAt "padding" p) (9 # 10))
  end.

(** The standard corner radii of [mapCardProperties]. *)
Definition standardSizes : list Q := [0; 2; 4; 8; 16; 24]%Q.

(** [sizes.includes(v)]: only a number can be found among numbers. *)
Definition includesValue (sizes : list Q) (v : Json) : bool :=
  match v with
  | JNum q => DesignAnalyzer.includesNum sizes q
  | _ => false
  end.

(** [v === x] for a number [x] *)
Definition strictEqNum (v : Json) (x : Q) : bool :=
  match v with
  | JNum q => Qeq_bool q x
  | _ => false
  end.

Section Coercion.

(** [ToNumber] on a value that is not a number, [None] standing for
    [NaN]: what the subtraction [curr - radius] does to a corner radius
    that a pattern gives as something else. *)
Variable toNumber : Json -> option Q.

Definition numberOf (v : Json) : option Q :=
  match v with
  | JNum q => Some q
  | _ => toNumber v
  end.

(** [Math.abs(curr - radius) < Math.abs(prev - radius) ? curr : prev];
    a comparison with [NaN] is false. *)
Definition nearerTo (radius : option Q) (prev curr : Q) : Q :=
  match radius with
  | Some r => DesignAnalyzer.nearer r prev curr
  | None => prev
  end.

(** The entry pushed for the corner radius. *)
Definition cardRadiusMapping (radius : Json) : PropertyMapping :=
  if includesValue standardSizes radius then
    mkPropertyMapping "cornerRadius" "borderRadius" (Some (valueOf radius)) (9 # 10)
  else
    let mappedRadius :=
      match standardSizes with
      | [] => 0%Q
      | first :: rest => fold_left (nearerTo (numberOf radius)) rest first
      end in
    mkPropertyMapping "cornerRadius" "borderRadius" (Some (PNumber mappedRadius))
                      (if strictEqNum radius mappedRadius then 9 # 10 else 7 # 10).

Definition mapCardProperties (pattern : DesignAnalyzer.ComponentPattern) (eds : EDSComponent)
    : list PropertyMapping :=
  let p := DesignAnalyzer.patternProperties pattern in
  let e := edsProperties eds in
  pushIf (defined "hasHeader" p && defined "withHeader" e) "hasHeader" "withHeader"
         (valueAt "hasHeader" p) (8 # 10)
  ++ pushIf (defined "hasFooter" p && defined "withFooter" e) "hasFooter" "withFooter"
            (valueAt "hasFooter" p) (8 # 10)
  ++ pushIf (defined "hasShadow" p && defined "elevation" e) "hasShadow" "elevation"
            (Some (PNumber (if has "hasShadow" p then 1 else 0))) (7 # 10)
  ++ match lookup "cornerRadius" p with
     | Some radius => if defined "borderRadius" e then [cardRadiusMapping radius] else []
     | None => []
     end.

(** The dispatch on [topPattern.type]. *)
Definition mapPatternProperties (top : DesignAnalyzer.ComponentPattern) (eds : EDSComponent)
    : Exception + list PropertyMapping :=
  let t := DesignAnalyzer.patternType top in
  if String.eqb t "button" then inr (mapButtonProperties top eds)
  else if String.eqb t "input" then inr (mapInputProperties top eds)
  else if String.eqb t "card" then inr (mapCardProperties top eds)
  else if String.eqb t "navigation" then inr (mapNavigationProperties top eds)
  else if String.eqb t "layout" then mapLayoutProperties top eds
  else inr [].

(** [patternsByNodeId.get(id) || []]: the patterns of that node, in the
    order of detection. *)
Definition patternsOf (detected : list DesignAnalyzer.ComponentPattern) (nodeId : string)
    : list DesignAnalyzer.ComponentPattern :=
  filter (fun pattern => String.eqb (DesignAnalyzer.patternNodeId pattern) nodeId) detected.

(** The comparator [(a, b) => b.confidence - a.confidence]. *)
Definition byConfidence (a b : DesignAnalyzer.ComponentPattern) : bool :=
  Qle_bool (DesignAnalyzer.confidence b) (DesignAnalyzer.confidence a).

(** The comparator of [matchingEdsComponents.sort]. *)
Definition byNameSimilarity (figma : FigmaComponent) (a b : EDSComponent) : bool :=
  Qle_bool (calculateNameSimilarity (componentName figma) (edsName b))
           (calculateNameSimilarity (componentName figma) (edsName a)).

(** The library components of the type of a pattern, the best name first. *)
Definition matchingEdsComponents (library : EDSLibrary) (figma : FigmaComponent)
    (top : DesignAnalyzer.ComponentPattern) : list EDSComponent :=
  let matching :=
    filter (fun eds => String.eqb (Js.toLowerCase (edsType eds))
                                  (Js.toLowerCase (DesignAnalyzer.patternType top)))
           (libraryComponents library) in
  if 1 <? List.length matching then Js.sortBy (byNameSimilarity figma) matching else matching.

(** The body of [this.figmaComponents.forEach] in
    [mapComponentsBasedOnPatterns]; [mappings] is [this.componentMappings]. *)
Definition mapByPattern (library : EDSLibrary) (detected : list DesignAnalyzer.ComponentPattern)
    (mappings : list ComponentMapping) (figma : FigmaComponent)
    : Exception + list ComponentMapping :=
  match Js.sortBy byConfidence (patternsOf detected (componentId figma)) with
  | [] => inr mappings
  | top :: _ =>
      match matchingEdsComponents library figma top with
      | [] => inr mappings
      | eds :: _ =>
          match mapPatternProperties top eds with
          | inl thrown => inl thrown
          | inr props =>
              inr (mappings ++
                   [{| mappingId := ("mapping-" ++ componentId figma ++ "-" ++ edsId eds)%string;
                       figmaComponent := figma;
                       edsComponent := eds;
                       patternType := DesignAnalyzer.patternType top;
                       confidence := DesignAnalyzer.confidence top;
                       propertyMappings := props;
                       matchedNodes := DesignAnalyzer.matchedNodes top |}])
          end
      end
  end.

(** [items.forEach(body)] where [body] may throw: the exception, if any,
    and the state as the last completed call left it. *)
Fixpoint forEach {A S E : Type} (body : S -> A -> E + S) (items : list A) (s : S)
    : option E * S :=
  match items with
  | [] => (None, s)
  | x :: rest =>
      match body s x with
      | inl thrown => (Some thrown, s)
      | inr s' => forEach body rest s'
      end
  end.

Definition mapComponentsBasedOnPatterns (library : EDSLibrary)
    (figmaComponents : list FigmaComponent) (detected : list DesignAnalyzer.ComponentPattern)
    (mappings : list ComponentMapping) : option Exception * list ComponentMapping :=
  forEach (mapByPattern library detected) figmaComponents mappings.

(** [count / keys > bound] for two numbers of entries: a division by zero
    gives [Infinity], and [0 / 0] gives [NaN], which compares false. *)
Definition ratioAbove (count keys : nat) (bound : Q) : bool :=
  if keys =? 0 then negb (count =? 0)
  else Qgtb (Z.of_nat count # Pos.of_nat keys) bound.

(** [count / keys < bound] *)
Definition ratioBelow (count keys : nat) (bound : Q) : bool :=
  if keys =? 0 then false
  else Qgtb bound (Z.of_nat count # Pos.of_nat keys).

(** The body of [this.componentMappings.forEach] in
    [calculateMappingConfidence]. *)
Definition adjustMapping (mapping : ComponentMapping) : ComponentMapping :=
  let count := List.length (propertyMappings mapping) in
  let keys := List.length (edsProperties (edsComponent mapping)) in
  let c := confidence mapping in
  let c :=
    if 0 <? count then
      let avgPropertyConfidence :=
        (fold_left (fun sum prop => sum + propertyConfidence prop) (propertyMappings mapping) 0
         / inject_Z (Z.of_nat count))%Q in
      (c * (6 # 10) + avgPropertyConfidence * (4 # 10))%Q
    else c in
  let c :=
    if ratioAbove count keys (7 # 10) then DesignAnalyzer.Qmin1 (c + (1 # 10))
    else if ratioBelow count keys (3 # 10) then DesignAnalyzer.Qmax0 (c - (1 # 10))
    else c in
  {| mappingId := mappingId mapping;
     figmaComponent := figmaComponent mapping;
     edsComponent := edsComponent mapping;
     patternType := patternType mapping;
     confidence := c;
     propertyMappings := propertyMappings mapping;
     matchedNodes := matchedNodes mapping |}.

Definition calculateMappingConfidence (mappings : list ComponentMapping)
    : list ComponentMapping :=
  map adjustMapping mappings.

(** The private fields of the agent. *)
Record State : Type := mkState {
  edsLibrary : option EDSLibrary;
  figmaComponents : list FigmaComponent;
  figmaNodes : list FigmaNode;
  detectedPatterns : list DesignAnalyzer.ComponentPattern;
  componentMappings : list ComponentMapping
}.

(** [new EDSMapperAgent()] *)
Definition fresh : State := mkState None [] [] [] [].

Definition initialize (components : list FigmaComponent) (nodes : list FigmaNode)
    (detected : list DesignAnalyzer.ComponentPattern) (st : State) : State :=
  mkState (edsLibrary st) components nodes detected (componentMappings st).

(** [addLibrary], as far as the modelled fields go. *)
Definition addLibrary (library : EDSLibrary) (st : State) : State :=
  mkState (Some library) (figmaComponents st) (figmaNodes st) (detectedPatterns st)
          (componentMappings st).

Record MappingResult : Type := mkMappingResult {
  success : bool;
  message : string;
  mappings : list ComponentMapping;
  mappedCount : nat;
  totalCount : nat;
  unmappedComponents : list FigmaComponent
}.

Definition withMappings (st : State) (mappings : list ComponentMapping) : State :=
  mkState (edsLibrary st) (figmaComponents st) (figmaNodes st) (detectedPatterns st) mappings.

(** [component => !mappings.some(m => m.figmaComponent.id === component.id)] *)
Definition isUnmapped (mappings : list ComponentMapping) (component : FigmaComponent) : bool :=
  negb (existsb (fun mapping => String.eqb (componentId (figmaComponent mapping))
                                           (componentId component))
                mappings).

Definition mapComponents (st : State) : (Exception + MappingResult) * State :=
  match edsLibrary st with
  | None => (inl (ErrorWith "EDS library not loaded"), st)
  | Some library =>
      match figmaComponents st with
      | [] => (inl (ErrorWith "No Figma components to map"), st)
      | _ :: _ =>
          match mapComponentsBasedOnPatterns library (figmaComponents st)
                                             (detectedPatterns st) [] with
          | (Some thrown, mapped) => (inl thrown, withMappings st mapped)
          | (None, mapped) =>
              let mapped :=
                mapComponentsBasedOnNameAndProperties library (figmaComponents st) mapped in
              let mapped := calculateMappingConfidence mapped in
              (inr {| success := true;
                      message := "Component mapping completed";
                      mappings := mapped;
                      mappedCount := List.length mapped;
                      totalCount := List.length (figmaComponents st);
                      unmappedComponents := filter (isUnmapped mapped) (figmaComponents st) |},
               withMappings st mapped)
          end
      end
  end.

End Coercion.

End EdsMapperPasses.

(** ** Design analyzer agent: layout patterns and the consistency score

    Source: [lib/agents/design-analyzer/designAnalyzerAgent.ts]. *)

Module DesignAnalyzerLayout.

Import Js FigmaParser DesignAnalyzer.

(** [node.properties[key]] for a key without a typed field. *)
Definition property (key : string) (node : FigmaNode) : option Json :=
  lookup key (other (properties node)).

(** [node.properties[key] !== undefined] *)
Definition hasProperty (key : string) (node : FigmaNode) : bool :=
  match property key node with
  | Some _ => true
  | None => false
  end.

(** [node.properties[key] === text] *)
Definition propertyIs (key text : string) (node : FigmaNode) : bool :=
  match property key node with
  | Some (JStr s) => String.eqb s text
  | _ => false
  end.

(** [node.properties[key] || 0] *)
Definition propertyOrZero (key : string) (node : FigmaNode) : Json :=
  match property key node with
  | Some v => if truthy v then v else JNum 0
  | None => JNum 0
  end.

(** The predicate of [this.flattenedNodes.filter] in
    [detectLayoutPatterns]. *)
Definition isLayoutCandidate (nodes : list FigmaNode) (node : FigmaNode) : bool :=
  let hasLayoutProperties := hasProperty "layoutMode" node
                             || hasProperty "primaryAxisSizingMode" node
                             || hasProperty "counterAxisSizingMode" node in
  let nameHint := includes (toLowerCase (name node)) "layout"
                  || includes (toLowerCase (name node)) "container"
                  || includes (toLowerCase (name node)) "grid"
                  || includes (toLowerCase (name node)) "flex" in
  let isContainer := String.eqb (type node) "FRAME" || String.eqb (type node) "GROUP"
                     || String.eqb (type node) "COMPONENT" in
  let hasMultipleChildren :=
    2 <=? List.length (filter (fun child => optionEqb (parentId child) (id node)) nodes) in
  (hasLayoutProperties || nameHint) && isContainer && hasMultipleChildren.

Definition layoutType (node : FigmaNode) : string :=
  if includes (toLowerCase (name node)) "grid" then "grid"
  else if propertyIs "layoutMode" "VERTICAL" node then "flex-column"
  else if propertyIs "layoutMode" "HORIZONTAL" node then "flex-row"
  else "flex".

Definition alignment (node : FigmaNode) : string :=
  if propertyIs "primaryAxisAlignItems" "CENTER" node then "center"
  else if propertyIs "primaryAxisAlignItems" "END" node then "end"
  else if propertyIs "primaryAxisAlignItems" "SPACE_BETWEEN" node then "space-between"
  else "start".

(** The pattern [detectLayoutPatterns] pushes for one candidate. *)
Definition layoutPattern (node : FigmaNode) : ComponentPattern :=
  {| patternId := ("layout-" ++ id node)%string;
     patternType := "layout";
     patternNodeId := id node;
     patternName := name node;
     confidence := (8 # 10)%Q;
     patternProperties :=
       [("type", JStr (layoutType node));
        ("spacing", propertyOrZero "itemSpacing" node);
        ("alignment", JStr (alignment node));
        ("padding", JObj [("top", propertyOrZero "paddingTop" node);
                          ("right", propertyOrZero "paddingRight" node);
                          ("bottom", propertyOrZero "paddingBottom" node);
                          ("left", propertyOrZero "paddingLeft" node)])]%string;
     matchedNodes := [id node] |}.

(** [detectLayoutPatterns]: [patterns] is [this.patterns]. *)
Definition detectLayoutPatterns (nodes : list FigmaNode) (patterns : list ComponentPattern)
    : list ComponentPattern :=
  patterns ++ map layoutPattern (filter (isLayoutCandidate nodes) nodes).

(** [issueImpact[issue.severity]] *)
Definition issueImpact (s : Severity) : Q :=
  match s with
  | SevError => (2 # 10)%Q
  | SevWarning => (1 # 10)%Q
  | SevInfo => (5 # 100)%Q
  end.

(** [calculateStyleConsistency]: [issues] is [this.styleIssues]. *)
Definition calculateStyleConsistency (issues : list StyleIssue) : Q :=
  let consistencyScore :=
    fold_left (fun score issue => (score - issueImpact (severity issue))%Q) issues 1%Q in
  Qmax0 (Qmin1 consistencyScore).

End DesignAnalyzerLayout.

(** ** Design analyzer agent: the font sizes of the typography system

    Source: [lib/agents/design-analyzer/designAnalyzerAgent.ts],
    [findSecondLargest], [findThirdLargest] and [findMostCommonInRange]. *)

Module DesignAnalyzerTypography.

(** An entry of [fontSizeArray], with the fields the three methods read. *)
Record SizeUsage : Type := mkSizeUsage {
  usedSize : Q;
  usedCount : nat
}.

(** The comparator [(a, b) => b - a]. *)
Definition descending (a b : Q) : bool := Qle_bool b a.

(** [sorted[k]] *)
Definition findSecondLargest (values : list Q) : option Q :=
  if List.length values <? 2 then None
  else nth_error (Js.sortBy descending values) 1.

Definition findThirdLargest (values : list Q) : option Q :=
  if List.length values <? 3 then None
  else nth_error (Js.sortBy descending values) 2.

(** The comparator [(a, b) => b.count - a.count]. *)
Definition byCount (a b : SizeUsage) : bool :=
  Qle_bool (inject_Z (Z.of_nat (usedCount b))) (inject_Z (Z.of_nat (usedCount a))).

(** [v.size >= min && v.size <= max] *)
Definition isInRange (min max : Q) (v : SizeUsage) : bool :=
  Qle_bool min (usedSize v) && Qle_bool (usedSize v) max.

Definition findMostCommonInRange (values : list SizeUsage) (min max : Q) : option Q :=
  match Js.sortBy byCount (filter (isInRange min max) values) with
  | [] => None
  | first :: _ => Some (usedSize first)
  end.

End DesignAnalyzerTypography.

(** ** Code orchestrator agent: names of the generated components

    Source: [lib/agents/llm-orchestrator/llmOrchestratorAgent.ts],
    [formatComponentName] and [toKebabCase]. *)

Module LlmOrchestratorNaming.

Import Js.

(** [name.replace(/[^\w\s]/g, '')] *)
Fixpoint keepWordsAndSpaces (s : string) : string :=
  match s with
  | EmptyString => EmptyString
  | String c rest =>
      if isWord c || isSpace c then String c (keepWordsAndSpaces rest)
      else keepWordsAndSpaces rest
  end.

(** The class of the separators [[\s_-]]. *)
Definition isSeparator (c : ascii) : bool :=
  isSpace c || (code c =? 95) || (code c =? 45).

(** [s.split(/[sep]+/)]: the pieces between the runs of separators, the
    empty ones at either end included.  [word] holds the characters of
    the current piece in reverse, [inRun] tells that the previous
    character was a separator. *)
Fixpoint splitOnRuns (sep : ascii -> bool) (s : string) (word : list ascii) (inRun : bool)
    : list string :=
  match s with
  | EmptyString => [string_of_list_ascii (rev word)]
  | String c rest =>
      if sep c then
        if inRun then splitOnRuns sep rest word true
        else string_of_list_ascii (rev word) :: splitOnRuns sep rest [] true
      else splitOnRuns sep rest (c :: word) false
  end.

(** [c.toUpperCase()] for a character of the class [\w], the only ones
    a piece is made of. *)
Definition toUpperCaseChar (c : ascii) : ascii :=
  if inRange 97 122 c then ascii_of_nat (code c - 32) else c.

(** [word.charAt(0).toUpperCase() + word.slice(1).toLowerCase()] *)
Definition pascalWord (word : string) : string :=
  match word with
  | EmptyString => EmptyString
  | String c rest => String (toUpperCaseChar c) (toLowerCase rest)
  end.

Definition formatComponentName (name : string) : string :=
  let cleanName := keepWordsAndSpaces name in
  String.concat EmptyString (map pascalWord (splitOnRuns isSeparator cleanName [] false)).

Definition isLower (c : ascii) : bool := inRange 97 122 c.
Definition isUpper (c : ascii) : bool := inRange 65 90 c.

(** [s.replace(/([a-z])([A-Z])/g, '$1-$2')]: a match takes both
    characters, and the search resumes after them. *)
Fixpoint hyphenateHumps (s : string) : string :=
  match s with
  | String a (String b rest as tail) =>
      if isLower a && isUpper b
      then String a (String "-" (String b (hyphenateHumps rest)))
      else String a (hyphenateHumps tail)
  | _ => s
  end.

(** [s.replace(/[\s_]+/g, '-')]; [inRun] tells that the previous
    character was replaced. *)
Fixpoint dashRuns (s : string) (inRun : bool) : string :=
  match s with
  | EmptyString => EmptyString
  | String c rest =>
      if isSpace c || (code c =? 95)
      then (if inRun then dashRuns rest true else String "-" (dashRuns rest true))
      else String c (dashRuns rest false)
  end.

Definition toKebabCase (str : string) : string :=
  toLowerCase (dashRuns (hyphenateHumps str) false).

End LlmOrchestratorNaming.

(** ** Vocabulary of the selection steps *)

Module Selection.

(** [x] is the first entry of [l] among those with the largest key: what
    a stable descending sort puts in front. *)
Definition firstLargest {A : Type} (key : A -> Q) (l : list A) (x : A) : Prop :=
  exists before after,
    l = before ++ x :: after /\
    (forall y, In y before -> (key y < key x)%Q) /\
    (forall y, In y after -> (key y <= key x)%Q).

(** [x] is the first entry of [l] among those nearest to [target]. *)
Definition firstNearest (target : Q) (l : list Q) (x : Q) : Prop :=
  exists before after,
    l = before ++ x :: after /\
    (forall y, In y before -> (Reference.distance x target < Reference.distance y target)%Q) /\
    (forall y, In y after -> (Reference.distance x target <= Reference.distance y target)%Q).

(** A character that a kebab-case name may hold: no capital ASCII letter,
    no white space, no underscore. *)
Definition isKebabChar (c : ascii) : bool :=
  negb (Js.inRange 65 90 c) && negb (Js.isSpace c) && negb (Js.code c =? 95).

(** A confidence, a score: a number from 0 to 1. *)
Definition inUnitInterval (q : Q) : Prop := (0 <= q)%Q /\ (q <= 1)%Q.

(** [m] is the mapping the fallback pass makes for the component
    [figma]: it binds the first of the library components whose name is
    most similar to the component's, that similarity exceeds 0.6 and is
    the confidence.  Every property mapping pairs a key of the
    component's properties, with the value held under it, with the first
    of the library component's property names most similar to the key,
    their similarity exceeds 0.7 and is the confidence; no key is mapped
    twice, and every key of the component to which some property name of
    the library component is more similar than 0.7 is mapped. *)
Definition bestNameMatch (library : EdsMapper.EDSLibrary) (figma : FigmaParser.FigmaComponent)
    (m : EdsMapper.ComponentMapping) : Prop :=
  EdsMapper.figmaComponent m = figma /\
  firstLargest (fun eds => EdsMapper.calculateNameSimilarity
                             (FigmaParser.componentName figma) (EdsMapper.edsName eds))
               (EdsMapper.libraryComponents library) (EdsMapper.edsComponent m) /\
  EdsMapper.confidence m
  = EdsMapper.calculateNameSimilarity (FigmaParser.componentName figma)
                                      (EdsMapper.edsName (EdsMapper.edsComponent m)) /\
  (6 # 10 < EdsMapper.confidence m)%Q /\
  EdsMapper.patternType m = "unknown"%string /\
  EdsMapper.matchedNodes m = [FigmaParser.componentId figma] /\
  Forall (fun pm =>
            EdsMapper.propertyConfidence pm
            = EdsMapper.calculateNameSimilarity (EdsMapper.figmaProperty pm)
                                                (EdsMapper.edsProperty pm) /\
            (7 # 10 < EdsMapper.propertyConfidence pm)%Q /\
            In (EdsMapper.figmaProperty pm)
               (EdsMapper.propertyKeys (FigmaParser.componentProperties figma)) /\
            In (EdsMapper.edsProperty pm)
               (map fst (EdsMapper.edsProperties (EdsMapper.edsComponent m))) /\
            EdsMapper.mappedValue pm
            = EdsMapper.propertyValue (FigmaParser.componentProperties figma)
                                      (EdsMapper.figmaProperty pm) /\
            firstLargest (EdsMapper.calculateNameSimilarity (EdsMapper.figmaProperty pm))
                         (map fst (EdsMapper.edsProperties (EdsMapper.edsComponent m)))
                         (EdsMapper.edsProperty pm))
         (EdsMapper.propertyMappings m) /\
  NoDup (map EdsMapper.figmaProperty (EdsMapper.propertyMappings m)) /\
  (forall key edsProp,
      In key (EdsMapper.propertyKeys (FigmaParser.componentProperties figma)) ->
      In edsProp (map fst (EdsMapper.edsProperties (EdsMapper.edsComponent m))) ->
      (7 # 10 < EdsMapper.calculateNameSimilarity key edsProp)%Q ->
      In key (map EdsMapper.figmaProperty (EdsMapper.propertyMappings m))).

(** [m] is the mapping the pattern pass makes for the component [figma]
    from the detected patterns: its pattern is the first of the most
    confident patterns of the component's node, its library component the
    first, among those of the pattern's type (letter case apart), of the
    best-named ones. *)
Definition topPatternMatch (library : EdsMapper.EDSLibrary)
    (detected : list DesignAnalyzer.ComponentPattern) (figma : FigmaParser.FigmaComponent)
    (m : EdsMapper.ComponentMapping) : Prop :=
  EdsMapper.figmaComponent m = figma /\
  exists top,
    firstLargest DesignAnalyzer.confidence
                 (EdsMapperPasses.patternsOf detected (FigmaParser.componentId figma)) top /\
    EdsMapper.patternType m = DesignAnalyzer.patternType top /\
    EdsMapper.confidence m = DesignAnalyzer.confidence top /\
    EdsMapper.matchedNodes m = DesignAnalyzer.matchedNodes top /\
    Js.toLowerCase (EdsMapper.edsType (EdsMapper.edsComponent m))
    = Js.toLowerCase (DesignAnalyzer.patternType top) /\
    firstLargest (fun eds => EdsMapper.calculateNameSimilarity
                               (FigmaParser.componentName figma) (EdsMapper.edsName eds))
                 (filter (fun eds => String.eqb (Js.toLowerCase (EdsMapper.edsType eds))
                                                (Js.toLowerCase (DesignAnalyzer.patternType top)))
                         (EdsMapper.libraryComponents library))
                 (EdsMapper.edsComponent m).

End Selection.

(** ** Further concrete inputs *)

Module Examples.

#[local] Open Scope string_scope.

(** A document whose page list is empty. *)
Definition documentWithoutPages : FigmaParser.JsonData :=
  FigmaParser.mkJsonData (Some "Empty") (Some (FigmaParser.mkRawDocument (Some [])))
    None None None None.

(** A document of one page with nothing on it. *)
Definition blankDocument : FigmaParser.JsonData :=
  FigmaParser.mkJsonData (Some "Blank")
    (Some (FigmaParser.mkRawDocument
             (Some [FigmaParser.mkRawNode "9:1" "Page 1" "CANVAS" FigmaParser.noProperties
                      None])))
    None None None None.

(** A document of one page holding a horizontal auto-layout frame, whose
    items are centred, with two children. *)
Definition centredRowDocument : FigmaParser.JsonData :=
  FigmaParser.mkJsonData (Some "Row")
    (Some (FigmaParser.mkRawDocument
             (Some [FigmaParser.mkRawNode "1:1" "Page 1" "CANVAS" FigmaParser.noProperties
                      (Some [FigmaParser.mkRawNode "1:2" "Row" "FRAME"
                               (FigmaParser.mkProperties None None None None None None None
                                  [("layoutMode", FigmaParser.JStr "HORIZONTAL");
                                   ("primaryAxisAlignItems", FigmaParser.JStr "CENTER")])
                               (Some [FigmaParser.mkRawNode "1:3" "Left" "RECTANGLE"
                                        FigmaParser.noProperties None;
                                      FigmaParser.mkRawNode "1:4" "Right" "RECTANGLE"
                                        FigmaParser.noProperties None])])])))
    None None None None.

(** The entry the parser makes for that frame. *)
Definition centredRow : FigmaParser.FigmaNode :=
  FigmaParser.mkFigmaNode "1:2" "Row" "FRAME" (Some "1:1") 1 ["1:3"; "1:4"]
    (FigmaParser.mkProperties None None None None None None None
       [("layoutMode", FigmaParser.JStr "HORIZONTAL")]).

(** A library with one button component. *)
Definition buttonLibrary : EdsMapper.EDSLibrary :=
  EdsMapper.mkEDSLibrary "eds-1" "Core"
    [EdsMapper.mkEDSComponent "eds-button" "Button" "Button" "A button"
       [("variant", FigmaParser.JStr "primary"); ("size", FigmaParser.JStr "md");
        ("children", FigmaParser.JStr "text"); ("disabled", FigmaParser.JBool false)]].

(** A mapper holding that library, two components and the button
    pattern detected on the first of them. *)
Definition mapperReady : EdsMapperPasses.State :=
  EdsMapperPasses.mkState (Some buttonLibrary)
    [FigmaParser.mkFigmaComponent "1:2" "button" "COMPONENT" ["1:3"]
       (FigmaParser.properties Scenario.buttonFrame) [];
     Scenario.someFigmaComponent "5:1" "Primary Button"]
    [Scenario.buttonFrame; Scenario.buttonLabel]
    (DesignAnalyzer.detectButtonPatterns [Scenario.buttonFrame; Scenario.buttonLabel] [])
    [].

(** A mapper holding a library with a stack component, the centred row
    as a component and the layout pattern of that row. *)
Definition layoutMapper : EdsMapperPasses.State :=
  EdsMapperPasses.mkState
    (Some (EdsMapper.mkEDSLibrary "eds-2" "Layouts"
             [EdsMapper.mkEDSComponent "eds-stack" "Stack" "layout" "A flex container"
                [("display", FigmaParser.JStr "flex"); ("gap", FigmaParser.JNum 0)]]))
    [FigmaParser.mkFigmaComponent "1:2" "Row" "FRAME" ["1:3"; "1:4"]
       (FigmaParser.properties centredRow) []]
    []
    [DesignAnalyzerLayout.layoutPattern centredRow]
    [].

(** A document of one page holding a hidden text: its [visible] flag is
    [false], its opacity, corner radius and stroke weight are 0, its text
    is empty, and it has a rotation, which the parser does not copy. *)
Definition hiddenText : FigmaParser.RawNode :=
  FigmaParser.mkRawNode "7:2" "Ghost" "TEXT"
    (FigmaParser.mkProperties None None (Some 0%Q) (Some 0%Q) (Some EmptyString) (Some 14%Q)
       (Some false)
       [("strokeWeight", FigmaParser.JNum 0); ("blendMode", FigmaParser.JStr "NORMAL");
        ("rotation", FigmaParser.JNum 45)])
    None.

Definition hiddenDocument : FigmaParser.JsonData :=
  FigmaParser.mkJsonData (Some "Hidden")
    (Some (FigmaParser.mkRawDocument
             (Some [FigmaParser.mkRawNode "7:1" "Page 1" "CANVAS"
                      (FigmaParser.mkProperties None None None None None None (Some false) [])
                      (Some [hiddenText])])))
    None None None None.

(** The entry the parser makes for that text. *)
Definition hiddenEntry : FigmaParser.FigmaNode :=
  FigmaParser.mkFigmaNode "7:2" "Ghost" "TEXT" (Some "7:1") 1 []
    (FigmaParser.mkProperties None None None None None (Some 14%Q) (Some false)
       [("blendMode", FigmaParser.JStr "NORMAL")]).

(** The two-fill rectangle with a gradient in place of the blue fill. *)
Definition gradientFill : FigmaParser.Paint :=
  FigmaParser.mkPaint (Some "GRADIENT_LINEAR") None (Some 1%Q) None.

Definition twoKindDocument : FigmaParser.JsonData :=
  FigmaParser.mkJsonData (Some "Design")
    (Some (FigmaParser.mkRawDocument
             (Some [FigmaParser.mkRawNode "1:1" "Page 1" "CANVAS" FigmaParser.noProperties
                      (Some [FigmaParser.mkRawNode "1:2" "Box" "RECTANGLE"
                               (FigmaParser.mkProperties
                                  (Some [Scenario.redFill; gradientFill])
                                  None None None None None None [])
                               None])])))
    None None None None.





(** A coercion to numbers that knows no value: everything that is not a
    number becomes [NaN]. *)
Definition allNaN (v : FigmaParser.Json) : option Q := None.

(** The components and the library of the repository's test utilities:
    their properties are none of the keys the parser sets. *)
Definition bagOf (entries : list (string * FigmaParser.Json)) : FigmaParser.Properties :=
  FigmaParser.mkProperties None None None None None None None entries.

Definition mockButton : FigmaParser.FigmaComponent :=
  FigmaParser.mkFigmaComponent "component-1" "Button" "COMPONENT" []
    (bagOf [("variant", FigmaParser.JStr "primary"); ("size", FigmaParser.JStr "medium");
            ("label", FigmaParser.JStr "Button")]) [].

Definition mockInputField : FigmaParser.FigmaComponent :=
  FigmaParser.mkFigmaComponent "component-2" "Input Field" "COMPONENT" []
    (bagOf [("placeholder", FigmaParser.JStr "Enter text...");
            ("disabled", FigmaParser.JBool false)]) [].

Definition mockCard : FigmaParser.FigmaComponent :=
  FigmaParser.mkFigmaComponent "component-3" "Card" "COMPONENT" []
    (bagOf [("title", FigmaParser.JStr "Card Title");
            ("withShadow", FigmaParser.JBool true)]) [].

Definition choice (values : list string) : FigmaParser.Json :=
  FigmaParser.JArr (map FigmaParser.JStr values).

Definition mockLibrary : EdsMapper.EDSLibrary :=
  EdsMapper.mkEDSLibrary "test-eds-library" "Test EDS Library"
    [EdsMapper.mkEDSComponent "eds-button" "Button" "button" "A customizable button component"
       [("variant", choice ["primary"; "secondary"; "outline"]);
        ("size", choice ["sm"; "md"; "lg"]);
        ("disabled", FigmaParser.JBool false);
        ("label", FigmaParser.JStr "Button")];
     EdsMapper.mkEDSComponent "eds-input" "Input" "input" "A text input field component"
       [("placeholder", FigmaParser.JStr "Enter text...");
        ("type", choice ["text"; "password"; "email"; "number"]);
        ("disabled", FigmaParser.JBool false);
        ("required", FigmaParser.JBool false)];
     EdsMapper.mkEDSComponent "eds-card" "Card" "card" "A card container component"
       [("withHeader", FigmaParser.JBool true);
        ("withFooter", FigmaParser.JBool false);
        ("elevation", FigmaParser.JArr [FigmaParser.JNum 0; FigmaParser.JNum 1;
                                        FigmaParser.JNum 2; FigmaParser.JNum 3]);
        ("padding", choice ["none"; "sm"; "md"; "lg"])]].

(** A mapper holding them and a card pattern detected on the third
    component. *)
Definition mockCardPattern : DesignAnalyzer.ComponentPattern :=
  DesignAnalyzer.mkComponentPattern "pattern-3" "card" "component-3" "Card Pattern" (85 # 100)
    [("hasTitle", FigmaParser.JBool true); ("hasContent", FigmaParser.JBool true);
     ("hasShadow", FigmaParser.JBool true)]
    ["component-3"].

Definition mockMapper : EdsMapperPasses.State :=
  EdsMapperPasses.mkState (Some mockLibrary) [mockButton; mockInputField; mockCard] []
    [mockCardPattern] [].

End Examples.

(** * Properties *)

(** ** Edit distance: the recursion computes the least script cost *)

Section EditDistance.

Import Reference.

Lemma levenshtein_nil_r (s : list ascii) : levenshtein s [] = List.length s.
Proof. destruct s; reflexivity. Qed.

Lemma levenshtein_cons (x y : ascii) (s t : list ascii) :
  levenshtein (x :: s) (y :: t) =
  Nat.min (Nat.min (levenshtein s (y :: t) + 1) (levenshtein (x :: s) t + 1))
          (levenshtein s t + (if Ascii.eqb x y then 0 else 1)).
Proof. reflexivity. Qed.

Lemma edits_all_inserted (t : list ascii) : edits [] t (List.length t).
Proof. induction t; simpl; constructor; assumption. Qed.

Lemma edits_all_deleted (s : list ascii) : edits s [] (List.length s).
Proof. induction s; simpl; constructor; assumption. Qed.

Lemma levenshtein_is_script (s t : list ascii) : edits s t (levenshtein s t).
Proof.
  revert t; induction s as [|x s IHs]; intro t.
  - apply edits_all_inserted.
  - induction t as [|y t IHt].
    + rewrite levenshtein_nil_r. apply edits_all_deleted.
    + rewrite levenshtein_cons.
      pose proof (IHs (y :: t)) as Hdel.
      pose proof (IHs t) as Hsub.
      destruct (Nat.min_spec (Nat.min (levenshtein s (y :: t) + 1) (levenshtein (x :: s) t + 1))
                  (levenshtein s t + (if Ascii.eqb x y then 0 else 1))) as [[_ ->]|[_ ->]].
      * destruct (Nat.min_spec (levenshtein s (y :: t) + 1) (levenshtein (x :: s) t + 1))
          as [[_ ->]|[_ ->]]; rewrite Nat.add_1_r; constructor; assumption.
      * destruct (Ascii.eqb_spec x y) as [->|Hne].
        -- rewrite Nat.add_0_r. now constructor.
        -- rewrite Nat.add_1_r. now constructor.
Qed.

Lemma levenshtein_least (s t : list ascii) (n : nat) :
  edits s t n -> levenshtein s t <= n.
Proof.
  induction 1 as [|x s t n _ IH|y s t n _ IH|x y s t n Hne _ IH|x s t n _ IH].
  - reflexivity.
  - destruct t as [|y t].
    + rewrite levenshtein_nil_r in *. simpl. lia.
    + rewrite levenshtein_cons. lia.
  - destruct s as [|x s].
    + simpl in *. lia.
    + rewrite levenshtein_cons. lia.
  - rewrite levenshtein_cons.
    destruct (Ascii.eqb x y); lia.
  - rewrite levenshtein_cons, Ascii.eqb_refl. lia.
Qed.

Lemma levenshtein_isEditDistance (s t : list ascii) :
  isEditDistance s t (levenshtein s t).
Proof.
  split; [apply levenshtein_is_script | intros k; apply levenshtein_least].
Qed.

Lemma edits_append (s t s' t' : list ascii) (n n' : nat) :
  edits s t n -> edits s' t' n' -> edits (s ++ s') (t ++ t') (n + n').
Proof.
  intros H H'; induction H; simpl; try (constructor; assumption); assumption.
Qed.

Lemma edits_reverse (s t : list ascii) (n : nat) :
  edits s t n -> edits (rev s) (rev t) n.
Proof.
  induction 1 as [|x s t n _ IH|y s t n _ IH|x y s t n Hne _ IH|x s t n _ IH]; simpl.
  - constructor.
  - replace (S n) with (n + 1) by lia. rewrite <- (app_nil_r (rev t)).
    apply edits_append; [assumption | repeat constructor].
  - replace (S n) with (n + 1) by lia. rewrite <- (app_nil_r (rev s)).
    apply edits_append; [assumption | repeat constructor].
  - replace (S n) with (n + 1) by lia.
    apply edits_append; [assumption | now repeat constructor].
  - replace n with (n + 0) by lia.
    apply edits_append; [assumption | repeat constructor].
Qed.

Lemma edits_swap (s t : list ascii) (n : nat) : edits s t n -> edits t s n.
Proof.
  induction 1; try (constructor; assumption).
  constructor; [congruence | assumption].
Qed.

Lemma levenshtein_reverse (s t : list ascii) :
  levenshtein (rev s) (rev t) = levenshtein s t.
Proof.
  apply Nat.le_antisymm.
  - apply levenshtein_least, edits_reverse, levenshtein_is_script.
  - rewrite <- (rev_involutive s) at 1. rewrite <- (rev_involutive t) at 1.
    apply levenshtein_least, edits_reverse, levenshtein_is_script.
Qed.

Lemma levenshtein_symmetric (s t : list ascii) :
  levenshtein s t = levenshtein t s.
Proof.
  apply Nat.le_antisymm; apply levenshtein_least, edits_swap, levenshtein_is_script.
Qed.

Lemma edits_longest (s : list ascii) :
  forall t, exists n, edits s t n /\ n <= Nat.max (List.length s) (List.length t).
Proof.
  induction s as [|x s IH]; intro t.
  - exists (List.length t). split; [apply edits_all_inserted | simpl; lia].
  - destruct t as [|y t].
    + exists (List.length (x :: s)). split; [apply edits_all_deleted | simpl; lia].
    + destruct (IH t) as (n & Hn & Hle).
      destruct (Ascii.eqb_spec x y) as [->|Hne].
      * exists n. split; [now constructor | simpl; lia].
      * exists (S n). split; [now constructor | simpl; lia].
Qed.

Lemma levenshtein_le_max (s t : list ascii) :
  levenshtein s t <= Nat.max (List.length s) (List.length t).
Proof.
  destruct (edits_longest s t) as (n & Hn & Hle).
  apply levenshtein_least in Hn. lia.
Qed.

Lemma edits_zero (s t : list ascii) (n : nat) : edits s t n -> n = 0 -> s = t.
Proof.
  induction 1; intro Hn; try discriminate; [reflexivity | f_equal; auto].
Qed.

Lemma levenshtein_zero (s t : list ascii) : levenshtein s t = 0 -> s = t.
Proof.
  intro H. exact (edits_zero _ _ _ (levenshtein_is_script s t) H).
Qed.

End EditDistance.

(** ** The distance matrix is filled with prefix distances *)

Section LoopInvariant.

Context {St : Type}.

Lemma forLoop_step (lo count : nat) (body : nat -> St -> St) (s : St) :
  Js.forLoop lo (S count) body s = Js.forLoop (S lo) count body (body lo s).
Proof. reflexivity. Qed.

(** Invariant rule for a counting loop. *)
Lemma forLoop_invariant (P : nat -> St -> Prop) (body : nat -> St -> St) (count : nat) :
  forall (lo : nat) (s : St),
    P lo s ->
    (forall k st, lo <= k < lo + count -> P k st -> P (S k) (body k st)) ->
    P (lo + count) (Js.forLoop lo count body s).
Proof.
  induction count as [|count IH]; intros lo s Hs Hstep.
  - rewrite Nat.add_0_r. exact Hs.
  - rewrite forLoop_step. replace (lo + S count) with (S lo + count) by lia.
    apply IH.
    + apply Hstep; [lia | assumption].
    + intros k st Hk. apply Hstep. lia.
Qed.

End LoopInvariant.

Section ListUpdate.

Context {A : Type}.

Lemma update_length (l : list A) (k : nat) (v : A) :
  List.length (EdsMapper.update l k v) = List.length l.
Proof.
  revert k; induction l as [|h l IH]; intros [|k]; simpl; auto.
Qed.

Lemma nth_update_same (l : list A) (k : nat) (v d : A) :
  k < List.length l -> nth k (EdsMapper.update l k v) d = v.
Proof.
  revert k; induction l as [|h l IH]; intros [|k] Hk; simpl in *; try lia; auto.
  apply IH. lia.
Qed.

Lemma nth_update_other (l : list A) (k k' : nat) (v d : A) :
  k <> k' -> nth k' (EdsMapper.update l k v) d = nth k' l d.
Proof.
  revert k k'; induction l as [|h l IH]; intros [|k] [|k'] Hne; simpl; auto; try lia.
Qed.

Lemma Forall_update (P : A -> Prop) (l : list A) (k : nat) (v : A) :
  Forall P l -> (k < List.length l -> P v) -> Forall P (EdsMapper.update l k v).
Proof.
  revert k; induction l as [|h l IH]; intros [|k] Hl Hv; simpl; auto.
  - inversion Hl; subst. constructor; [apply Hv; simpl; lia | assumption].
  - inversion Hl; subst. constructor; [assumption |].
    apply IH; [assumption | intro; apply Hv; simpl; lia].
Qed.

End ListUpdate.

Section MatrixFill.

Import EdsMapper Invariant.

Lemma shaped_row (rows cols : nat) (d : matrix) (i : nat) :
  shaped rows cols d -> i < rows -> List.length (nth i d []) = cols.
Proof.
  intros [Hlen Hall] Hi. rewrite Forall_forall in Hall.
  apply Hall, nth_In. lia.
Qed.

Lemma shaped_initial (rows cols : nat) :
  shaped rows cols (repeat (repeat 0 cols) rows).
Proof.
  split; [apply repeat_length |].
  apply Forall_forall. intros r Hr. apply repeat_spec in Hr. subst.
  apply repeat_length.
Qed.

Lemma shaped_mset (rows cols : nat) (d : matrix) (i j v : nat) :
  shaped rows cols d -> shaped rows cols (mset d i j v).
Proof.
  intros Hd. pose proof Hd as [Hlen Hall]. unfold mset. split.
  - now rewrite update_length.
  - apply Forall_update; [assumption |].
    intro Hi. rewrite update_length. apply (shaped_row rows cols); [assumption | lia].
Qed.

Lemma mget_mset_same (rows cols : nat) (d : matrix) (i j v : nat) :
  shaped rows cols d -> i < rows -> j < cols -> mget (mset d i j v) i j = v.
Proof.
  intros Hd Hi Hj. pose proof Hd as [Hlen _]. unfold mget, mset.
  rewrite nth_update_same by lia.
  apply nth_update_same. rewrite (shaped_row rows cols); assumption.
Qed.

Lemma mget_mset_other (rows cols : nat) (d : matrix) (i j v i' j' : nat) :
  shaped rows cols d -> i < rows -> (i <> i' \/ j <> j') ->
  mget (mset d i j v) i' j' = mget d i' j'.
Proof.
  intros Hd Hi Hne. pose proof Hd as [Hlen _]. unfold mget, mset.
  destruct (Nat.eq_dec i i') as [<-|Hii].
  - rewrite nth_update_same by lia.
    apply nth_update_other. destruct Hne; [contradiction | assumption].
  - now rewrite nth_update_other.
Qed.

End MatrixFill.

Section StringsAsLists.

Lemma get_nth_error (s : string) :
  forall i, String.get i s = nth_error (list_ascii_of_string s) i.
Proof.
  induction s as [|c s IH]; intros [|i]; simpl; auto.
Qed.

Lemma length_list_ascii (s : string) :
  List.length (list_ascii_of_string s) = String.length s.
Proof. induction s; simpl; auto. Qed.

Lemma firstn_snoc {A : Type} (l : list A) :
  forall i x, nth_error l i = Some x -> firstn (S i) l = firstn i l ++ [x].
Proof.
  induction l as [|h l IH]; intros [|i] x H; simpl in *; try discriminate.
  - now inversion H.
  - f_equal. now apply IH.
Qed.

End StringsAsLists.

Section PrefixDistance.

Import EdsMapper Reference Invariant.

Variables l1 l2 : list ascii.

Lemma prefixDistance_col0 (i : nat) :
  i <= List.length l1 -> prefixDistance l1 l2 i 0 = i.
Proof.
  intro Hi. unfold prefixDistance. simpl.
  rewrite levenshtein_nil_r, length_rev, length_firstn. lia.
Qed.

Lemma prefixDistance_row0 (j : nat) :
  j <= List.length l2 -> prefixDistance l1 l2 0 j = j.
Proof.
  intro Hj. unfold prefixDistance. simpl.
  rewrite length_rev, length_firstn. lia.
Qed.

Lemma prefixDistance_step (i j : nat) (x y : ascii) :
  nth_error l1 i = Some x -> nth_error l2 j = Some y ->
  prefixDistance l1 l2 (S i) (S j) =
  min3 (prefixDistance l1 l2 i (S j) + 1) (prefixDistance l1 l2 (S i) j + 1)
       (prefixDistance l1 l2 i j + (if Ascii.eqb x y then 0 else 1)).
Proof.
  intros Hx Hy. unfold prefixDistance, min3.
  rewrite (firstn_snoc l1 i x Hx), (firstn_snoc l2 j y Hy).
  rewrite !rev_unit. apply levenshtein_cons.
Qed.

End PrefixDistance.

Section FillLoops.

Import EdsMapper Reference Invariant.

Variables s1 s2 : string.

Let l1 := list_ascii_of_string s1.
Let l2 := list_ascii_of_string s2.
Let m := String.length s1.
Let n := String.length s2.
Let D := prefixDistance l1 l2.

Lemma fillCell_correct (j i : nat) (d : matrix) :
  1 <= j <= n -> 1 <= i <= m ->
  filledUpTo s1 s2 j i d -> filledUpTo s1 s2 j (S i) (fillCell s1 s2 j i d).
Proof.
  intros Hj Hi (Hshape & Hleft & Hrow0 & Hcol).
  assert (Hcell : mget (fillCell s1 s2 j i d) i j = D i j).
  { unfold fillCell. rewrite (mget_mset_same (m + 1) (n + 1)) by (assumption || lia).
    destruct i as [|i]; [lia|]. destruct j as [|j]; [lia|].
    simpl Nat.sub. rewrite !Nat.sub_0_r.
    rewrite !get_nth_error. fold l1 l2.
    destruct (nth_error l1 i) as [x|] eqn:Hx.
    2:{ apply nth_error_None in Hx. unfold l1 in Hx. rewrite length_list_ascii in Hx.
        fold m in Hx. lia. }
    destruct (nth_error l2 j) as [y|] eqn:Hy.
    2:{ apply nth_error_None in Hy. unfold l2 in Hy. rewrite length_list_ascii in Hy.
        fold n in Hy. lia. }
    unfold D. rewrite (prefixDistance_step l1 l2 i j x y Hx Hy). simpl sameChar.
    fold D. rewrite (Hcol i) by lia. rewrite (Hleft (S i) j) by lia.
    rewrite (Hleft i j) by lia. reflexivity. }
  refine (conj _ (conj _ (conj _ _))).
  - apply shaped_mset, Hshape.
  - intros i' j' Hi' Hj'. unfold fillCell.
    rewrite (mget_mset_other (m + 1) (n + 1)) by (assumption || lia). now apply Hleft.
  - intros j' Hj'. unfold fillCell.
    rewrite (mget_mset_other (m + 1) (n + 1)) by (assumption || lia). now apply Hrow0.
  - intros i' Hi'. destruct (Nat.eq_dec i' i) as [->|Hne]; [exact Hcell|].
    unfold fillCell.
    rewrite (mget_mset_other (m + 1) (n + 1)) by (assumption || lia). apply Hcol. lia.
Qed.

Lemma fill_column (j : nat) (d : matrix) :
  1 <= j <= n ->
  filledUpTo s1 s2 j 1 d -> filledUpTo s1 s2 j (1 + m) (Js.forLoop 1 m (fillCell s1 s2 j) d).
Proof.
  intros Hj Hd.
  apply (forLoop_invariant (filledUpTo s1 s2 j) (fillCell s1 s2 j) m 1 d Hd).
  intros k st Hk. apply fillCell_correct; [assumption | lia].
Qed.

Lemma init_first_column (d : matrix) :
  shaped (m + 1) (n + 1) d ->
  let d' := Js.forLoop 0 (m + 1) (fun i d => mset d i 0 i) d in
  shaped (m + 1) (n + 1) d' /\ forall i, i <= m -> mget d' i 0 = i.
Proof.
  intros Hd d'.
  assert (H : shaped (m + 1) (n + 1) d' /\ forall i, i < 0 + (m + 1) -> mget d' i 0 = i).
  { apply (forLoop_invariant
             (fun k d => shaped (m + 1) (n + 1) d /\ forall i, i < k -> mget d i 0 = i)).
    - split; [assumption | intros; lia].
    - intros k st Hk [Hs Hc]. split; [now apply shaped_mset |].
      intros i Hi. destruct (Nat.eq_dec i k) as [->|Hne].
      + apply (mget_mset_same (m + 1) (n + 1)); (assumption || lia).
      + rewrite (mget_mset_other (m + 1) (n + 1)) by (assumption || lia). apply Hc. lia. }
  destruct H as [Hs Hc]. split; [assumption | intros; apply Hc; lia].
Qed.

Lemma init_first_row (d : matrix) :
  shaped (m + 1) (n + 1) d -> (forall i, i <= m -> mget d i 0 = i) ->
  let d' := Js.forLoop 0 (n + 1) (fun j d => mset d 0 j j) d in
  shaped (m + 1) (n + 1) d' /\ (forall i, i <= m -> mget d' i 0 = i) /\
  forall j, j <= n -> mget d' 0 j = j.
Proof.
  intros Hd Hcol d'.
  assert (H : shaped (m + 1) (n + 1) d' /\ (forall i, i <= m -> mget d' i 0 = i) /\
              forall j, j < 0 + (n + 1) -> mget d' 0 j = j).
  { apply (forLoop_invariant
             (fun k d => shaped (m + 1) (n + 1) d /\ (forall i, i <= m -> mget d i 0 = i) /\
                         forall j, j < k -> mget d 0 j = j)).
    - repeat split; try apply Hd; [assumption | intros; lia].
    - intros k st Hk (Hs & Hc & Hr). split; [now apply shaped_mset | split].
      + intros i Hi. destruct (Nat.eq_dec i 0) as [->|Hi0].
        * destruct (Nat.eq_dec k 0) as [->|Hk0].
          -- apply (mget_mset_same (m + 1) (n + 1)); (assumption || lia).
          -- rewrite (mget_mset_other (m + 1) (n + 1)) by (assumption || lia).
             apply Hc. lia.
        * rewrite (mget_mset_other (m + 1) (n + 1)) by (assumption || lia). now apply Hc.
      + intros j Hj. destruct (Nat.eq_dec j k) as [->|Hne].
        * apply (mget_mset_same (m + 1) (n + 1)); (assumption || lia).
        * rewrite (mget_mset_other (m + 1) (n + 1)) by (assumption || lia).
          apply Hr. lia. }
  destruct H as (Hs & Hc & Hr). repeat split; try apply Hs; [assumption |].
  intros; apply Hr; lia.
Qed.

Lemma fill_all_columns (d : matrix) :
  shaped (m + 1) (n + 1) d ->
  (forall i, i <= m -> mget d i 0 = i) -> (forall j, j <= n -> mget d 0 j = j) ->
  let d' := Js.forLoop 1 n (fun j d => Js.forLoop 1 m (fillCell s1 s2 j) d) d in
  forall i j, i <= m -> j <= n -> mget d' i j = D i j.
Proof.
  intros Hd Hcol Hrow d'.
  assert (Hlen1 : List.length l1 = m) by apply length_list_ascii.
  assert (Hlen2 : List.length l2 = n) by apply length_list_ascii.
  assert (H : shaped (m + 1) (n + 1) d' /\
              (forall i' j', i' <= m -> j' < 1 + n -> mget d' i' j' = D i' j') /\
              (forall j', j' <= n -> mget d' 0 j' = D 0 j')).
  { apply (forLoop_invariant
             (fun j d => shaped (m + 1) (n + 1) d /\
                         (forall i' j', i' <= m -> j' < j -> mget d i' j' = D i' j') /\
                         (forall j', j' <= n -> mget d 0 j' = D 0 j'))).
    - split; [assumption | split].
      + intros i' j' Hi' Hj'. assert (j' = 0) as -> by lia.
        unfold D. rewrite prefixDistance_col0 by lia. now apply Hcol.
      + intros j' Hj'. unfold D. rewrite prefixDistance_row0 by lia. now apply Hrow.
    - intros j st Hj (Hs & Hleft & Hrow0).
      assert (Hstart : filledUpTo s1 s2 j 1 st).
      { refine (conj Hs (conj Hleft (conj Hrow0 _))).
        intros i' Hi'. assert (i' = 0) as -> by lia. apply Hrow0. lia. }
      destruct (fill_column j st ltac:(lia) Hstart) as (Hs' & Hleft' & Hrow0' & Hcol').
      split; [assumption | split; [|assumption]].
      intros i' j' Hi' Hj'. destruct (Nat.eq_dec j' j) as [->|Hne].
      + apply Hcol'. lia.
      + apply Hleft'; lia. }
  destruct H as (_ & Hall & _). intros i j Hi Hj. apply Hall; lia.
Qed.

(** The matrix code returns the edit distance of its two arguments. *)
Lemma levenshteinDistance_levenshtein :
  levenshteinDistance s1 s2 = levenshtein l1 l2.
Proof.
  unfold levenshteinDistance. fold m n.
  destruct (init_first_column _ (shaped_initial (m + 1) (n + 1))) as [Hs1 Hc1].
  destruct (init_first_row _ Hs1 Hc1) as (Hs2 & Hc2 & Hr2).
  rewrite (fill_all_columns _ Hs2 Hc2 Hr2 m n) by lia.
  unfold D, prefixDistance.
  rewrite !firstn_all2 by (unfold l1, l2; rewrite length_list_ascii; reflexivity).
  apply levenshtein_reverse.
Qed.

End FillLoops.

(** ** Name similarity *)

Section NameSimilarity.

Import EdsMapper Reference.

Lemma lowered_alnum (c : ascii) :
  Js.isLowerAlnum (Js.toLowerCaseChar c) = Js.isAlnum (Js.toLowerCaseChar c).
Proof.
  destruct c as [[] [] [] [] [] [] [] []]; reflexivity.
Qed.

Lemma cleanName_normalize (s : string) : cleanName s = normalize s.
Proof.
  unfold cleanName, normalize. induction s as [|c s IH]; simpl; [reflexivity|].
  rewrite lowered_alnum. destruct (Js.isAlnum (Js.toLowerCaseChar c)); simpl; now rewrite IH.
Qed.

Lemma prefix_append (p s : string) :
  String.prefix p s = true <-> exists post, s = (p ++ post)%string.
Proof.
  revert s. induction p as [|a p IH]; intro s; simpl.
  - split; [intros _; now exists s | destruct s; reflexivity].
  - destruct s as [|b s]; [split; [discriminate | intros [post H]; discriminate]|].
    simpl. destruct (Ascii.ascii_dec a b) as [->|Hne].
    + rewrite IH. split; intros [post H]; exists post; [now rewrite H | now inversion H].
    + split; [discriminate | intros [post H]; inversion H; subst; now destruct Hne].
Qed.

(** [includes] decides whether one string occurs inside the other. *)
Lemma includes_occurs (s sub : string) :
  Js.includes s sub = true <-> exists pre post, s = (pre ++ sub ++ post)%string.
Proof.
  induction s as [|c s IH]; cbn [Js.includes].
  - rewrite orb_false_r, prefix_append. split.
    + intros [post H]. now exists EmptyString, post.
    + intros (pre & post & H). destruct pre; [now exists post | discriminate].
  - rewrite orb_true_iff, IH, prefix_append. split.
    + intros [[post H]|(pre & post & H)].
      * now exists EmptyString, post.
      * exists (String c pre), post. simpl. now rewrite H.
    + intros (pre & post & H). destruct pre as [|a pre].
      * left. now exists post.
      * right. exists pre, post. simpl in H. now inversion H.
Qed.

Lemma truthyString_eqb (s : string) :
  negb (Js.truthyString s) = String.eqb s EmptyString.
Proof. unfold Js.truthyString. apply negb_involutive. Qed.

Lemma string_length_zero (s : string) : String.length s = 0 -> s = EmptyString.
Proof. destruct s; [reflexivity | discriminate]. Qed.

Lemma max_length_positive (s t : string) :
  String.eqb s EmptyString = false -> 0 < Nat.max (String.length s) (String.length t).
Proof.
  intro H. apply String.eqb_neq in H.
  pose proof (Nat.le_max_l (String.length s) (String.length t)).
  destruct s; [contradiction | cbn [String.length] in *; lia].
Qed.

Lemma levenshteinDistance_le_max (s t : string) :
  levenshteinDistance s t <= Nat.max (String.length s) (String.length t).
Proof.
  rewrite levenshteinDistance_levenshtein, <- !length_list_ascii.
  apply levenshtein_le_max.
Qed.

Lemma levenshteinDistance_symmetric (s t : string) :
  levenshteinDistance s t = levenshteinDistance t s.
Proof.
  rewrite !levenshteinDistance_levenshtein. apply levenshtein_symmetric.
Qed.

Lemma pos_of_nat (m : nat) : 0 < m -> Z.pos (Pos.of_nat m) = Z.of_nat m.
Proof.
  intro H. rewrite <- (Nat2Pos.id m) at 2 by lia. now rewrite positive_nat_Z.
Qed.

Lemma ratio_as_division (d m : nat) :
  0 < m ->
  (Z.of_nat d # Pos.of_nat m == inject_Z (Z.of_nat d) / inject_Z (Z.of_nat m))%Q.
Proof.
  intro Hm. rewrite <- (pos_of_nat m Hm).
  unfold Qeq, Qdiv, Qmult, Qinv, inject_Z. cbn [Qnum Qden]. lia.
Qed.

Lemma one_minus_ratio_bounds (d m : nat) :
  d <= m -> 0 < m ->
  (0 <= 1 - (Z.of_nat d # Pos.of_nat m))%Q /\ (1 - (Z.of_nat d # Pos.of_nat m) <= 1)%Q.
Proof.
  intros Hd Hm. pose proof (pos_of_nat m Hm) as Hp.
  unfold Qle, Qminus, Qplus, Qopp. cbn [Qnum Qden].
  rewrite ?Pos2Z.inj_mul, ?Hp. split; nia.
Qed.

Lemma similarity_unfold (a b : string) :
  calculateNameSimilarity a b =
  if String.eqb (cleanName a) EmptyString || String.eqb (cleanName b) EmptyString then 0%Q
  else if String.eqb (cleanName a) (cleanName b) then 1%Q
  else if Js.includes (cleanName a) (cleanName b) || Js.includes (cleanName b) (cleanName a)
       then (9 # 10)%Q
  else (1 - (Z.of_nat (levenshteinDistance (cleanName a) (cleanName b))
             # Pos.of_nat (Nat.max (String.length (cleanName a))
                                   (String.length (cleanName b)))))%Q.
Proof.
  unfold calculateNameSimilarity. now rewrite !truthyString_eqb.
Qed.

Lemma similarity_guarded (a b : string) :
  (calculateNameSimilarity a b == guardedSimilarity a b)%Q.
Proof.
  rewrite similarity_unfold.
  unfold guardedSimilarity, specifiedSimilarity, similarityOfNormalized, distanceRatio.
  rewrite <- !cleanName_normalize.
  destruct (String.eqb (cleanName a) EmptyString) eqn:Ha; [reflexivity|].
  destruct (String.eqb (cleanName b) EmptyString) eqn:Hb; [reflexivity|]. simpl orb.
  destruct (String.eqb (cleanName a) (cleanName b)); [reflexivity|].
  destruct (Js.includes (cleanName a) (cleanName b) || Js.includes (cleanName b) (cleanName a));
    [reflexivity|].
  rewrite levenshteinDistance_levenshtein.
  rewrite ratio_as_division; [reflexivity|].
  now apply max_length_positive.
Qed.

Lemma similarity_range (a b : string) :
  (0 <= calculateNameSimilarity a b)%Q /\ (calculateNameSimilarity a b <= 1)%Q.
Proof.
  rewrite similarity_unfold.
  destruct (String.eqb (cleanName a) EmptyString) eqn:Ha; [split; discriminate|].
  destruct (String.eqb (cleanName b) EmptyString) eqn:Hb; [split; discriminate|]. simpl orb.
  destruct (String.eqb (cleanName a) (cleanName b)); [split; discriminate|].
  destruct (Js.includes (cleanName a) (cleanName b) || Js.includes (cleanName b) (cleanName a));
    [split; discriminate|].
  apply one_minus_ratio_bounds; [apply levenshteinDistance_le_max|].
  now apply max_length_positive.
Qed.

Lemma similarity_symmetric (a b : string) :
  calculateNameSimilarity a b = calculateNameSimilarity b a.
Proof.
  rewrite !similarity_unfold.
  rewrite (orb_comm (String.eqb (cleanName a) EmptyString)).
  rewrite (String.eqb_sym (cleanName a) (cleanName b)).
  rewrite (orb_comm (Js.includes (cleanName a) (cleanName b))).
  rewrite (levenshteinDistance_symmetric (cleanName a) (cleanName b)).
  rewrite (Nat.max_comm (String.length (cleanName a))).
  reflexivity.
Qed.

End NameSimilarity.

Section SimilarityClaims.

Import EdsMapper Reference.

(** C1, as stated, fails: for the empty name and ["button"] the stated
    rules give 0.9 (the second name contains the empty first one), the
    code gives 0. *)
Lemma name_similarity_empty_counterexample :
  (specifiedSimilarity EmptyString "button" == 9 # 10)%Q /\
  (calculateNameSimilarity EmptyString "button" == 0)%Q /\
  ~ (calculateNameSimilarity EmptyString "button" == specifiedSimilarity EmptyString "button")%Q.
Proof.
  split; [reflexivity | split; [reflexivity|]].
  intro H. vm_compute in H. discriminate.
Qed.

(** C1 (amended). For all names [a] and [b], [calculateNameSimilarity]
    returns 0 when either name is empty once normalised (lowercased, then
    stripped of everything but letters and digits); otherwise 1 when the
    normalised names are equal, 0.9 when one contains the other, and else
    1 - distance / max length, where the distance is the classic edit
    distance: the least number of single-character insertions, deletions
    and substitutions that turn one normalised name into the other, and
    containment is occurrence as a substring. *)
Theorem name_similarity_algorithm :
  (forall a b : string, (calculateNameSimilarity a b == guardedSimilarity a b)%Q) /\
  (forall s t : string,
      isEditDistance (list_ascii_of_string s) (list_ascii_of_string t)
                     (levenshteinDistance s t)) /\
  (forall s t : string,
      levenshtein (list_ascii_of_string s) (list_ascii_of_string t)
      = levenshteinDistance s t) /\
  (forall s sub : string,
      Js.includes s sub = true <-> exists pre post, s = (pre ++ sub ++ post)%string).
Proof.
  split; [|split; [|split]].
  - apply similarity_guarded.
  - intros s t. rewrite levenshteinDistance_levenshtein. apply levenshtein_isEditDistance.
  - intros s t. now rewrite levenshteinDistance_levenshtein.
  - apply includes_occurs.
Qed.

(** C7, as stated, fails: ["-"] is a non-empty name whose similarity to
    itself is 0. *)
Lemma name_similarity_reflexive_counterexample :
  "-"%string <> EmptyString /\
  (calculateNameSimilarity "-" "-" == 0)%Q /\
  ~ (calculateNameSimilarity "-" "-" == 1)%Q.
Proof.
  split; [discriminate | split; [reflexivity|]].
  intro H. vm_compute in H. discriminate.
Qed.

(** C7 (amended). The similarity of a name to itself is 1 whenever the
    name keeps at least one letter or digit when normalised; similarity
    is symmetric; and the similarity of the empty name to any name is 0. *)
Theorem name_similarity_properties :
  (forall a : string, cleanName a <> EmptyString -> (calculateNameSimilarity a a == 1)%Q) /\
  (forall a b : string, (calculateNameSimilarity a b == calculateNameSimilarity b a)%Q) /\
  (forall x : string, (calculateNameSimilarity EmptyString x == 0)%Q).
Proof.
  split; [|split].
  - intros a Ha. rewrite similarity_unfold.
    apply String.eqb_neq in Ha. rewrite Ha, String.eqb_refl. reflexivity.
  - intros a b. rewrite (similarity_symmetric a b). reflexivity.
  - intro x. rewrite similarity_unfold. reflexivity.
Qed.

Lemma name_similarity_properties_witness :
  cleanName "Primary Button" <> EmptyString /\
  (calculateNameSimilarity "Primary Button" "Primary Button" == 1)%Q.
Proof.
  split.
  - vm_compute. discriminate.
  - apply (proj1 name_similarity_properties). vm_compute. discriminate.
Defined.

Lemma sortBy_In {A : Type} (before : A -> A -> bool) (l : list A) (x : A) :
  In x (Js.sortBy before l) -> In x l.
Proof.
  assert (Hins : forall y l', In x (Js.insertSorted before y l') -> x = y \/ In x l').
  { intros y l'. induction l' as [|z l' IH]; simpl.
    - intros [<-|[]]. now left.
    - destruct (before y z); simpl.
      + intros [<-|[<-|H]]; auto.
      + intros [<-|H]; auto. destruct (IH H); auto. }
  induction l as [|y l IH]; simpl; [tauto|].
  intro H. destruct (Hins _ _ H) as [->|H']; auto.
Qed.

Lemma mapByName_confidence (library : EDSLibrary) (mappings : list ComponentMapping)
    (figma : FigmaParser.FigmaComponent) (m : ComponentMapping) :
  In m (mapByName library mappings figma) ->
  In m mappings \/
  (confidence m = calculateNameSimilarity (FigmaParser.componentName (figmaComponent m))
                                          (edsName (edsComponent m)) /\
   patternType m = "unknown"%string).
Proof.
  unfold mapByName.
  destruct (Js.sortBy bySimilarity _) as [|[eds sim] rest] eqn:Hsort; [now left|].
  destruct (Qgtb sim (6 # 10)); [|now left].
  intro H. apply in_app_or in H. destruct H as [H|[<-|[]]]; [now left|].
  right. simpl. split; [|reflexivity].
  assert (Hin : In (eds, sim) (Js.sortBy bySimilarity
            (map (fun eds0 => (eds0, calculateNameSimilarity (FigmaParser.componentName figma) (edsName eds0)))
                 (libraryComponents library)))).
  { rewrite Hsort. now left. }
  apply sortBy_In, in_map_iff in Hin. destruct Hin as (e & He & _).
  now inversion He.
Qed.

(** C10. For all names the similarity lies in [0, 1], the matrix code
    never returns a distance above the length of the longer string, and
    every mapping added by the fallback pass carries as its confidence the
    similarity of the two names it binds, hence a number in [0, 1]. *)
Theorem name_similarity_in_unit_interval :
  (forall a b : string,
      (0 <= calculateNameSimilarity a b)%Q /\ (calculateNameSimilarity a b <= 1)%Q) /\
  (forall s t : string,
      levenshteinDistance s t <= Nat.max (String.length s) (String.length t)) /\
  (forall (library : EDSLibrary) (figmaComponents : list FigmaParser.FigmaComponent)
          (mappings : list ComponentMapping) (m : ComponentMapping),
      In m (mapComponentsBasedOnNameAndProperties library figmaComponents mappings) ->
      In m mappings \/
      (confidence m = calculateNameSimilarity
                        (FigmaParser.componentName (figmaComponent m))
                        (edsName (edsComponent m)) /\
       (0 <= confidence m)%Q /\ (confidence m <= 1)%Q)).
Proof.
  split; [apply similarity_range | split; [apply levenshteinDistance_le_max|]].
  intros library figmaComponents mappings m. unfold mapComponentsBasedOnNameAndProperties.
  generalize (filter (fun component =>
     negb (existsb (fun mapping =>
        String.eqb (FigmaParser.componentId (figmaComponent mapping))
                   (FigmaParser.componentId component)) mappings)) figmaComponents).
  intro unmapped. revert mappings.
  induction unmapped as [|figma unmapped IH]; intros mappings H; simpl in H; [now left|].
  destruct (IH _ H) as [Hin|Hnew]; [|now right].
  destruct (mapByName_confidence _ _ _ _ Hin) as [Hold|[Hc _]]; [now left|].
  right. split; [assumption|]. rewrite Hc. apply similarity_range.
Qed.

Lemma name_similarity_in_unit_interval_witness :
  (0 <= calculateNameSimilarity "Primary Button" "btn-primary")%Q /\
  (calculateNameSimilarity "Primary Button" "btn-primary" <= 1)%Q.
Proof.
  exact (proj1 name_similarity_in_unit_interval "Primary Button"%string "btn-primary"%string).
Defined.

End SimilarityClaims.

(** ** Flattening the node tree *)

Section Flatten.

Import FigmaParser Reference Invariant.

Lemma fold_left_append {A B : Type} (f : A -> list B) (step : list B -> A -> list B)
    (l : list A) :
  (forall acc x, In x l -> step acc x = acc ++ f x) ->
  forall acc, fold_left step l acc = acc ++ flat_map f l.
Proof.
  induction l as [|x l IH]; intros Hstep acc; simpl.
  - now rewrite app_nil_r.
  - rewrite Hstep by now left. rewrite IH by (intros; apply Hstep; now right).
    now rewrite app_assoc.
Qed.

Lemma flat_map_through_map {A B C : Type} (g : A -> B) (f : B -> list C) (l : list A) :
  flat_map (fun x => f (g x)) l = flat_map f (map g l).
Proof. induction l as [|x l IH]; simpl; [reflexivity | now rewrite IH]. Qed.

(** The accumulator version appends exactly the entries of the tree. *)
Lemma traverseNodes_entries (node : RawNode) :
  forall parent depth acc,
    traverseNodes node parent depth acc = acc ++ entries node parent depth.
Proof.
  induction node as [i n t p kids IH] using RawNode_induction.
  intros parent depth acc. destruct kids as [cs|]; simpl; [|reflexivity].
  specialize (IH cs eq_refl). rewrite Forall_forall in IH.
  rewrite (fold_left_append (fun child => entries child (Some i) (depth + 1))).
  - now rewrite <- app_assoc.
  - intros acc' x Hx. now apply IH.
Qed.

Lemma entries_length (node : RawNode) :
  forall parent depth, List.length (entries node parent depth) = countNodes node.
Proof.
  induction node as [i n t p kids IH] using RawNode_induction.
  intros parent depth. destruct kids as [cs|]; simpl; [|reflexivity]. f_equal.
  specialize (IH cs eq_refl). generalize (Some i) (depth + 1). intros q d.
  induction cs as [|c cs IHcs]; simpl; [reflexivity|].
  inversion IH; subst. rewrite length_app. f_equal; auto.
Qed.

Lemma entries_labels (node : RawNode) :
  forall parent depth,
    map entryLabel (entries node parent depth) = map nodeLabel (preorder node).
Proof.
  induction node as [i n t p kids IH] using RawNode_induction.
  intros parent depth. destruct kids as [cs|]; simpl; [|reflexivity]. f_equal.
  specialize (IH cs eq_refl). generalize (Some i) (depth + 1). intros q d.
  induction cs as [|c cs IHcs]; simpl; [reflexivity|].
  inversion IH; subst. rewrite !map_app. f_equal; auto.
Qed.

Lemma entries_head (node : RawNode) (parent : option string) (depth : nat) :
  exists e rest,
    entries node parent depth = e :: rest /\
    id e = rawId node /\ parentId e = parent /\ FigmaParser.depth e = depth /\
    children e = match rawChildren node with
                 | Some cs => map rawId cs
                 | None => []
                 end.
Proof.
  destruct node as [i n t p kids]. simpl. eexists. eexists.
  split; [reflexivity|]. simpl. auto.
Qed.

(** An element of a concatenation of blocks lies in one of the blocks. *)
Lemma flat_map_split {A B : Type} (f : A -> list B) (l : list A) :
  forall before (e : B) after,
    flat_map f l = before ++ e :: after ->
    exists l1 x l2 b1 b2,
      l = l1 ++ x :: l2 /\ f x = b1 ++ e :: b2 /\
      before = flat_map f l1 ++ b1 /\ after = b2 ++ flat_map f l2.
Proof.
  induction l as [|x l IH]; intros before e after H; simpl in H.
  - destruct before; discriminate.
  - apply app_eq_app in H. destruct H as [mid [[Hfx Hrest]|[Hbefore Hrest]]].
    + destruct mid as [|m mid].
      * rewrite app_nil_r in Hfx. simpl in Hrest.
        destruct (IH [] e after (eq_sym Hrest)) as (l1 & y & l2 & b1 & b2 & Hl & Hy & Hb & Ha).
        exists (x :: l1), y, l2, b1, b2. subst l. repeat split; auto.
        simpl. rewrite <- app_assoc, <- Hb, app_nil_r. now rewrite Hfx.
      * simpl in Hrest. inversion Hrest; subst m.
        exists [], x, l, before, mid. repeat split; auto.
    + destruct (IH mid e after Hrest) as (l1 & y & l2 & b1 & b2 & Hl & Hy & Hb & Ha).
      exists (x :: l1), y, l2, b1, b2. subst l. repeat split; auto.
      simpl. rewrite <- app_assoc, <- Hb. exact Hbefore.
Qed.

Lemma hasParentAmong_extend (front before : list FigmaNode) (e : FigmaNode) :
  hasParentAmong before e -> hasParentAmong (front ++ before) e.
Proof.
  intros (a & q & b & -> & H). exists (front ++ a), q, b.
  split; [now rewrite <- app_assoc | exact H].
Qed.

Lemma entries_linked (node : RawNode) :
  forall parent depth, linked (entries node parent depth).
Proof.
  induction node as [i n t p kids IH] using RawNode_induction.
  intros parent depth before e after Hsplit Hne.
  destruct before as [|first before]; [contradiction|].
  simpl in Hsplit. inversion Hsplit as [[Hfirst Hrest]]. clear Hsplit.
  destruct kids as [cs|]; [|destruct before; discriminate].
  specialize (IH cs eq_refl). rewrite Forall_forall in IH.
  destruct (flat_map_split _ _ _ _ _ Hrest) as (l1 & c & l2 & b1 & b2 & Hcs & Hc & Hb & _).
  assert (Hin : In c cs) by (rewrite Hcs; apply in_elt).
  destruct b1 as [|b b1].
  - (* [e] heads the block of the child [c] *)
    destruct (entries_head c (Some i) (depth + 1)) as (e' & rest & He' & Hid & Hp & Hd & _).
    rewrite He' in Hc. simpl in Hc. inversion Hc; subst e'.
    exists [], first, before. subst first. simpl. repeat split; auto.
    rewrite Hid. apply in_map. exact Hin.
  - (* [e] lies deeper in the block of [c] *)
    assert (Hlink : hasParentAmong (b :: b1) e).
    { apply (IH c Hin (Some i) (depth + 1) (b :: b1) e b2 Hc). discriminate. }
    rewrite Hb, app_comm_cons. now apply hasParentAmong_extend.
Qed.

Lemma entries_below_parent (node : RawNode) :
  forall q depth, Forall (fun e => isRootEntry e = false) (entries node (Some q) depth).
Proof.
  induction node as [i n t p kids IH] using RawNode_induction.
  intros q depth. simpl. constructor; [reflexivity|].
  destruct kids as [cs|]; [|constructor].
  specialize (IH cs eq_refl). rewrite Forall_forall in IH.
  apply Forall_forall. intros e He. apply in_flat_map in He.
  destruct He as (c & Hc & He).
  pose proof (IH c Hc i (depth + 1)) as Hall. rewrite Forall_forall in Hall. now apply Hall.
Qed.

Lemma entries_one_root (node : RawNode) (depth : nat) :
  List.length (filter isRootEntry (entries node None depth)) = 1.
Proof.
  destruct node as [i n t p kids]. simpl. f_equal.
  destruct kids as [cs|]; [|reflexivity].
  induction cs as [|c cs IH]; simpl; [reflexivity|].
  rewrite filter_app, length_app, IH, Nat.add_0_r.
  pose proof (entries_below_parent c i (depth + 1)) as Hall.
  induction Hall as [|e l He _ IHl]; simpl; [reflexivity|]. now rewrite He.
Qed.

(** C4. [flattenNodes] replaces the node list by one entry per node of the
    page trees: as many entries as nodes; the entries are the nodes in
    parent-before-children, left-to-right order; an entry with no parent
    id is at depth 0 and any other has, earlier in the list, the entry of
    its parent, whose id is its [parentId], whose depth is one less and
    which lists it as a child; and the entries with no parent id are as
    many as the pages. *)
Theorem flatten_complete :
  forall (tree : FigmaDesign) (old : list FigmaNode) (styles : StyleTable)
         (comps : list FigmaComponent),
  exists flat : list FigmaNode,
    flattenNodes (mkState (Some tree) old styles comps)
      = (inr tt, mkState (Some tree) flat styles comps) /\
    List.length flat = list_sum (map countNodes (map pageAsNode (pages tree))) /\
    map entryLabel flat = map nodeLabel (flat_map preorder (map pageAsNode (pages tree))) /\
    (forall before e after,
        flat = before ++ e :: after ->
        match parentId e with
        | None => depth e = 0
        | Some _ => hasParentAmong before e
        end) /\
    List.length (filter isRootEntry flat) = List.length (pages tree).
Proof.
  intros tree old styles comps.
  exists (flat_map (fun root => entries root None 0) (map pageAsNode (pages tree))).
  split; [|rewrite <- (length_map pageAsNode (pages tree));
           generalize (map pageAsNode (pages tree)); intro roots;
           split; [|split; [|split]]].
  - unfold flattenNodes. cbn [designTree extractedStyles components].
    rewrite (fold_left_append (fun page => entries (pageAsNode page) None 0)).
    + now rewrite (flat_map_through_map pageAsNode (fun root => entries root None 0)).
    + intros acc page _. apply traverseNodes_entries.
  - induction roots as [|root roots IH]; cbn [flat_map map list_sum fold_right];
      [reflexivity|].
    now rewrite length_app, entries_length, IH.
  - induction roots as [|root roots IH]; cbn [flat_map map]; [reflexivity|].
    now rewrite !map_app, entries_labels, IH.
  - intros before e after Hsplit.
    destruct (flat_map_split _ _ _ _ _ Hsplit) as (l1 & root & l2 & b1 & b2 & _ & Hb & Hbefore & _).
    destruct b1 as [|b b1].
    + destruct (entries_head root None 0) as (e' & rest & He' & _ & Hp & Hd & _).
      rewrite He' in Hb. simpl in Hb. inversion Hb; subst e'. now rewrite Hp.
    + assert (Hlink : hasParentAmong (b :: b1) e).
      { apply (entries_linked root None 0 (b :: b1) e b2 Hb). discriminate. }
      rewrite Hbefore.
      apply (hasParentAmong_extend (flat_map (fun root => entries root None 0) l1)) in Hlink.
      destruct Hlink as (front & parent & back & Heq & Hp & Hrest).
      rewrite Hp. exists front, parent, back. auto.
  - induction roots as [|root roots IH]; cbn [flat_map]; [reflexivity|].
    rewrite filter_app, length_app, entries_one_root, IH. reflexivity.
Qed.

(** On the document of the parser's test suite: three entries. *)
Lemma flatten_complete_witness :
  exists flat : list FigmaNode,
    flattenNodes (mkState (Some Scenario.testDesign) [] [] [])
    = (inr tt, mkState (Some Scenario.testDesign) flat [] []) /\
    List.length flat = 3.
Proof.
  destruct (flatten_complete Scenario.testDesign [] [] []) as (flat & Hrun & Hlen & _).
  exists flat. split; [exact Hrun | exact Hlen].
Defined.

End Flatten.

(** ** Style extraction *)

Section StyleTables.

Import FigmaParser Reference Invariant.

Context {A : Type}.

Lemma lookup_assign_same (key : string) (v : A) (table : list (string * A)) :
  lookup key (assign key v table) = Some v.
Proof.
  induction table as [|[k w] table IH]; simpl.
  - now rewrite String.eqb_refl.
  - destruct (String.eqb k key) eqn:Hk; simpl; rewrite Hk; [reflexivity | exact IH].
Qed.

Lemma lookup_assign_other (key key' : string) (v : A) (table : list (string * A)) :
  key <> key' -> lookup key' (assign key v table) = lookup key' table.
Proof.
  intro Hne. induction table as [|[k w] table IH]; simpl.
  - apply String.eqb_neq in Hne. now rewrite Hne.
  - destruct (String.eqb k key) eqn:Hk; simpl.
    + apply String.eqb_eq in Hk. subst k.
      apply String.eqb_neq in Hne. now rewrite Hne.
    + destruct (String.eqb k key'); [reflexivity | exact IH].
Qed.

Lemma assign_keys (key : string) (v : A) (table : list (string * A)) :
  map fst (assign key v table) = map fst table \/
  (~ In key (map fst table) /\ map fst (assign key v table) = map fst table ++ [key]).
Proof.
  induction table as [|[k w] table IH]; simpl.
  - right. split; [tauto | reflexivity].
  - destruct (String.eqb k key) eqn:Hk; simpl; [now left|].
    apply String.eqb_neq in Hk.
    destruct IH as [->|[Hnot ->]]; [now left|].
    right. split; [|reflexivity]. intros [H|H]; [contradiction | now apply Hnot].
Qed.

Lemma assign_NoDup (key : string) (v : A) (table : list (string * A)) :
  NoDup (map fst table) -> NoDup (map fst (assign key v table)).
Proof.
  intro Hnd. destruct (assign_keys key v table) as [->|[Hnot ->]]; [assumption|].
  apply NoDup_app; [assumption | repeat constructor; intros [] |].
  intros x Hx [<-|[]]. contradiction.
Qed.

Lemma applyWrites_NoDup (ws table : list (string * A)) :
  NoDup (map fst table) -> NoDup (map fst (applyWrites ws table)).
Proof.
  revert table. induction ws as [|[k v] ws IH]; intros table Hnd; simpl; [assumption|].
  apply IH. now apply assign_NoDup.
Qed.

Lemma applyWrites_app (ws ws' table : list (string * A)) :
  applyWrites (ws ++ ws') table = applyWrites ws' (applyWrites ws table).
Proof. unfold applyWrites. apply fold_left_app. Qed.

(** After a series of assignments a key holds one of the values assigned
    to it, or, if none was, what it held before. *)
Lemma applyWrites_lookup (ws : list (string * A)) :
  forall (table : list (string * A)) (key : string),
    (exists v, lookup key (applyWrites ws table) = Some v /\ In (key, v) ws) \/
    (lookup key (applyWrites ws table) = lookup key table /\ forall v, ~ In (key, v) ws).
Proof.
  induction ws as [|[k0 v0] ws IH]; intros table key; simpl.
  - right. split; [reflexivity | tauto].
  - destruct (IH (assign k0 v0 table) key) as [(v & Hv & Hin)|[Heq Hnone]].
    + left. exists v. split; [assumption | now right].
    + destruct (string_dec k0 key) as [->|Hne].
      * left. exists v0. split; [|now left].
        rewrite Heq. apply lookup_assign_same.
      * right. split.
        -- rewrite Heq. now apply lookup_assign_other.
        -- intros v [H|H]; [inversion H; contradiction | now apply (Hnone v)].
Qed.

End StyleTables.

Section StyleExtraction.

Import FigmaParser Reference Invariant.

Lemma fold_writes {X : Type} (step : StyleTable -> X -> StyleTable)
    (w : X -> list (string * FigmaStyle)) (l : list X) :
  (forall table x, step table x = applyWrites (w x) table) ->
  forall table, fold_left step l table = applyWrites (flat_map w l) table.
Proof.
  intro Hstep. induction l as [|x l IH]; intro table; simpl; [reflexivity|].
  now rewrite applyWrites_app, IH, Hstep.
Qed.

Lemma extractFill_writes (node : FigmaNode) (table : StyleTable) (fill : Paint) :
  extractFill node table fill = applyWrites (fillWrite node fill) table.
Proof.
  unfold extractFill, fillWrite. destruct (paintType fill) as [t|]; [|reflexivity].
  now destruct (Js.truthyString t && notExplicitlyHidden (paintVisible fill)).
Qed.

Lemma extractEffect_writes (node : FigmaNode) (table : StyleTable) (effect : Effect) :
  extractEffect node table effect = applyWrites (effectWrite node effect) table.
Proof.
  unfold extractEffect, effectWrite. destruct (effectType effect) as [t|]; [|reflexivity].
  now destruct (Js.truthyString t && notExplicitlyHidden (effectVisible effect)).
Qed.

Lemma extractText_writes (node : FigmaNode) (table : StyleTable) :
  extractText node table = applyWrites (textWrite node) table.
Proof.
  unfold extractText, textWrite.
  now destruct (String.eqb (type node) "TEXT"
                && truthyOpt truthyNum (fontSize (properties node))).
Qed.

Lemma extractNodeStyles_writes (table : StyleTable) (node : FigmaNode) :
  extractNodeStyles table node = applyWrites (writes node) table.
Proof.
  unfold extractNodeStyles, writes. rewrite !applyWrites_app, <- extractText_writes.
  destruct (fills (properties node)) as [fs|], (effects (properties node)) as [es|];
    rewrite ?(fold_writes _ _ _ (extractFill_writes node)),
            ?(fold_writes _ _ _ (extractEffect_writes node)); reflexivity.
Qed.

(** The assignments made are those the three rules call for. *)
Lemma writes_sources (nodes : list FigmaNode) (key : string) (style : FigmaStyle) :
  In (key, style) (flat_map writes nodes) <-> styleSource nodes key style.
Proof.
  split.
  - intro H. apply in_flat_map in H. destruct H as (node & Hnode & H).
    unfold writes in H. apply in_app_or in H. destruct H as [H|H].
    + destruct (fills (properties node)) as [fs|] eqn:Hfs; [|contradiction].
      apply in_flat_map in H. destruct H as (fill & Hfill & H).
      unfold fillWrite in H. destruct (paintType fill) as [t|] eqn:Ht; [|contradiction].
      destruct (Js.truthyString t && notExplicitlyHidden (paintVisible fill)) eqn:Hc;
        [|contradiction].
      destruct H as [H|[]]. inversion H; subst.
      apply andb_prop in Hc. eapply fromFill; eauto. now split.
    + apply in_app_or in H. destruct H as [H|H].
      * unfold textWrite in H.
        destruct (String.eqb (type node) "TEXT"
                  && truthyOpt truthyNum (fontSize (properties node))) eqn:Hc;
          [|contradiction].
        destruct H as [H|[]]. inversion H; subst.
        apply andb_prop in Hc. destruct Hc as [Ht Hs]. apply String.eqb_eq in Ht.
        apply fromText; [assumption | now split].
      * destruct (effects (properties node)) as [es|] eqn:Hes; [|contradiction].
        apply in_flat_map in H. destruct H as (effect & Heffect & H).
        unfold effectWrite in H. destruct (effectType effect) as [t|] eqn:Ht; [|contradiction].
        destruct (Js.truthyString t && notExplicitlyHidden (effectVisible effect)) eqn:Hc;
          [|contradiction].
        destruct H as [H|[]]. inversion H; subst.
        apply andb_prop in Hc. eapply fromEffect; eauto. now split.
  - intro H. apply in_flat_map.
    destruct H as [node fs fill t Hnode Hfs Hfill (Ht & Htruthy & Hvis)
                  |node Hnode (Ht & Hsize)
                  |node es effect t Hnode Hes Heffect (Ht & Htruthy & Hvis)];
      exists node; (split; [assumption|]); unfold writes.
    + apply in_or_app. left. rewrite Hfs. apply in_flat_map. exists fill.
      split; [assumption|]. unfold fillWrite. rewrite Ht, Htruthy, Hvis. now left.
    + apply in_or_app. right. apply in_or_app. left.
      unfold textWrite. rewrite Ht, Hsize. now left.
    + apply in_or_app. right. apply in_or_app. right. rewrite Hes. apply in_flat_map.
      exists effect. split; [assumption|]. unfold effectWrite. rewrite Ht, Htruthy, Hvis.
      now left.
Qed.

(** The kind of a record shows in the first character of its key. *)
Lemma styleSource_kind (nodes : list FigmaNode) (key : string) (style : FigmaStyle) :
  styleSource nodes key style ->
  (styleType style = "FILL"%string /\ String.get 0 key = Some "f"%char) \/
  (styleType style = "TEXT"%string /\ String.get 0 key = Some "t"%char) \/
  (styleType style = "EFFECT"%string /\ String.get 0 key = Some "e"%char).
Proof.
  intros [node fs fill t _ _ _ _|node _ _|node es effect t _ _ _ _]; simpl; auto.
Qed.

Lemma styleSource_same_key (nodes : list FigmaNode) (key : string) (s1 s2 : FigmaStyle) :
  styleSource nodes key s1 -> styleSource nodes key s2 -> styleType s1 = styleType s2.
Proof.
  intros H1 H2. apply styleSource_kind in H1, H2.
  destruct H1 as [[-> G1]|[[-> G1]|[-> G1]]], H2 as [[-> G2]|[[-> G2]|[-> G2]]];
    try reflexivity; rewrite G1 in G2; discriminate.
Qed.

(** A key holds what was assigned to it last. *)
Lemma applyWrites_last (before after : list (string * FigmaStyle)) (key : string)
    (style : FigmaStyle) (table : StyleTable) :
  (forall later, ~ In (key, later) after) ->
  lookup key (applyWrites (before ++ (key, style) :: after) table) = Some style.
Proof.
  intro Hlast. rewrite applyWrites_app.
  change (applyWrites ((key, style) :: after) (applyWrites before table))
    with (applyWrites after (assign key style (applyWrites before table))).
  destruct (applyWrites_lookup after (assign key style (applyWrites before table)) key)
    as [(v & _ & Hin)|[Heq _]].
  - destruct (Hlast v Hin).
  - rewrite Heq. apply lookup_assign_same.
Qed.

(** What style extraction leaves in the table, whatever the table held:
    one record per style id; a record is one the table held or one built
    for a fill, a text node or an effect by the three rules; every such
    fill, text node and effect finds a record of its kind under its id;
    and where several records are built for one id, the last one built
    is the one kept. *)
Lemma extractStyles_keeps_last_write :
  forall (tree : FigmaDesign) (node : FigmaNode) (nodes : list FigmaNode)
         (held : StyleTable) (comps : list FigmaComponent),
  exists table : StyleTable,
    extractStyles (mkState (Some tree) (node :: nodes) held comps)
      = (inr tt, mkState (Some tree) (node :: nodes) table comps) /\
    (NoDup (map fst held) -> NoDup (map fst table)) /\
    (forall key style, lookup key table = Some style ->
                       lookup key held = Some style \/
                       styleSource (node :: nodes) key style) /\
    (forall key style, styleSource (node :: nodes) key style ->
                       exists stored, lookup key table = Some stored /\
                                      styleSource (node :: nodes) key stored /\
                                      styleType stored = styleType style) /\
    (forall before key style after,
        flat_map writes (node :: nodes) = before ++ (key, style) :: after ->
        (forall later, ~ In (key, later) after) ->
        lookup key table = Some style).
Proof.
  intros tree node nodes held comps.
  exists (applyWrites (flat_map writes (node :: nodes)) held).
  split; [|split; [|split; [|split]]].
  - unfold extractStyles. cbn [designTree flattenedNodes extractedStyles components].
    now rewrite (fold_writes _ _ _ extractNodeStyles_writes).
  - apply applyWrites_NoDup.
  - intros key style H.
    destruct (applyWrites_lookup (flat_map writes (node :: nodes)) held key)
      as [(v & Hv & Hin)|[Heq _]].
    + right. rewrite H in Hv. inversion Hv; subst v. now apply writes_sources.
    + left. now rewrite <- Heq.
  - intros key style H. pose proof H as Hin. apply writes_sources in Hin.
    destruct (applyWrites_lookup (flat_map writes (node :: nodes)) held key)
      as [(v & Hv & Hv')|[_ Hnone]].
    + exists v. apply writes_sources in Hv'. split; [assumption | split; [assumption|]].
      now apply (styleSource_same_key (node :: nodes) key).
    + destruct (Hnone style Hin).
  - intros before key style after Hsplit Hlast. rewrite Hsplit.
    now apply applyWrites_last.
Qed.

(** C5, at the failing input. A rectangle with two visible solid fills,
    red then blue, is parsed into a node that has both fills, and style
    extraction leaves one style record in all, the blue fill's, where
    the claim has two: a record is built for each fill, and both are
    stored under the id [fill-1:2-SOLID], which tells the fills of a
    node apart by their type only.  With a gradient in place of the blue
    fill the same rectangle gets its two records. *)
Lemma two_visible_fills_one_record :
  In Scenario.twoFillBox
     (getFlattenedNodes (snd (parseJson "now" Scenario.twoFillDocument initial))) /\
  List.length (visibleFills Scenario.twoFillBox) = 2 /\
  map fst (flat_map writes [Scenario.twoFillBox])
  = ["fill-1:2-SOLID"%string; "fill-1:2-SOLID"%string] /\
  map styleValue
      (fillRecordsOf Scenario.twoFillBox
         (getExtractedStyles (snd (parseJson "now" Scenario.twoFillDocument initial))))
  = [FillValue Scenario.blueFill] /\
  map fst (getExtractedStyles (snd (parseJson "now" Scenario.twoFillDocument initial)))
  = ["fill-1:2-SOLID"%string] /\
  map (fun entry => (fst entry, styleValue (snd entry)))
      (getExtractedStyles (snd (parseJson "now" Examples.twoKindDocument initial)))
  = [("fill-1:2-SOLID"%string, FillValue Scenario.redFill);
     ("fill-1:2-GRADIENT_LINEAR"%string, FillValue Examples.gradientFill)].
Proof.
  split; [right; left; reflexivity | repeat split; reflexivity].
Qed.

End StyleExtraction.

(** ** Malformed documents *)

Section MalformedDocument.

Import FigmaParser.

(** C9. [parseJson] applied to the empty object throws, with the message
    of the format check, and leaves every field of the parser as it was;
    so does a document without a [children] list. On a new parser the
    failed call therefore leaves the flattened nodes, the extracted styles
    and the components empty. *)
Theorem parse_empty_object_fails :
  (forall (now : string) (st : State),
      parseJson now emptyObject st
      = (inl "Failed to parse Figma file: Invalid Figma file format"%string, st)) /\
  (forall (now : string) (st : State) (name lastModified thumbnail version : option string)
          (schema : option Q),
      parseJson now (mkJsonData name (Some (mkRawDocument None)) lastModified thumbnail
                                version schema) st
      = (inl "Failed to parse Figma file: Invalid Figma file format"%string, st)) /\
  (forall now : string,
      getFlattenedNodes (snd (parseJson now emptyObject initial)) = [] /\
      getExtractedStyles (snd (parseJson now emptyObject initial)) = [] /\
      getComponents (snd (parseJson now emptyObject initial)) = [] /\
      getDesignTree (snd (parseJson now emptyObject initial)) = None).
Proof.
  split; [|split]; intros; repeat split; reflexivity.
Qed.

End MalformedDocument.

(** ** Button patterns *)

Section ButtonPatterns.

Import FigmaParser DesignAnalyzer Reference.

(** C2, as stated, fails: a frame named ["button"] with a corner radius,
    a visible fill and a text child is detected with confidence 0.85,
    where the stated formula gives 0.5 + 0.2 + 0.3 = 1. *)
Lemma button_confidence_counterexample :
  map confidence
      (detectButtonPatterns [Scenario.buttonFrame; Scenario.buttonLabel] [])
  = [(85 # 100)%Q] /\
  (claimedButtonConfidence [Scenario.buttonFrame; Scenario.buttonLabel] Scenario.buttonFrame
   == 1)%Q.
Proof.
  split; reflexivity.
Qed.

Lemma button_pattern_nudged (nodes : list FigmaNode) (node : FigmaNode) :
  (confidence (adjustConfidence (buttonPattern nodes node))
   == if Js.includes (Js.toLowerCase (name node)) "button" then 95 # 100 else 85 # 100)%Q.
Proof.
  unfold adjustConfidence. cbn [confidence patternName patternType buttonPattern
                                 patternProperties matchedNodes].
  assert (Hnodes : (3 <? List.length (id node :: match find (isTextChildOf node) nodes with
                                                  | Some child => [id child]
                                                  | None => []
                                                  end)) = false).
  { destruct (find (isTextChildOf node) nodes); reflexivity. }
  rewrite Hnodes. cbn [List.length Nat.ltb Nat.leb].
  destruct (Js.includes (Js.toLowerCase (name node)) "button"); reflexivity.
Qed.

(** C2 (amended). Every node that [detectButtonPatterns] detects gets a
    button pattern whose confidence, before the adjustments of
    [calculatePatternConfidence], is the constant 0.85, whatever its name,
    corner radius and text child; the adjustments then add 0.1 when the
    lowercased name contains "button" and change nothing else. *)
Theorem button_confidence_constant :
  forall (nodes : list FigmaNode) (patterns : list ComponentPattern),
  exists detected : list ComponentPattern,
    detectButtonPatterns nodes patterns = patterns ++ detected /\
    map patternNodeId detected = map id (filter (isButtonCandidate nodes) nodes) /\
    Forall (fun p => confidence p = (85 # 100)%Q /\ patternType p = "button"%string /\
                     (confidence (adjustConfidence p)
                      == if Js.includes (Js.toLowerCase (patternName p)) "button"
                         then 95 # 100 else 85 # 100)%Q)
           detected.
Proof.
  intros nodes patterns.
  exists (map (buttonPattern nodes) (filter (isButtonCandidate nodes) nodes)).
  split; [reflexivity | split].
  - rewrite map_map. reflexivity.
  - apply Forall_forall. intros p Hp. apply in_map_iff in Hp.
    destruct Hp as (node & <- & _). split; [reflexivity | split; [reflexivity|]].
    apply button_pattern_nudged.
Qed.

End ButtonPatterns.

(** ** Typography validation *)

Section Typography.

Import FigmaParser DesignAnalyzer Reference Invariant.

Lemma fst_trackTypography (used : list (Q * list string) * list (option Json * list string))
    (node : FigmaNode) :
  fst (trackTypography used node) = trackSize (fst used) node.
Proof.
  unfold trackTypography, trackSize.
  destruct (String.eqb (type node) "TEXT"); [|reflexivity].
  destruct (fontSize (properties node)) as [size|]; [|reflexivity].
  now destruct (truthyNum size).
Qed.

Lemma fst_fold_trackTypography (nodes : list FigmaNode) :
  forall used, fst (fold_left trackTypography nodes used) = fold_left trackSize nodes (fst used).
Proof.
  induction nodes as [|node nodes IH]; intro used; simpl; [reflexivity|].
  now rewrite IH, fst_trackTypography.
Qed.

Lemma record_origin (key : Q) (nodeId : string) (used : list (Q * list string))
    (k : Q) (ids : list string) :
  In (k, ids) (record Qeq_bool key nodeId used) ->
  k = key \/ exists ids0, In (k, ids0) used.
Proof.
  induction used as [|[k0 ids0] used IH]; simpl.
  - intros [H|[]]. inversion H. now left.
  - destruct (Qeq_bool k0 key); simpl.
    + intros [H|H]; right; [inversion H; subst; eauto | eauto].
    + intros [H|H]; [right; inversion H; subst; eauto|].
      destruct (IH H) as [->|[ids1 H1]]; [now left | right; eauto].
Qed.

Lemma record_added (key : Q) (nodeId : string) (used : list (Q * list string)) :
  exists k ids, In (k, ids) (record Qeq_bool key nodeId used) /\
                Qeq_bool k key = true /\ In nodeId ids.
Proof.
  induction used as [|[k0 ids0] used IH]; simpl.
  - exists key, [nodeId]. repeat split; [now left | apply Qeq_bool_refl | now left].
  - destruct (Qeq_bool k0 key) eqn:Hk.
    + exists k0, (ids0 ++ [nodeId]). repeat split; [now left | assumption |].
      apply in_or_app. right. now left.
    + destruct IH as (k & ids & Hin & Hk' & Hid). exists k, ids. repeat split; auto.
      now right.
Qed.

Lemma record_kept (key : Q) (nodeId : string) (used : list (Q * list string))
    (k : Q) (ids : list string) :
  In (k, ids) used ->
  exists ids', In (k, ids') (record Qeq_bool key nodeId used) /\ incl ids ids'.
Proof.
  induction used as [|[k0 ids0] used IH]; simpl; [tauto|].
  intros [H|H].
  - inversion H; subst. destruct (Qeq_bool k key).
    + exists (ids ++ [nodeId]). split; [now left | now apply incl_appl, incl_refl].
    + exists ids. split; [now left | apply incl_refl].
  - destruct (IH H) as (ids' & Hin & Hincl). destruct (Qeq_bool k0 key).
    + exists ids. split; [now right | apply incl_refl].
    + exists ids'. split; [now right | assumption].
Qed.

Lemma trackSize_kept (nodes : list FigmaNode) :
  forall used k ids,
    In (k, ids) used ->
    exists ids', In (k, ids') (fold_left trackSize nodes used) /\ incl ids ids'.
Proof.
  induction nodes as [|node nodes IH]; intros used k ids H; simpl.
  - exists ids. split; [assumption | apply incl_refl].
  - assert (Hstep : exists ids1, In (k, ids1) (trackSize used node) /\ incl ids ids1).
    { unfold trackSize. destruct (String.eqb (type node) "TEXT");
        [|exists ids; split; [assumption | apply incl_refl]].
      destruct (fontSize (properties node)) as [size|];
        [|exists ids; split; [assumption | apply incl_refl]].
      destruct (truthyNum size); [|exists ids; split; [assumption | apply incl_refl]].
      now apply record_kept. }
    destruct Hstep as (ids1 & H1 & Hincl1).
    destruct (IH _ _ _ H1) as (ids' & H' & Hincl'). exists ids'.
    split; [assumption | eapply incl_tran; eassumption].
Qed.

(** Every text node with a font size is recorded under a key equal to
    its size. *)
Lemma trackSize_records (nodes : list FigmaNode) :
  forall used node size,
    In node nodes -> textOfSize node size ->
    exists k ids, In (k, ids) (fold_left trackSize nodes used) /\
                  Qeq_bool k size = true /\ In (id node) ids.
Proof.
  induction nodes as [|n nodes IH]; intros used node size Hin Htext; [contradiction|].
  simpl. destruct Hin as [->|Hin]; [|now apply IH].
  destruct Htext as (Ht & Hs & Htruthy).
  unfold trackSize at 2. rewrite Ht, Hs, Htruthy. simpl.
  destruct (record_added size (id node) used) as (k & ids & Hrec & Hk & Hid).
  destruct (trackSize_kept nodes _ _ _ Hrec) as (ids' & H' & Hincl).
  exists k, ids'. repeat split; auto.
Qed.

(** Every key recorded is the font size of some text node. *)
Lemma trackSize_origin (nodes : list FigmaNode) :
  forall used k ids,
    In (k, ids) (fold_left trackSize nodes used) ->
    (exists ids0, In (k, ids0) used) \/ exists node, In node nodes /\ textOfSize node k.
Proof.
  induction nodes as [|n nodes IH]; intros used k ids H; simpl in H; [left; eauto|].
  destruct (IH _ _ _ H) as [[ids0 H0]|(node & Hnode & Htext)].
  - unfold trackSize in H0. destruct (String.eqb (type n) "TEXT") eqn:Ht; [|left; eauto].
    destruct (fontSize (properties n)) as [size|] eqn:Hs; [|left; eauto].
    destruct (truthyNum size) eqn:Htruthy; [|left; eauto].
    destruct (record_origin _ _ _ _ _ H0) as [->|Hold]; [|now left].
    right. exists n. split; [now left|]. apply String.eqb_eq in Ht. now repeat split.
  - right. exists node. split; [now right | assumption].
Qed.

Lemma Qabs'_nonneg_le (x y : Q) :
  Qle_bool (Qabs' x) (Qabs' y) = true <-> (Qabs' x <= Qabs' y)%Q.
Proof. apply Qle_bool_iff. Qed.

Lemma nearer_choice (size prev curr : Q) :
  (nearer size prev curr = prev \/ nearer size prev curr = curr) /\
  (distance (nearer size prev curr) size <= distance prev size)%Q /\
  (distance (nearer size prev curr) size <= distance curr size)%Q.
Proof.
  unfold nearer, distance.
  destruct (Qle_bool (Qabs' (prev - size)) (Qabs' (curr - size))) eqn:Hle; simpl.
  - apply Qle_bool_iff in Hle. repeat split; [now left | apply Qle_refl | assumption].
  - assert (Hlt : (Qabs' (curr - size) < Qabs' (prev - size))%Q).
    { apply Qnot_le_lt. intro H. apply Qle_bool_iff in H. congruence. }
    repeat split; [now right | now apply Qlt_le_weak | apply Qle_refl].
Qed.

Lemma nearest_fold (size : Q) (rest : list Q) :
  forall first,
    In (fold_left (nearer size) rest first) (first :: rest) /\
    forall s, In s (first :: rest) ->
              (distance (fold_left (nearer size) rest first) size <= distance s size)%Q.
Proof.
  induction rest as [|c rest IH]; intro first; simpl.
  - split; [now left|]. intros s [<-|[]]. apply Qle_refl.
  - destruct (IH (nearer size first c)) as [Hin Hmin].
    destruct (nearer_choice size first c) as (Hchoice & Hfirst & Hc).
    split.
    + destruct Hin as [Hin|Hin]; [|now right; right].
      rewrite <- Hin. destruct Hchoice as [->| ->]; [now left | now right; left].
    + intros s [<-|[<-|Hs]].
      * eapply Qle_trans; [apply Hmin; now left | assumption].
      * eapply Qle_trans; [apply Hmin; now left | assumption].
      * apply Hmin. now right.
Qed.

Lemma includesNum_In (sizes : list Q) (x : Q) :
  includesNum sizes x = true <-> exists s, In s sizes /\ (s == x)%Q.
Proof.
  unfold includesNum. rewrite existsb_exists.
  split; intros (s & Hs & H); exists s; (split; [assumption|]); now apply Qeq_bool_iff.
Qed.

(** C6, as stated, fails: 30 is in the stated standard set, yet a text
    node of size 30 draws an info issue, which suggests 32. *)
Lemma font_size_30_counterexample :
  includesNum claimedStandardSizes 30 = true /\
  validateTypography [Scenario.titleOfSize30] [] = [nonStandardIssue 30 ["1:3"%string]] /\
  severity (nonStandardIssue 30 ["1:3"%string]) = Js.SevInfo /\
  suggestion (nonStandardIssue 30 ["1:3"%string])
  = [Js.Lit "Consider using the nearest standard size: "; Js.Num 32; Js.Lit "px"].
Proof.
  repeat split; reflexivity.
Qed.

(** C6 (amended). With the standard set
    {12,14,16,18,20,24,32,40,48,56,64} of the code: the info issues that
    typography validation adds are exactly its non-standard-size issues;
    there is one for the font size of a text node if and only if neither
    the size nor the size rounded to the nearest integer is in the set;
    and its suggestion names a member of the set nearest to the size. *)
Theorem typography_nonstandard_sizes :
  forall (nodes : list FigmaNode) (issues : list StyleIssue),
    (forall i, In i (validateTypography nodes issues) ->
       In i issues \/ severity i = Js.SevWarning \/
       exists size ids node,
         i = nonStandardIssue size ids /\ severity i = Js.SevInfo /\
         In node nodes /\ textOfSize node size /\
         includesNum standardSizes size = false /\
         includesNum standardSizes (round size) = false) /\
    (forall node size,
       In node nodes -> textOfSize node size ->
       includesNum standardSizes size = false ->
       includesNum standardSizes (round size) = false ->
       exists size' ids,
         In (nonStandardIssue size' ids) (validateTypography nodes issues) /\
         (size' == size)%Q /\ In (id node) ids) /\
    (forall size ids,
       suggestion (nonStandardIssue size ids)
       = [Js.Lit "Consider using the nearest standard size: ";
          Js.Num (findNearestStandardSize size standardSizes); Js.Lit "px"] /\
       In (findNearestStandardSize size standardSizes) standardSizes /\
       forall s, In s standardSizes ->
                 (distance (findNearestStandardSize size standardSizes) size
                  <= distance s size)%Q).
Proof.
  intros nodes issues. split; [|split].
  - intros i Hi. unfold validateTypography in Hi.
    rewrite fst_fold_trackTypography in Hi. cbn [fst] in Hi.
    set (sizes := fold_left trackSize nodes []) in *.
    set (families := snd (fold_left trackTypography nodes ([], []))) in *.
    assert (Hmid : In i
              ((if 5 <? List.length sizes
                then issues ++ [mkStyleIssue [Js.Lit "typography-too-many-sizes"] "typography"
                     Js.SevWarning
                     [Js.Lit "Found "; Js.Count (List.length sizes);
                      Js.Lit " different font sizes which may indicate inconsistent typography"]
                     (map fst sizes) [] []
                     [Js.Lit "Consider using a type scale with fewer font sizes for better consistency"]]
                else issues)
               ++ flat_map (fun entry => if isNonStandard (fst entry)
                                         then [nonStandardIssue (fst entry) (snd entry)]
                                         else []) sizes)
            \/ severity i = Js.SevWarning).
    { destruct (2 <? List.length families); [|now left].
      apply in_app_or in Hi. destruct Hi as [Hi|[<-|[]]]; [now left | now right]. }
    destruct Hmid as [Hmid|Hw]; [|now right; left].
    apply in_app_or in Hmid. destruct Hmid as [Hold|Hnew].
    + destruct (5 <? List.length sizes); [|now left].
      apply in_app_or in Hold. destruct Hold as [Hold|[<-|[]]]; [now left | now right; left].
    + right. right. apply in_flat_map in Hnew. destruct Hnew as ([size ids] & Hentry & Hi').
      cbn [fst snd] in Hi'. destruct (isNonStandard size) eqn:Hns; [|contradiction].
      destruct Hi' as [<-|[]].
      destruct (trackSize_origin nodes [] size ids Hentry) as [[ids0 []]|(node & Hnode & Htext)].
      unfold isNonStandard in Hns. apply andb_prop in Hns. destruct Hns as [H1 H2].
      apply negb_true_iff in H1, H2.
      exists size, ids, node. repeat split; auto; apply Htext.
  - intros node size Hnode Htext Hs Hr.
    destruct (trackSize_records nodes [] node size Hnode Htext) as (k & ids & Hin & Hk & Hid).
    apply Qeq_bool_iff in Hk.
    assert (Hns : isNonStandard k = true).
    { unfold isNonStandard. apply andb_true_intro. split; apply negb_true_iff.
      - destruct (includesNum standardSizes k) eqn:H; [|reflexivity].
        apply includesNum_In in H. destruct H as (s & Hs1 & Hs2).
        assert (includesNum standardSizes size = true) as Habs; [|congruence].
        apply includesNum_In. exists s. split; [assumption|]. now rewrite Hs2.
      - destruct (includesNum standardSizes (round k)) eqn:H; [|reflexivity].
        apply includesNum_In in H. destruct H as (s & Hs1 & Hs2).
        assert (includesNum standardSizes (round size) = true) as Habs; [|congruence].
        apply includesNum_In. exists s. split; [assumption|]. rewrite Hs2.
        unfold round. now rewrite Hk. }
    exists k, ids. split; [|split; assumption].
    unfold validateTypography. rewrite fst_fold_trackTypography. cbn [fst].
    assert (Hmid : forall l, In (nonStandardIssue k ids)
              (l ++ flat_map (fun entry => if isNonStandard (fst entry)
                                           then [nonStandardIssue (fst entry) (snd entry)]
                                           else [])
                             (fold_left trackSize nodes []))).
    { intro l. apply in_or_app. right. apply in_flat_map. exists (k, ids).
      split; [assumption|]. cbn [fst snd]. rewrite Hns. now left. }
    destruct (2 <? List.length (snd (fold_left trackTypography nodes ([], []))));
      [apply in_or_app; left|]; apply Hmid.
  - intros size ids. split; [reflexivity|].
    unfold findNearestStandardSize, standardSizes.
    apply (nearest_fold size).
Qed.

End Typography.

(** ** Code generation failures *)

Section GenerationFailures.

Import LlmOrchestrator Reference.

#[local] Open Scope string_scope.


Variable renderComponent :
  State -> PromptTemplate -> EdsMapper.ComponentMapping -> list (string * FigmaParser.Json)
  -> Thrown + string.
Variable renderLayout :
  State -> PromptTemplate -> list EdsMapper.ComponentMapping -> list (string * FigmaParser.Json)
  -> Thrown + string.



End GenerationFailures.

Section GenerationFailuresExample.

Import LlmOrchestrator Scenario Reference.



End GenerationFailuresExample.

(** ** Tag scanning: the fuel given never runs out *)

Section TagScan.

Import Js.

Lemma span_shorter (test : ascii -> bool) (s : string) :
  String.length (snd (span test s)) <= String.length s.
Proof.
  induction s as [|c s IH]; simpl; [lia|].
  destruct (test c); [|simpl; lia].
  destruct (span test s) as [run after]. simpl in *. lia.
Qed.

Lemma throughGt_shorter (s : string) :
  forall taken after, throughGt s = Some (taken, after) ->
                      String.length after < String.length s.
Proof.
  induction s as [|c s IH]; intros taken after H; simpl in H; [discriminate|].
  destruct (code c =? 62).
  - inversion H; subst. simpl. lia.
  - destruct (throughGt s) as [[t a]|]; [|discriminate].
    inversion H; subst. specialize (IH t after eq_refl). simpl. lia.
Qed.

Lemma afterPrefix_shorter (p s : string) :
  forall rest, afterPrefix p s = Some rest -> String.length rest <= String.length s.
Proof.
  revert s. induction p as [|a p IH]; intros s rest H; simpl in H.
  - inversion H; subst. lia.
  - destruct s as [|b s]; [discriminate|].
    destruct (Ascii.eqb a b); [|discriminate].
    specialize (IH s rest H). simpl. lia.
Qed.

Lemma matchTagBody_shorter (s : string) :
  forall body rest, matchTagBody s = Some (body, rest) ->
                    String.length rest < String.length s.
Proof.
  intros body rest H. destruct s as [|c s]; simpl in H; [discriminate|].
  destruct (isLetter c); [|discriminate].
  pose proof (span_shorter isAlnum s) as Hspan.
  destruct (span isAlnum s) as [run after]. simpl in Hspan.
  destruct (String.prefix "_" after); [discriminate|].
  destruct (throughGt after) as [[taken remainder]|] eqn:Hgt; [|discriminate].
  inversion H; subst. apply throughGt_shorter in Hgt. simpl. lia.
Qed.

Lemma matchOpenTagHere_shorter (s matched rest : string) :
  matchOpenTagHere s = Some (matched, rest) -> String.length rest < String.length s.
Proof.
  unfold matchOpenTagHere. intro H.
  destruct (afterPrefix "<" s) as [r|] eqn:Hp; [|discriminate].
  destruct (matchTagBody r) as [[body remainder]|] eqn:Hb; [|discriminate].
  inversion H; subst. apply matchTagBody_shorter in Hb.
  apply afterPrefix_shorter in Hp. lia.
Qed.

Lemma matchCloseTagHere_shorter (s matched rest : string) :
  matchCloseTagHere s = Some (matched, rest) -> String.length rest < String.length s.
Proof.
  unfold matchCloseTagHere. intro H.
  destruct (afterPrefix "</" s) as [r|] eqn:Hp; [|discriminate].
  destruct (matchTagBody r) as [[body remainder]|] eqn:Hb; [|discriminate].
  inversion H; subst. apply matchTagBody_shorter in Hb.
  apply afterPrefix_shorter in Hp. lia.
Qed.

(** With more fuel than characters the scan does not depend on the fuel:
    it ends because the text is used up. *)
Lemma execAll_enough_fuel (matchHere : string -> option (string * string)) :
  (forall s matched rest, matchHere s = Some (matched, rest) ->
                          String.length rest < String.length s) ->
  forall fuel fuel' s,
    String.length s < fuel -> String.length s < fuel' ->
    execAll matchHere fuel s = execAll matchHere fuel' s.
Proof.
  intro Hshorter. induction fuel as [|fuel IH]; intros fuel' s Hf Hf'; [lia|].
  destruct fuel' as [|fuel']; [lia|]. simpl.
  destruct (matchHere s) as [[matched rest]|] eqn:Hm.
  - apply Hshorter in Hm. f_equal. apply IH; lia.
  - destruct s as [|c s]; [reflexivity|]. simpl in Hf, Hf'. apply IH; lia.
Qed.

Lemma openTags_any_fuel (src : string) (fuel : nat) :
  String.length src < fuel ->
  CodeValidator.openTags src
  = filter (fun matched => negb (includes matched "/>")) (execAll matchOpenTagHere fuel src).
Proof.
  intro H. unfold CodeValidator.openTags. f_equal.
  apply (execAll_enough_fuel _ matchOpenTagHere_shorter); lia.
Qed.

Lemma closingTags_any_fuel (src : string) (fuel : nat) :
  String.length src < fuel ->
  CodeValidator.closingTags src = execAll matchCloseTagHere fuel src.
Proof.
  intro H. unfold CodeValidator.closingTags.
  apply (execAll_enough_fuel _ matchCloseTagHere_shorter); lia.
Qed.

End TagScan.

(** ** The production-readiness verdict *)

Section ProductionReady.

Import Js LlmOrchestrator CodeValidator Scenario.

(** C3, as stated, fails: a React component without an import statement
    draws one syntax warning and nothing else; the overall score is 0.95,
    no syntax issue is an error and no style issue is critical, yet the
    result is not production-ready. *)
Lemma syntax_warning_blocks_production_counterexample :
  exists (result : ValidationResult) (st' : State),
    validateCode "now" (initialize generatedWithoutImport fresh) = (inr result, st') /\
    map severity (syntaxIssues (syntaxCheck result)) = [SevWarning] /\
    countSeverity SevError (syntaxIssues (syntaxCheck result)) = 0 /\
    criticalIssues (styleCheck result) = 0 /\
    (overallScore result == 95 # 100)%Q /\
    isProductionReady result = false.
Proof.
  eexists. eexists. split; [vm_compute; reflexivity|].
  repeat split; reflexivity.
Qed.

(** C3 (amended). [validateCode] reports a generation result as
    production-ready if and only if the overall score, which is
    0.5 * syntax + 0.3 * style + 0.2 * responsiveness, is at least 0.8,
    and the syntax check produced no issue at all, of any severity, and
    the style check produced no critical issue, that is no style issue
    that is an error or a warning typed style-critical. *)
Theorem production_ready_condition :
  forall (now : string) (generated : CodeGenerationResult)
         (earlier : list ValidationIssue) (fw : string),
  exists (result : ValidationResult) (st' : State),
    validateCode now (mkState (Some generated) earlier fw) = (inr result, st') /\
    syntaxIssues (syntaxCheck result) = collect (validateComponentSyntax fw) generated /\
    styleIssues (styleCheck result) = collect (validateComponentStyle fw) generated /\
    criticalIssues (styleCheck result)
    = List.length (filter isCritical (styleIssues (styleCheck result))) /\
    syntaxScore (syntaxCheck result) = calculateSyntaxScore (syntaxIssues (syntaxCheck result)) /\
    styleScore (styleCheck result) = calculateStyleScore (styleIssues (styleCheck result)) /\
    responsivenessScore (responsivenessCheck result)
    = calculateResponsivenessScore (responsivenessIssues (responsivenessCheck result)) /\
    (overallScore result
     == (5 # 10) * syntaxScore (syntaxCheck result)
        + (3 # 10) * styleScore (styleCheck result)
        + (2 # 10) * responsivenessScore (responsivenessCheck result))%Q /\
    (isProductionReady result = true <->
     (8 # 10 <= overallScore result)%Q /\
     syntaxIssues (syntaxCheck result) = [] /\
     criticalIssues (styleCheck result) = 0).
Proof.
  intros now generated earlier fw.
  eexists. eexists. split; [reflexivity|].
  cbn [syntaxCheck styleCheck responsivenessCheck overallScore isProductionReady
       syntaxIssues styleIssues criticalIssues syntaxScore styleScore responsivenessScore
       responsivenessIssues fst framework].
  do 6 (split; [reflexivity|]). split.
  - unfold calculateOverallScore. ring.
  - rewrite !andb_true_iff, Qle_bool_iff, !Nat.eqb_eq, length_zero_iff_nil. tauto.
Qed.

End ProductionReady.

(** * Further properties of the agents *)

Section ParseOutcome.

Import FigmaParser Reference Invariant.

Lemma entries_cons (node : RawNode) (parent : option string) (depth : nat) :
  entries node parent depth <> [].
Proof. destruct node; discriminate. Qed.

(** What a call of [parseJson] does, by the shape of the document. *)
Lemma parseJson_outcome (now : string) (data : JsonData) (st : State) :
  match dataDocument data with
  | Some document =>
      match documentChildren document with
      | Some (page :: kids) =>
          exists tree nodes,
            pages tree = map toPage (page :: kids) /\
            nodes = flat_map (fun root => entries root None 0) (map pageAsNode (pages tree)) /\
            nodes <> [] /\
            parseJson now data st
            = (inr tree,
               snd (identifyComponents
                      (mkState (Some tree) nodes
                               (applyWrites (flat_map writes nodes) (extractedStyles st))
                               (components st))))
      | Some [] =>
          exists tree,
            pages tree = [] /\ designDocument tree = document /\
            parseJson now data st
            = (inl "Failed to parse Figma file: Design tree or flattened nodes not initialized"%string,
               mkState (Some tree) [] (extractedStyles st) (components st))
      | None =>
          parseJson now data st
          = (inl "Failed to parse Figma file: Invalid Figma file format"%string, st)
      end
  | None =>
      parseJson now data st
      = (inl "Failed to parse Figma file: Invalid Figma file format"%string, st)
  end.
Proof.
  unfold parseJson, parseJsonBody.
  destruct (dataDocument data) as [document|]; [|reflexivity].
  destruct (documentChildren document) as [[|page kids]|]; [| |reflexivity].
  - eexists. split; [|split]; [| |reflexivity]; reflexivity.
  - match goal with
    | |- context [flattenNodes (mkState (Some ?t) _ _ _)] => set (tree := t)
    end.
    exists tree, (flat_map (fun root => entries root None 0) (map pageAsNode (pages tree))).
    split; [reflexivity|]. split; [reflexivity|].
    split.
    { cbn [tree pages map flat_map]. intro H. apply app_eq_nil in H.
      destruct H as [H _]. exact (entries_cons _ _ _ H). }
    unfold flattenNodes. cbn [designTree extractedStyles components flattenedNodes].
    rewrite (fold_left_append (fun page => entries (pageAsNode page) None 0))
      by (intros acc p _; apply traverseNodes_entries).
    rewrite (flat_map_through_map pageAsNode (fun root => entries root None 0)).
    cbn [app].
    set (nodes := flat_map (fun root => entries root None 0) (map pageAsNode (pages tree))).
    assert (Hnodes : nodes <> []).
    { subst nodes. cbn [tree pages map flat_map]. intro H. apply app_eq_nil in H.
      destruct H as [H _]. exact (entries_cons _ _ _ H). }
    unfold extractStyles. cbn [designTree extractedStyles components flattenedNodes].
    destruct nodes as [|n ns] eqn:Hn; [congruence|].
    rewrite (fold_writes _ _ _ extractNodeStyles_writes).
    unfold identifyComponents. cbn [designTree extractedStyles components flattenedNodes snd].
    reflexivity.
Qed.


Lemma identifyComponents_fields (st : State) :
  designTree (snd (identifyComponents st)) = designTree st /\
  flattenedNodes (snd (identifyComponents st)) = flattenedNodes st /\
  extractedStyles (snd (identifyComponents st)) = extractedStyles st.
Proof.
  unfold identifyComponents.
  destruct (designTree st) eqn:Ht, (flattenedNodes st) eqn:Hn; cbn [snd designTree flattenedNodes extractedStyles];
    rewrite ?Ht, ?Hn; auto.
Qed.

(** A successful call: the tree returned, the nodes and the styles it
    leaves in the parser. *)
Lemma parseJson_success (now : string) (data : JsonData) (st st' : State) (tree : FigmaDesign) :
  parseJson now data st = (inr tree, st') ->
  designTree st' = Some tree /\
  flattenedNodes st' = flat_map (fun root => entries root None 0) (map pageAsNode (pages tree)) /\
  flattenedNodes st' <> [] /\
  extractedStyles st' = applyWrites (flat_map writes (flattenedNodes st')) (extractedStyles st).
Proof.
  intro Hrun. pose proof (parseJson_outcome now data st) as Hout.
  destruct (dataDocument data) as [document|]; [|congruence].
  destruct (documentChildren document) as [[|page kids]|]; [| |congruence].
  - destruct Hout as (t & _ & _ & Hfail). congruence.
  - destruct Hout as (t & nodes & _ & Hnodes & Hne & Hok).
    rewrite Hok in Hrun. inversion Hrun; subst tree st'. clear Hrun.
    destruct (identifyComponents_fields
                (mkState (Some t) nodes
                         (applyWrites (flat_map writes nodes) (extractedStyles st))
                         (components st))) as (Ht & Hn & Hs).
    cbn [designTree flattenedNodes extractedStyles] in Ht, Hn, Hs.
    rewrite Ht, Hn, Hs. repeat split; auto.
Qed.

(** X1. [parseJson] returns a design tree exactly when the document has
    a [children] list with at least one page; the tree then has one page
    per child and is the one the parser keeps. *)
Theorem parse_succeeds_iff_pages :
  forall (now : string) (data : JsonData) (st : State),
    ((exists tree st', parseJson now data st = (inr tree, st')) <->
     (exists document page kids,
         dataDocument data = Some document /\
         documentChildren document = Some (page :: kids))) /\
    (forall tree st',
        parseJson now data st = (inr tree, st') ->
        getDesignTree st' = Some tree /\
        List.length (pages tree) =
        match dataDocument data with
        | Some document =>
            match documentChildren document with
            | Some kids => List.length kids
            | None => 0
            end
        | None => 0
        end /\
        getFlattenedNodes st' <> []).
Proof.
  intros now data st. pose proof (parseJson_outcome now data st) as Hout. split; [split|].
  - intros (tree & st' & Hrun).
    destruct (dataDocument data) as [document|]; [|congruence].
    destruct (documentChildren document) as [[|page kids]|] eqn:Hk; [| |congruence].
    + destruct Hout as (t & _ & _ & Hfail). congruence.
    + now exists document, page, kids.
  - intros (document & page & kids & Hd & Hk). rewrite Hd, Hk in Hout.
    destruct Hout as (tree & nodes & _ & _ & _ & Hok). eauto.
  - intros tree st' Hrun.
    destruct (parseJson_success _ _ _ _ _ Hrun) as (Ht & _ & Hne & _).
    split; [exact Ht | split; [|exact Hne]].
    destruct (dataDocument data) as [document|]; [|congruence].
    destruct (documentChildren document) as [[|page kids]|]; [| |congruence].
    + destruct Hout as (t & _ & _ & Hfail). congruence.
    + destruct Hout as (t & nodes & Hp & _ & _ & Hok).
      rewrite Hok in Hrun. inversion Hrun; subst t.
      now rewrite Hp, length_map.
Qed.

(** X2. On a document whose page list is empty [parseJson] throws only
    after it has stored the new design tree and emptied the node list: the
    parser is left with that tree, no nodes, and the styles and components
    it had before. *)
Theorem parse_without_pages_half_done :
  forall (now : string) (data : JsonData) (st : State) (document : RawDocument),
    dataDocument data = Some document ->
    documentChildren document = Some [] ->
    exists tree,
      parseJson now data st
      = (inl "Failed to parse Figma file: Design tree or flattened nodes not initialized"%string,
         mkState (Some tree) [] (extractedStyles st) (components st)) /\
      pages tree = [] /\ designDocument tree = document.
Proof.
  intros now data st document Hd Hk.
  pose proof (parseJson_outcome now data st) as Hout. rewrite Hd, Hk in Hout.
  destruct Hout as (tree & Hp & Hdoc & Hrun). now exists tree.
Qed.

(** After a successful parse, a later parse of a document without pages
    keeps the old styles beside a tree that has no page. *)
Lemma parse_without_pages_half_done_witness :
  exists tree,
    getDesignTree (snd (parseJson "later" Examples.documentWithoutPages
                                  (snd (parseJson "now" Scenario.twoFillDocument initial))))
    = Some tree /\
    pages tree = [] /\
    getFlattenedNodes (snd (parseJson "later" Examples.documentWithoutPages
                                      (snd (parseJson "now" Scenario.twoFillDocument initial))))
    = [] /\
    map fst (getExtractedStyles
               (snd (parseJson "later" Examples.documentWithoutPages
                               (snd (parseJson "now" Scenario.twoFillDocument initial)))))
    = ["fill-1:2-SOLID"%string].
Proof.
  destruct (parse_without_pages_half_done "later" Examples.documentWithoutPages
              (snd (parseJson "now" Scenario.twoFillDocument initial))
              (mkRawDocument (Some [])) eq_refl eq_refl) as (tree & Hrun & Hp & _).
  exists tree. rewrite Hrun. cbn [snd getDesignTree getFlattenedNodes getExtractedStyles
                                  designTree flattenedNodes extractedStyles].
  split; [reflexivity | split; [exact Hp | split; reflexivity]].
Defined.

End ParseOutcome.
Section ParsedNodes.

Import FigmaParser Reference Invariant.

Lemma truthyNum_nonzero (q : Q) : truthyNum q = true <-> ~ (q == 0)%Q.
Proof.
  unfold truthyNum. rewrite negb_true_iff. split.
  - intros H Heq. apply Qeq_bool_iff in Heq. congruence.
  - intro H. destruct (Qeq_bool q 0) eqn:Heq; [|reflexivity].
    apply Qeq_bool_iff in Heq. contradiction.
Qed.

Lemma copyIf_Some {A : Type} (test : A -> bool) (v : option A) (x : A) :
  copyIf test v = Some x -> v = Some x /\ test x = true.
Proof.
  unfold copyIf, truthyOpt. destruct v as [y|]; [|discriminate].
  destruct (test y) eqn:Hy; [|discriminate]. intro H. inversion H; subst. auto.
Qed.

Lemma copyOther_In (fields : list (string * Json)) (key : string) (v : Json) :
  In (key, v) (copyOther fields) ->
  truthy v = true /\ In key copiedOtherKeys /\ lookup key fields = Some v.
Proof.
  unfold copyOther. rewrite in_flat_map. intros (k & Hk & Hin).
  destruct (lookup k fields) as [w|] eqn:Hw; [|destruct Hin].
  destruct (truthy w) eqn:Ht; [|destruct Hin].
  destruct Hin as [Heq|[]]. inversion Heq; subst. auto.
Qed.

(** What the block of [if (node.k)] statements lets through. *)
Lemma copyProperties_truthy (p : Properties) :
  (forall q, cornerRadius (copyProperties p) = Some q -> ~ (q == 0)%Q) /\
  (forall q, opacity (copyProperties p) = Some q -> ~ (q == 0)%Q) /\
  (forall q, fontSize (copyProperties p) = Some q -> ~ (q == 0)%Q) /\
  characters (copyProperties p) <> Some EmptyString /\
  (forall key v, In (key, v) (other (copyProperties p)) ->
                 truthy v = true /\ In key copiedOtherKeys).
Proof.
  cbn [copyProperties cornerRadius opacity fontSize characters other].
  repeat split.
  - intros q H. apply copyIf_Some in H. now apply truthyNum_nonzero.
  - intros q H. apply copyIf_Some in H. now apply truthyNum_nonzero.
  - intros q H. apply copyIf_Some in H. now apply truthyNum_nonzero.
  - intro H. apply copyIf_Some in H. destruct H as [_ H]. discriminate.
  - now apply copyOther_In in H.
  - now apply copyOther_In in H.
Qed.

(** An entry of a tree is its root's, or an entry of one of the
    children's trees. *)
Lemma entries_In (i n t : string) (p : Properties) (kids : option (list RawNode))
    (parent : option string) (depth : nat) (e : FigmaNode) :
  In e (entries (mkRawNode i n t p kids) parent depth) ->
  e = mkFigmaNode i n t parent depth
        (match kids with Some cs => map rawId cs | None => [] end) (copyProperties p) \/
  exists cs child, kids = Some cs /\ In child cs /\ In e (entries child (Some i) (depth + 1)).
Proof.
  cbn [entries]. intros [H|H]; [now left|]. right.
  destruct kids as [cs|]; [|destruct H].
  apply in_flat_map in H. destruct H as (child & Hc & He). now exists cs, child.
Qed.

Lemma entries_properties (node : RawNode) :
  forall parent depth e,
    In e (entries node parent depth) -> exists p, properties e = copyProperties p.
Proof.
  induction node as [i n t p kids IH] using RawNode_induction.
  intros parent depth e H. apply entries_In in H.
  destruct H as [->|(cs & child & Hk & Hc & He)]; [now exists p|].
  specialize (IH cs Hk). rewrite Forall_forall in IH. exact (IH child Hc _ _ _ He).
Qed.

Lemma entries_children (node : RawNode) :
  forall parent depth e c,
    In e (entries node parent depth) -> In c (children e) ->
    exists e', In e' (entries node parent depth) /\ id e' = c /\
               parentId e' = Some (id e) /\ FigmaParser.depth e' = FigmaParser.depth e + 1.
Proof.
  induction node as [i n t p kids IH] using RawNode_induction.
  intros parent depth e c H Hc. pose proof H as H0. apply entries_In in H0.
  destruct H0 as [->|(cs & child & Hk & Hchild & He)].
  - cbn [children] in Hc. destruct kids as [cs|]; [|destruct Hc].
    apply in_map_iff in Hc. destruct Hc as (child & <- & Hchild).
    destruct (entries_head child (Some i) (depth + 1)) as (e' & rest & He' & Hid & Hp & Hd & _).
    exists e'. split; [|now cbn [id FigmaParser.depth]].
    cbn [entries]. right. apply in_flat_map. exists child. split; [assumption|].
    rewrite He'. now left.
  - specialize (IH cs Hk). rewrite Forall_forall in IH.
    destruct (IH child Hchild _ _ _ _ He Hc) as (e' & He' & Hrest).
    exists e'. split; [|assumption].
    subst kids. cbn [entries]. right. apply in_flat_map. now exists child.
Qed.

(** The attributes of a node of a parsed document went through the
    block of [if (node.k)] statements. *)
Lemma parsed_node_is_copy (now : string) (data : JsonData) (st st' : State)
    (tree : FigmaDesign) (node : FigmaNode) :
  parseJson now data st = (inr tree, st') ->
  In node (getFlattenedNodes st') ->
  exists p, properties node = copyProperties p.
Proof.
  intros Hrun Hin.
  destruct (parseJson_success _ _ _ _ _ Hrun) as (_ & Hnodes & _ & _).
  unfold getFlattenedNodes in Hin. rewrite Hnodes in Hin.
  apply in_flat_map in Hin. destruct Hin as (root & _ & He).
  exact (entries_properties _ _ _ _ He).
Qed.

Lemma copyIf_iff {A : Type} (test : A -> bool) (v : option A) (x : A) :
  copyIf test v = Some x <-> v = Some x /\ test x = true.
Proof.
  split; [apply copyIf_Some|].
  intros [-> H]. unfold copyIf, truthyOpt. now rewrite H.
Qed.

Lemma copyOther_iff (fields : list (string * Json)) (key : string) (v : Json) :
  In (key, v) (copyOther fields) <->
  In key copiedOtherKeys /\ lookup key fields = Some v /\ truthy v = true.
Proof.
  split.
  - intro H. apply copyOther_In in H. tauto.
  - intros (Hkey & Hv & Ht). unfold copyOther. apply in_flat_map.
    exists key. split; [assumption|]. rewrite Hv, Ht. now left.
Qed.

(** Every entry of a tree is made from a node of the tree, whose
    attributes went through the block of [if (node.k)] statements. *)
Lemma entries_source (node : RawNode) :
  forall parent depth e,
    In e (entries node parent depth) ->
    exists raw, In raw (preorder node) /\ nodeLabel raw = entryLabel e /\
                properties e = copyProperties (rawProps raw).
Proof.
  induction node as [i n t p kids IH] using RawNode_induction.
  intros parent depth e H. apply entries_In in H.
  destruct H as [->|(cs & child & Hk & Hc & He)].
  - exists (mkRawNode i n t p kids). split; [now left | split; reflexivity].
  - specialize (IH cs Hk). rewrite Forall_forall in IH.
    destruct (IH child Hc _ _ _ He) as (raw & Hraw & Hrest).
    exists raw. split; [|assumption].
    subst kids. cbn [preorder]. right. apply in_flat_map. now exists child.
Qed.

(** X3. What the parser records of a node's attributes.  A node of a
    parsed document never carries a corner radius, an opacity or a font
    size of zero, nor an empty text, and the entries of its further
    copied attributes are among the copied keys and truthy: falsy values
    are dropped.  The [visible] flag is the exception: the entry of a
    node below a page carries it as the source node has it, [false]
    included.  Such an entry carries the fills and the effects of its
    source node, every number and text of it that is not zero or empty,
    and every truthy value under a copied key, and nothing else; a page
    carries no attribute at all, not even [visible]. *)
Theorem parsed_properties_are_truthy :
  forall (now : string) (data : JsonData) (st st' : State) (tree : FigmaDesign),
    parseJson now data st = (inr tree, st') ->
    forall node, In node (getFlattenedNodes st') ->
      (forall q, cornerRadius (properties node) = Some q -> ~ (q == 0)%Q) /\
      (forall q, opacity (properties node) = Some q -> ~ (q == 0)%Q) /\
      (forall q, fontSize (properties node) = Some q -> ~ (q == 0)%Q) /\
      characters (properties node) <> Some EmptyString /\
      (forall key v, In (key, v) (other (properties node)) ->
                     truthy v = true /\ In key copiedOtherKeys) /\
      (parentId node = None -> properties node = noProperties) /\
      (parentId node <> None ->
       exists raw,
         In raw (flat_map (fun page => flat_map preorder (pageChildren page)) (pages tree)) /\
         nodeLabel raw = entryLabel node /\
         visible (properties node) = visible (rawProps raw) /\
         fills (properties node) = fills (rawProps raw) /\
         effects (properties node) = effects (rawProps raw) /\
         (forall q, cornerRadius (properties node) = Some q <->
                    cornerRadius (rawProps raw) = Some q /\ truthyNum q = true) /\
         (forall q, opacity (properties node) = Some q <->
                    opacity (rawProps raw) = Some q /\ truthyNum q = true) /\
         (forall q, fontSize (properties node) = Some q <->
                    fontSize (rawProps raw) = Some q /\ truthyNum q = true) /\
         (forall text, characters (properties node) = Some text <->
                       characters (rawProps raw) = Some text /\ text <> EmptyString) /\
         (forall key v, In (key, v) (other (properties node)) <->
                        In key copiedOtherKeys /\
                        lookup key (other (rawProps raw)) = Some v /\ truthy v = true)).
Proof.
  intros now data st st' tree Hrun node Hin.
  destruct (parseJson_success _ _ _ _ _ Hrun) as (_ & Hnodes & _ & _).
  unfold getFlattenedNodes in Hin. rewrite Hnodes in Hin.
  apply in_flat_map in Hin. destruct Hin as (root & Hroot & He).
  apply in_map_iff in Hroot. destruct Hroot as (page & <- & Hpage).
  destruct (entries_properties _ _ _ _ He) as (p & Hp).
  destruct (copyProperties_truthy p) as (H1 & H2 & H3 & H4 & H5).
  rewrite Hp. repeat (split; [assumption|]).
  rewrite <- Hp. apply entries_In in He.
  destruct He as [->|(cs & child & Hcs & Hchild & He)].
  - split; [reflexivity|]. intro Hparent. now contradiction Hparent.
  - split.
    + intro Hparent.
      pose proof (entries_below_parent child (pageId page) (0 + 1)) as Hbelow.
      rewrite Forall_forall in Hbelow. specialize (Hbelow _ He).
      unfold isRootEntry in Hbelow. rewrite Hparent in Hbelow. discriminate.
    + intros _. inversion Hcs; subst cs.
      destruct (entries_source _ _ _ _ He) as (raw & Hraw & Hlabel & Hcopy).
      exists raw. split.
      { apply in_flat_map. exists page. split; [assumption|].
        apply in_flat_map. now exists child. }
      split; [assumption|]. rewrite Hcopy.
      cbn [copyProperties visible fills effects cornerRadius opacity fontSize characters other].
      split; [reflexivity|].
      split; [unfold copyIf, truthyOpt; now destruct (fills (rawProps raw))|].
      split; [unfold copyIf, truthyOpt; now destruct (effects (rawProps raw))|].
      repeat (split; [intro q; apply copyIf_iff|]).
      split.
      * intro text. rewrite copyIf_iff. unfold Js.truthyString.
        rewrite negb_true_iff, String.eqb_neq. reflexivity.
      * intros key v. apply copyOther_iff.
Qed.

(** On the document with the hidden text: the entry made for the text
    keeps the [visible] flag [false] of its source, while the opacity 0,
    the empty text and the stroke weight 0 of the source are dropped. *)
Lemma parsed_properties_are_truthy_witness :
  In Examples.hiddenEntry
     (getFlattenedNodes (snd (parseJson "now" Examples.hiddenDocument initial))) /\
  opacity (rawProps Examples.hiddenText) = Some 0%Q /\
  characters (rawProps Examples.hiddenText) = Some EmptyString /\
  visible (properties Examples.hiddenEntry) = Some false /\
  characters (properties Examples.hiddenEntry) <> Some EmptyString /\
  (forall q, opacity (properties Examples.hiddenEntry) = Some q -> ~ (q == 0)%Q) /\
  exists raw,
    nodeLabel raw = entryLabel Examples.hiddenEntry /\
    visible (properties Examples.hiddenEntry) = visible (rawProps raw).
Proof.
  assert (Hin : In Examples.hiddenEntry
                   (getFlattenedNodes (snd (parseJson "now" Examples.hiddenDocument initial)))).
  { vm_compute. right. left. reflexivity. }
  refine ((fun H => _)
            (parsed_properties_are_truthy "now" Examples.hiddenDocument initial
               (snd (parseJson "now" Examples.hiddenDocument initial))
               _ eq_refl Examples.hiddenEntry Hin)).
  destruct H as (_ & Hopacity & _ & Htext & _ & _ & Hsource).
  destruct Hsource as (raw & _ & Hlabel & Hvisible & _); [discriminate|].
  repeat (split; [first [exact Hin | reflexivity | assumption]|]).
  now exists raw.
Defined.

(** X4. After a successful parse every id in a node's [children] list
    is the id of a node of the list, one level deeper, whose [parentId]
    is that node's id. *)
Theorem listed_children_are_entries :
  forall (now : string) (data : JsonData) (st st' : State) (tree : FigmaDesign),
    parseJson now data st = (inr tree, st') ->
    forall node child,
      In node (getFlattenedNodes st') -> In child (children node) ->
      exists e, In e (getFlattenedNodes st') /\ id e = child /\
                parentId e = Some (id node) /\ depth e = depth node + 1.
Proof.
  intros now data st st' tree Hrun node child Hin Hc.
  destruct (parseJson_success _ _ _ _ _ Hrun) as (_ & Hnodes & _ & _).
  unfold getFlattenedNodes in *. rewrite Hnodes in *.
  apply in_flat_map in Hin. destruct Hin as (root & Hroot & He).
  destruct (entries_children _ _ _ _ _ He Hc) as (e' & He' & Hrest).
  exists e'. split; [|assumption]. apply in_flat_map. now exists root.
Qed.

(** The page of the two-fill document lists the rectangle. *)
Lemma listed_children_are_entries_witness :
  exists e, In e (getFlattenedNodes (snd (parseJson "now" Scenario.twoFillDocument initial))) /\
            id e = "1:2"%string /\ parentId e = Some "1:1"%string /\ depth e = 1.
Proof.
  refine (listed_children_are_entries "now" Scenario.twoFillDocument initial
            (snd (parseJson "now" Scenario.twoFillDocument initial)) _ _
            (mkFigmaNode "1:1" "Page 1" "CANVAS" None 0 ["1:2"%string] noProperties)
            "1:2"%string _ _).
  - reflexivity.
  - vm_compute. left. reflexivity.
  - left. reflexivity.
Defined.

(** X5. The style table is never cleared: after a later successful
    parse every key it held is still there, in the same place, with the
    record it had unless the new document writes that key. *)
Theorem styles_survive_later_parses :
  forall (now : string) (data : JsonData) (st st' : State) (tree : FigmaDesign),
    parseJson now data st = (inr tree, st') ->
    (exists added,
        map fst (getExtractedStyles st') = map fst (getExtractedStyles st) ++ added) /\
    (forall key old,
        lookup key (getExtractedStyles st) = Some old ->
        exists kept, lookup key (getExtractedStyles st') = Some kept /\
                     (kept = old \/ styleSource (getFlattenedNodes st') key kept)).
Proof.
  intros now data st st' tree Hrun.
  destruct (parseJson_success _ _ _ _ _ Hrun) as (_ & _ & _ & Hstyles).
  unfold getExtractedStyles, getFlattenedNodes. rewrite Hstyles. split.
  - generalize (flat_map writes (flattenedNodes st')) as ws.
    generalize (extractedStyles st) as table.
    intros table ws. revert table.
    induction ws as [|[k v] ws IH]; intro table.
    + exists []. now rewrite app_nil_r.
    + unfold applyWrites in *. cbn [fold_left fst snd].
      destruct (IH (assign k v table)) as (added & Hadded). rewrite Hadded.
      destruct (assign_keys k v table) as [->|[_ ->]].
      * now exists added.
      * exists (k :: added). now rewrite <- app_assoc.
  - intros key old Hold.
    destruct (applyWrites_lookup (flat_map writes (flattenedNodes st')) (extractedStyles st) key)
      as [(v & Hv & Hin)|[Heq _]].
    + exists v. split; [assumption|]. right. now apply writes_sources.
    + exists old. split; [congruence | now left].
Qed.

(** The fill record of the two-fill document survives the parse of a
    blank document. *)
Lemma styles_survive_later_parses_witness :
  exists added,
    map fst (getExtractedStyles
               (snd (parseJson "later" Examples.blankDocument
                               (snd (parseJson "now" Scenario.twoFillDocument initial)))))
    = ["fill-1:2-SOLID"%string] ++ added.
Proof.
  refine (proj1 (styles_survive_later_parses "later" Examples.blankDocument
                   (snd (parseJson "now" Scenario.twoFillDocument initial))
                   (snd (parseJson "later" Examples.blankDocument
                                   (snd (parseJson "now" Scenario.twoFillDocument initial))))
                   _ _)).
  reflexivity.
Defined.

End ParsedNodes.
(** ** Sums and averages of confidences *)

Section Averages.

Import Selection.

Lemma inject_nat_succ (n : nat) :
  (inject_Z (Z.of_nat (S n)) == inject_Z (Z.of_nat n) + 1)%Q.
Proof. rewrite Nat2Z.inj_succ, <- Z.add_1_r, inject_Z_plus. reflexivity. Qed.

Lemma inject_nat_pos (n : nat) : 0 < n -> (0 < inject_Z (Z.of_nat n))%Q.
Proof. intro H. change 0%Q with (inject_Z 0). rewrite <- Zlt_Qlt. lia. Qed.

Lemma fold_sum_bounds {A : Type} (f : A -> Q) (l : list A) :
  (forall x, In x l -> inUnitInterval (f x)) ->
  forall init,
    (init <= fold_left (fun sum x => sum + f x) l init)%Q /\
    (fold_left (fun sum x => sum + f x) l init
     <= init + inject_Z (Z.of_nat (List.length l)))%Q.
Proof.
  induction l as [|x l IH]; intros Hl init; cbn [fold_left List.length].
  - split; [apply Qle_refl|]. change (inject_Z (Z.of_nat 0)) with 0%Q.
    rewrite Qplus_0_r. apply Qle_refl.
  - destruct (Hl x (or_introl eq_refl)) as [H0 H1].
    destruct (IH (fun y Hy => Hl y (or_intror Hy)) (init + f x)%Q) as [Hlo Hhi].
    split.
    + eapply Qle_trans; [|exact Hlo].
      rewrite <- (Qplus_0_r init) at 1. apply Qplus_le_r. exact H0.
    + eapply Qle_trans; [exact Hhi|].
      rewrite inject_nat_succ.
      rewrite <- Qplus_assoc. apply Qplus_le_r.
      rewrite (Qplus_comm (inject_Z _) 1). apply Qplus_le_l. exact H1.
Qed.

(** The average of numbers from 0 to 1 is a number from 0 to 1. *)
Lemma average_in_unit_interval {A : Type} (f : A -> Q) (l : list A) :
  l <> [] ->
  (forall x, In x l -> inUnitInterval (f x)) ->
  inUnitInterval (fold_left (fun sum x => sum + f x) l 0 / inject_Z (Z.of_nat (List.length l)))%Q.
Proof.
  intros Hne Hl.
  assert (Hpos : (0 < inject_Z (Z.of_nat (List.length l)))%Q).
  { apply inject_nat_pos. destruct l; [congruence | cbn; lia]. }
  destruct (fold_sum_bounds f l Hl 0%Q) as [Hlo Hhi]. rewrite Qplus_0_l in Hhi.
  split.
  - apply Qle_shift_div_l; [assumption|]. now rewrite Qmult_0_l.
  - apply Qle_shift_div_r; [assumption|]. now rewrite Qmult_1_l.
Qed.

Lemma Qmin1_in_unit_interval (q : Q) : (0 <= q)%Q -> inUnitInterval (DesignAnalyzer.Qmin1 q).
Proof.
  intro H. unfold DesignAnalyzer.Qmin1, inUnitInterval.
  destruct (Qle_bool 1 q) eqn:Hq.
  - split; [discriminate | apply Qle_refl].
  - split; [assumption|]. apply Qlt_le_weak, Qnot_le_lt. intro Hle.
    apply Qle_bool_iff in Hle. congruence.
Qed.

Lemma Qmax0_in_unit_interval (q : Q) : (q <= 1)%Q -> inUnitInterval (DesignAnalyzer.Qmax0 q).
Proof.
  intro H. unfold DesignAnalyzer.Qmax0, inUnitInterval.
  destruct (Qle_bool q 0) eqn:Hq.
  - split; [apply Qle_refl | discriminate].
  - split; [|assumption]. apply Qlt_le_weak, Qnot_le_lt. intro Hle.
    apply Qle_bool_iff in Hle. congruence.
Qed.

End Averages.

(** ** Pattern confidence and style consistency *)

Section AnalyzerScores.

Import Js FigmaParser DesignAnalyzer DesignAnalyzerLayout Selection.

Lemma adjustConfidence_in_unit_interval (pattern : ComponentPattern) :
  inUnitInterval (confidence pattern) -> inUnitInterval (confidence (adjustConfidence pattern)).
Proof.
  intros [H0 H1]. unfold adjustConfidence. cbn [confidence].
  set (c1 := if Js.includes _ _ then _ else _).
  assert (Hc1 : inUnitInterval c1).
  { subst c1. destruct (Js.includes _ _); [|now split].
    apply Qmin1_in_unit_interval.
    apply (Qle_trans _ (0 + 0)); [discriminate | apply Qplus_le_compat; [assumption | discriminate]]. }
  set (c2 := if 3 <? _ then _ else _).
  assert (Hc2 : inUnitInterval c2).
  { subst c2. destruct (3 <? _); [|assumption].
    apply Qmin1_in_unit_interval.
    apply (Qle_trans _ (0 + 0)); [discriminate | apply Qplus_le_compat; [apply Hc1 | discriminate]]. }
  destruct (_ <? 2); [|assumption].
  apply Qmax0_in_unit_interval.
  apply (Qle_trans _ (1 - 0)); [|discriminate].
  unfold Qminus. apply Qplus_le_compat; [apply Hc2 | discriminate].
Qed.

(** X6. [calculatePatternConfidence] keeps confidences in range: when
    every detected pattern has a confidence from 0 to 1, so has every
    adjusted pattern, and so has the average returned; the patterns
    themselves are the same, in the same order.  Without patterns the
    average is 0. *)
Theorem pattern_confidence_stays_in_unit_interval :
  forall patterns : list ComponentPattern,
    (forall p, In p patterns -> inUnitInterval (confidence p)) ->
    (forall p, In p (fst (calculatePatternConfidence patterns)) ->
               inUnitInterval (confidence p)) /\
    inUnitInterval (snd (calculatePatternConfidence patterns)) /\
    map patternId (fst (calculatePatternConfidence patterns)) = map patternId patterns /\
    (patterns = [] -> snd (calculatePatternConfidence patterns) = 0%Q).
Proof.
  intros patterns Hall.
  assert (Hadj : forall p, In p (map adjustConfidence patterns) ->
                           inUnitInterval (confidence p)).
  { intros p Hp. apply in_map_iff in Hp. destruct Hp as (p0 & <- & Hp0).
    now apply adjustConfidence_in_unit_interval, Hall. }
  destruct patterns as [|p0 rest] eqn:Hpat.
  - cbn. repeat split; try discriminate; try tauto.
  - unfold calculatePatternConfidence. cbn [fst snd]. rewrite <- Hpat in *.
    split; [exact Hadj|]. split; [|split].
    + apply (average_in_unit_interval confidence); [|exact Hadj].
      rewrite Hpat. discriminate.
    + rewrite map_map. apply map_ext. reflexivity.
    + rewrite Hpat. discriminate.
Qed.

(** On the button pattern of the frame named "button". *)
Lemma pattern_confidence_stays_in_unit_interval_witness :
  inUnitInterval
    (snd (calculatePatternConfidence
            (detectButtonPatterns [Scenario.buttonFrame; Scenario.buttonLabel] []))).
Proof.
  refine (proj1 (proj2 (pattern_confidence_stays_in_unit_interval
                          (detectButtonPatterns [Scenario.buttonFrame; Scenario.buttonLabel] [])
                          _))).
  intros p [<-|[]]. split; discriminate.
Defined.

End AnalyzerScores.
Section StyleConsistency.

Import Js FigmaParser DesignAnalyzer DesignAnalyzerLayout Selection.

Lemma Qle_bool_false (x y : Q) : Qle_bool x y = false <-> (y < x)%Q.
Proof.
  split.
  - intro H. apply Qnot_le_lt. intro Hle. apply Qle_bool_iff in Hle. congruence.
  - intro H. destruct (Qle_bool x y) eqn:Hle; [|reflexivity].
    apply Qle_bool_iff in Hle. exfalso. exact (Qlt_not_le _ _ H Hle).
Qed.

(** [Math.max(0, Math.min(1, x))] *)
Lemma clamp_cases (x : Q) :
  ((1 <= x)%Q /\ Qmax0 (Qmin1 x) = 1%Q) \/
  ((x <= 0)%Q /\ Qmax0 (Qmin1 x) = 0%Q) \/
  ((0 < x)%Q /\ (x < 1)%Q /\ Qmax0 (Qmin1 x) = x).
Proof.
  unfold Qmax0, Qmin1.
  destruct (Qle_bool 1 x) eqn:H1.
  - left. apply Qle_bool_iff in H1. split; [assumption | reflexivity].
  - apply Qle_bool_false in H1. destruct (Qle_bool x 0) eqn:H0.
    + right; left. apply Qle_bool_iff in H0. split; [assumption | reflexivity].
    + right; right. apply Qle_bool_false in H0. auto.
Qed.

Lemma clamp_in_unit_interval (x : Q) : inUnitInterval (Qmax0 (Qmin1 x)).
Proof.
  destruct (clamp_cases x) as [[_ ->]|[[_ ->]|(H0 & H1 & ->)]]; split;
    try discriminate; try apply Qle_refl; now apply Qlt_le_weak.
Qed.

Lemma clamp_monotone (x y : Q) : (x <= y)%Q -> (Qmax0 (Qmin1 x) <= Qmax0 (Qmin1 y))%Q.
Proof.
  intro Hxy.
  destruct (clamp_cases x) as [[Hx ->]|[[Hx ->]|(Hx0 & Hx1 & ->)]];
    destruct (clamp_cases y) as [[Hy ->]|[[Hy ->]|(Hy0 & Hy1 & ->)]];
    try discriminate; try apply Qle_refl; try assumption; try (now apply Qlt_le_weak).
  - exfalso. apply (Qlt_not_le 0 1); [reflexivity|].
    apply (Qle_trans _ x); [assumption|]. now apply (Qle_trans _ y).
  - exfalso. apply (Qlt_not_le y 1); [assumption|]. now apply (Qle_trans _ x).
  - exfalso. apply (Qlt_not_le 0 x); [assumption|]. now apply (Qle_trans _ y).
Qed.

Lemma issueImpact_at_least (s : Severity) : (5 # 100 <= issueImpact s)%Q.
Proof. destruct s; discriminate. Qed.

(** The running score after the issues [l], from [init]. *)
Lemma consistency_fold (l : list StyleIssue) :
  forall init,
    (fold_left (fun score issue => score - issueImpact (severity issue)) l init
     <= init - (5 # 100) * inject_Z (Z.of_nat (List.length l)))%Q.
Proof.
  induction l as [|i l IH]; intro init; cbn [fold_left List.length].
  - change (inject_Z (Z.of_nat 0)) with 0%Q. rewrite Qmult_0_r. unfold Qminus.
    rewrite Qplus_0_r. apply Qle_refl.
  - eapply Qle_trans; [apply IH|]. rewrite inject_nat_succ.
    pose proof (issueImpact_at_least (severity i)) as Hi.
    setoid_replace (init - (5 # 100) * (inject_Z (Z.of_nat (List.length l)) + 1))%Q
      with (init - (5 # 100) - (5 # 100) * inject_Z (Z.of_nat (List.length l)))%Q by ring.
    unfold Qminus. apply Qplus_le_l. apply Qplus_le_r. now apply Qopp_le_compat.
Qed.

Lemma consistency_fold_decreases (l : list StyleIssue) :
  forall init,
    (fold_left (fun score issue => score - issueImpact (severity issue)) l init <= init)%Q.
Proof.
  intro init. eapply Qle_trans; [apply consistency_fold|].
  rewrite <- (Qplus_0_r init) at 2. unfold Qminus. apply Qplus_le_r.
  apply (Qopp_le_compat 0). apply Qmult_le_0_compat; [discriminate|].
  change 0%Q with (inject_Z 0). rewrite <- Zle_Qle. lia.
Qed.

(** X7. The style consistency score is a number from 0 to 1; it is 1
    only when there is no style issue, never rises when issues are
    added, and is 0 as soon as there are twenty issues of any
    severity. *)
Theorem style_consistency_score :
  forall issues : list StyleIssue,
    inUnitInterval (calculateStyleConsistency issues) /\
    ((calculateStyleConsistency issues == 1)%Q <-> issues = []) /\
    (forall more,
        (calculateStyleConsistency (issues ++ more) <= calculateStyleConsistency issues)%Q) /\
    (20 <= List.length issues -> calculateStyleConsistency issues = 0%Q).
Proof.
  intro issues. unfold calculateStyleConsistency. split; [|split; [|split]].
  - apply clamp_in_unit_interval.
  - split.
    + intro H. destruct issues as [|i rest]; [reflexivity|]. exfalso.
      set (raw := fold_left _ (i :: rest) 1%Q) in H.
      assert (Hraw : (raw <= 1 - (5 # 100))%Q).
      { subst raw. eapply Qle_trans; [apply consistency_fold|].
        cbn [List.length]. rewrite inject_nat_succ. unfold Qminus. apply Qplus_le_r.
        apply Qopp_le_compat.
        setoid_replace (5 # 100)%Q with ((5 # 100) * (0 + 1))%Q at 1 by ring.
        apply Qmult_le_l; [reflexivity|]. apply Qplus_le_l.
        change 0%Q with (inject_Z 0). rewrite <- Zle_Qle. lia. }
      assert (Hlt : (raw < 1)%Q).
      { eapply Qle_lt_trans; [exact Hraw | reflexivity]. }
      destruct (clamp_cases raw) as [[H1 _]|[[_ Heq]|(_ & _ & Heq)]].
      * exact (Qlt_not_le _ _ Hlt H1).
      * rewrite Heq in H. discriminate.
      * rewrite Heq in H. rewrite H in Hlt. discriminate.
    + intros ->. reflexivity.
  - intro more. apply clamp_monotone. rewrite fold_left_app.
    apply consistency_fold_decreases.
  - intro Hlen.
    set (raw := fold_left _ issues 1%Q).
    assert (Hraw : (raw <= 0)%Q).
    { subst raw. eapply Qle_trans; [apply consistency_fold|].
      apply (Qle_trans _ (1 - (5 # 100) * inject_Z 20)); [|discriminate].
      unfold Qminus. apply Qplus_le_r. apply Qopp_le_compat.
      apply Qmult_le_l; [reflexivity|]. rewrite <- Zle_Qle. lia. }
    destruct (clamp_cases raw) as [[H1 _]|[[_ Heq]|(H0 & _ & _)]].
    + exfalso. apply (Qlt_not_le 0 1); [reflexivity | now apply (Qle_trans _ raw)].
    + exact Heq.
    + exfalso. exact (Qlt_not_le _ _ H0 Hraw).
Qed.

End StyleConsistency.
(** ** Nearest standard size *)

Section NearestSize.

Import DesignAnalyzer Reference Selection.

Lemma nearer_cases (size prev curr : Q) :
  ((distance curr size < distance prev size)%Q /\ nearer size prev curr = curr) \/
  ((distance prev size <= distance curr size)%Q /\ nearer size prev curr = prev).
Proof.
  unfold nearer, distance.
  destruct (Qle_bool (Qabs' (prev - size)) (Qabs' (curr - size))) eqn:Hle; cbn [negb].
  - right. apply Qle_bool_iff in Hle. auto.
  - left. apply Qle_bool_false in Hle. auto.
Qed.

Lemma firstNearest_fold (size : Q) (rest : list Q) :
  forall done acc,
    firstNearest size done acc ->
    firstNearest size (done ++ rest) (fold_left (nearer size) rest acc).
Proof.
  induction rest as [|c rest IH]; intros done acc Hacc; cbn [fold_left].
  - now rewrite app_nil_r.
  - replace (done ++ c :: rest) with ((done ++ [c]) ++ rest)
      by now rewrite <- app_assoc.
    apply IH. destruct Hacc as (before & after & -> & Hbefore & Hafter).
    destruct (nearer_cases size acc c) as [[Hlt ->]|[Hle ->]].
    + exists (before ++ acc :: after), []. split; [reflexivity|]. split; [|intros y []].
      intros y Hy. apply in_app_or in Hy. destruct Hy as [Hy|[<-|Hy]].
      * eapply Qlt_trans; [exact Hlt | now apply Hbefore].
      * exact Hlt.
      * eapply Qlt_le_trans; [exact Hlt | now apply Hafter].
    + exists before, (after ++ [c]). split; [now rewrite <- app_assoc|].
      split; [exact Hbefore|].
      intros y Hy. apply in_app_or in Hy. destruct Hy as [Hy|[<-|[]]];
        [now apply Hafter | exact Hle].
Qed.

(** X8. [findNearestStandardSize] returns, for any non-empty list of
    sizes, the first entry of the list among those at the least
    distance from the given size: a tie goes to the entry listed
    first. *)
Theorem nearest_size_is_first_nearest :
  forall (size first : Q) (rest : list Q),
    firstNearest size (first :: rest) (findNearestStandardSize size (first :: rest)).
Proof.
  intros size first rest. cbn [findNearestStandardSize].
  apply (firstNearest_fold size rest [first] first).
  exists [], []. split; [reflexivity|]. split; intros y [].
Qed.

End NearestSize.

(** ** Layout patterns of a parsed document *)

Section LayoutPatterns.

Import Js FigmaParser DesignAnalyzer DesignAnalyzerLayout Reference Invariant.

Lemma lookup_In {A : Type} (key : string) (table : list (string * A)) (v : A) :
  lookup key table = Some v -> In (key, v) table.
Proof.
  induction table as [|[k w] table IH]; cbn [lookup]; [discriminate|].
  destruct (String.eqb k key) eqn:Hk.
  - apply String.eqb_eq in Hk. intro H. inversion H; subst. now left.
  - intro H. right. now apply IH.
Qed.

(** X9. The main-axis alignment of a design never reaches the layout
    patterns: the parser does not copy [primaryAxisAlignItems], so on the
    nodes of a parsed document every layout pattern has the alignment
    "start", whatever the document says. *)
Theorem parsed_layouts_align_start :
  forall (now : string) (data : JsonData) (st st' : State) (tree : FigmaDesign),
    parseJson now data st = (inr tree, st') ->
    forall patterns p,
      In p (detectLayoutPatterns (getFlattenedNodes st') patterns) ->
      In p patterns \/
      (patternType p = "layout"%string /\
       lookup "alignment" (patternProperties p) = Some (JStr "start")).
Proof.
  intros now data st st' tree Hrun patterns p Hp.
  unfold detectLayoutPatterns in Hp. apply in_app_or in Hp.
  destruct Hp as [Hp|Hp]; [now left|]. right.
  apply in_map_iff in Hp. destruct Hp as (node & <- & Hnode).
  apply filter_In in Hnode. destruct Hnode as [Hnode _].
  split; [reflexivity|].
  assert (Hnone : property "primaryAxisAlignItems" node = None).
  { destruct (property "primaryAxisAlignItems" node) as [v|] eqn:Hv; [|reflexivity].
    exfalso. unfold property in Hv. apply lookup_In in Hv.
    destruct (parsed_node_is_copy now data st st' tree node Hrun Hnode) as (p0 & Hp0).
    rewrite Hp0 in Hv.
    destruct (copyProperties_truthy p0) as (_ & _ & _ & _ & Hother).
    destruct (Hother _ _ Hv) as [_ Hkey]. vm_compute in Hkey.
    repeat (destruct Hkey as [Hkey|Hkey]; [discriminate|]). exact Hkey. }
  cbn [layoutPattern patternProperties lookup].
  unfold alignment, propertyIs. rewrite Hnone. reflexivity.
Qed.

(** The centred row of the example document: its pattern says "start". *)
Lemma parsed_layouts_align_start_witness :
  In (layoutPattern Examples.centredRow) [] \/
  (patternType (layoutPattern Examples.centredRow) = "layout"%string /\
   lookup "alignment" (patternProperties (layoutPattern Examples.centredRow))
   = Some (JStr "start")).
Proof.
  refine (parsed_layouts_align_start "now" Examples.centredRowDocument initial
            (snd (parseJson "now" Examples.centredRowDocument initial)) _ _
            [] (layoutPattern Examples.centredRow) _).
  - reflexivity.
  - vm_compute. left. reflexivity.
Defined.

End LayoutPatterns.

(** ** Button patterns and their text child *)

Section ButtonText.

Import Js FigmaParser DesignAnalyzer.

(** X10. Every button pattern matches exactly two nodes, the candidate
    and the first text node among its children; its label is the text of
    that child, or "Button" when the child has no text, and it always
    has the four properties variant, size, label and disabled. *)
Theorem button_patterns_match_their_text_child :
  forall (nodes : list FigmaNode) (patterns : list ComponentPattern) (p : ComponentPattern),
    In p (detectButtonPatterns nodes patterns) ->
    In p patterns \/
    exists node child,
      In node nodes /\ In child nodes /\
      find (isTextChildOf node) nodes = Some child /\
      parentId child = Some (id node) /\ type child = "TEXT"%string /\
      patternNodeId p = id node /\
      matchedNodes p = [id node; id child] /\
      lookup "label" (patternProperties p)
      = Some (JStr (orDefault truthyString (characters (properties child)) "Button"%string)) /\
      map fst (patternProperties p) = ["variant"; "size"; "label"; "disabled"]%string.
Proof.
  intros nodes patterns p Hp. unfold detectButtonPatterns in Hp.
  apply in_app_or in Hp. destruct Hp as [Hp|Hp]; [now left|]. right.
  apply in_map_iff in Hp. destruct Hp as (node & <- & Hnode).
  apply filter_In in Hnode. destruct Hnode as [Hnode Hcand].
  unfold isButtonCandidate in Hcand. apply andb_true_iff in Hcand.
  destruct Hcand as [_ Htext].
  destruct (find (isTextChildOf node) nodes) as [child|] eqn:Hfind.
  - destruct (find_some _ _ Hfind) as [Hchild Hrel].
    unfold isTextChildOf in Hrel. apply andb_true_iff in Hrel. destruct Hrel as [Hpar Hty].
    exists node, child. unfold buttonPattern. rewrite Hfind.
    cbn [patternNodeId matchedNodes patternProperties map fst lookup buttonLabel].
    repeat split; try assumption; try reflexivity.
    + unfold optionEqb in Hpar. destruct (parentId child) as [q|]; [|discriminate].
      apply String.eqb_eq in Hpar. now subst.
    + now apply String.eqb_eq.
  - exfalso. apply existsb_exists in Htext. destruct Htext as (child & Hchild & Hrel).
    pose proof (find_none _ _ Hfind child Hchild) as Hno. congruence.
Qed.

(** The frame named "button" and its label. *)
Lemma button_patterns_match_their_text_child_witness :
  In (buttonPattern [Scenario.buttonFrame; Scenario.buttonLabel] Scenario.buttonFrame) [] \/
  exists node child,
    In node [Scenario.buttonFrame; Scenario.buttonLabel] /\
    In child [Scenario.buttonFrame; Scenario.buttonLabel] /\
    find (isTextChildOf node) [Scenario.buttonFrame; Scenario.buttonLabel] = Some child /\
    parentId child = Some (id node) /\ type child = "TEXT"%string /\
    patternNodeId (buttonPattern [Scenario.buttonFrame; Scenario.buttonLabel]
                                 Scenario.buttonFrame) = id node /\
    matchedNodes (buttonPattern [Scenario.buttonFrame; Scenario.buttonLabel]
                                Scenario.buttonFrame) = [id node; id child] /\
    lookup "label" (patternProperties (buttonPattern [Scenario.buttonFrame; Scenario.buttonLabel]
                                                     Scenario.buttonFrame))
    = Some (JStr (orDefault truthyString (characters (properties child)) "Button"%string)) /\
    map fst (patternProperties (buttonPattern [Scenario.buttonFrame; Scenario.buttonLabel]
                                              Scenario.buttonFrame))
    = ["variant"; "size"; "label"; "disabled"]%string.
Proof.
  apply (button_patterns_match_their_text_child
           [Scenario.buttonFrame; Scenario.buttonLabel] []).
  vm_compute. left. reflexivity.
Defined.

End ButtonText.
(** ** What a descending sort puts first *)

Section SortedFirst.

Import Selection.

Variable A : Type.
Variable key : A -> Q.

(** The comparator of a descending sort by [key]. *)
Let before (a b : A) : bool := Qle_bool (key b) (key a).

Lemma firstLargest_largest (l : list A) (x y : A) :
  firstLargest key l x -> In y l -> (key y <= key x)%Q.
Proof.
  intros (front & back & -> & Hfront & Hback) Hy.
  apply in_app_or in Hy. destruct Hy as [Hy|[<-|Hy]].
  - now apply Qlt_le_weak, Hfront.
  - apply Qle_refl.
  - now apply Hback.
Qed.

Lemma firstLargest_In (l : list A) (x : A) : firstLargest key l x -> In x l.
Proof. intros (front & back & -> & _). apply in_or_app. right. now left. Qed.

Lemma insertSorted_cons (x : A) (l : list A) :
  exists y rest, Js.insertSorted before x l = y :: rest.
Proof. destruct l as [|z l]; cbn; [eauto|]. destruct (before x z); eauto. Qed.

Lemma sortBy_nil (l : list A) : Js.sortBy before l = [] -> l = [].
Proof.
  destruct l as [|x l]; [reflexivity|]. unfold Js.sortBy. cbn [fold_right].
  destruct (insertSorted_cons x (fold_right (Js.insertSorted before) [] l)) as (y & rest & ->).
  discriminate.
Qed.

(** The head of the sorted list is the first of the largest entries. *)
Lemma sortBy_firstLargest (l : list A) :
  forall x rest, Js.sortBy before l = x :: rest -> firstLargest key l x.
Proof.
  induction l as [|y l IH]; intros x rest Hsort; [discriminate|].
  unfold Js.sortBy in Hsort. cbn [fold_right] in Hsort.
  fold (Js.sortBy before l) in Hsort.
  destruct (Js.sortBy before l) as [|z zs] eqn:Hl.
  - apply sortBy_nil in Hl. subst l. cbn in Hsort. inversion Hsort; subst.
    exists [], []. split; [reflexivity|]. split; intros w [].
  - specialize (IH z zs eq_refl). cbn [Js.insertSorted] in Hsort.
    unfold before at 1 in Hsort.
    destruct (Qle_bool (key z) (key y)) eqn:Hzy.
    + inversion Hsort; subst. apply Qle_bool_iff in Hzy.
      exists [], l. split; [reflexivity|]. split; [intros w []|].
      intros w Hw. eapply Qle_trans; [|exact Hzy].
      now apply (firstLargest_largest l).
    + inversion Hsort; subst. apply Qle_bool_false in Hzy.
      destruct IH as (front & back & -> & Hfront & Hback).
      exists (y :: front), back. split; [reflexivity|]. split; [|assumption].
      intros w [<-|Hw]; [assumption | now apply Hfront].
Qed.

End SortedFirst.

Section SortedPairs.

Import Selection.

(** The first of the largest pairs, by second component, of a list of
    pairs [(x, f x)]. *)
Lemma firstLargest_graph {A : Type} (f : A -> Q) (l : list A) (x : A) (q : Q) :
  firstLargest snd (map (fun y => (y, f y)) l) (x, q) ->
  q = f x /\ firstLargest f l x.
Proof.
  intros (front & back & Heq & Hfront & Hback).
  apply map_eq_app in Heq. destruct Heq as (l1 & l2' & -> & <- & Heq).
  apply map_eq_cons in Heq. destruct Heq as (x' & l2 & -> & Hx & <-).
  inversion Hx; subst. split; [reflexivity|].
  exists l1, l2. split; [reflexivity|]. split.
  - intros y Hy. exact (Hfront (y, f y) (in_map _ _ _ Hy)).
  - intros y Hy. exact (Hback (y, f y) (in_map _ _ _ Hy)).
Qed.

(** Sorting the pairs [(x, f x)] by their second component, largest
    first, puts in front the first of the entries with the largest
    value. *)
Lemma sorted_graph_head {A : Type} (f : A -> Q) (l : list A) :
  match Js.sortBy EdsMapper.bySimilarity (map (fun y => (y, f y)) l) with
  | [] => l = []
  | (x, q) :: _ => q = f x /\ firstLargest f l x
  end.
Proof.
  destruct (Js.sortBy EdsMapper.bySimilarity _) as [|[x q] rest] eqn:Hsort.
  - apply (sortBy_nil _ snd) in Hsort. now apply map_eq_nil in Hsort.
  - apply (sortBy_firstLargest _ snd) in Hsort. now apply firstLargest_graph.
Qed.

End SortedPairs.

(** ** Name similarity of 1, best property match, fallback pass *)

Section NameMatching.

Import FigmaParser EdsMapper Reference Selection.

Lemma list_ascii_injective (s t : string) :
  list_ascii_of_string s = list_ascii_of_string t -> s = t.
Proof.
  intro H. rewrite <- (string_of_list_ascii_of_string s), <- (string_of_list_ascii_of_string t).
  now rewrite H.
Qed.

Lemma levenshteinDistance_zero (s t : string) : levenshteinDistance s t = 0 -> s = t.
Proof.
  rewrite levenshteinDistance_levenshtein. intro H.
  apply list_ascii_injective. now apply levenshtein_zero.
Qed.

(** X11. Two names have similarity 1 exactly when their normalised
    forms are non-empty and equal: neither the containment rule nor the
    edit-distance rule ever gives 1. *)
Theorem similarity_is_one_iff_same_normalized_name :
  forall a b : string,
    (calculateNameSimilarity a b == 1)%Q <->
    (cleanName a = cleanName b /\ cleanName a <> EmptyString).
Proof.
  intros a b. rewrite similarity_unfold.
  destruct (String.eqb (cleanName a) EmptyString) eqn:Ha.
  { apply String.eqb_eq in Ha. cbn [orb]. split; [discriminate|]. intros [_ H]. contradiction. }
  destruct (String.eqb (cleanName b) EmptyString) eqn:Hb.
  { apply String.eqb_eq in Hb. cbn [orb]. split; [discriminate|].
    intros [Heq H]. congruence. }
  cbn [orb]. apply String.eqb_neq in Ha.
  destruct (String.eqb (cleanName a) (cleanName b)) eqn:Hab.
  { apply String.eqb_eq in Hab. split; [auto | reflexivity]. }
  apply String.eqb_neq in Hab.
  destruct (Js.includes _ _ || Js.includes _ _).
  { split; [discriminate | intros [H _]; contradiction]. }
  split; [|intros [H _]; contradiction].
  intro H. exfalso. apply Hab, levenshteinDistance_zero.
  assert (Hm : 0 < Nat.max (String.length (cleanName a)) (String.length (cleanName b))).
  { apply max_length_positive. now apply String.eqb_neq. }
  pose proof (pos_of_nat _ Hm) as Hp.
  unfold Qeq, Qminus, Qplus, Qopp in H. cbn [Qnum Qden] in H.
  rewrite ?Pos2Z.inj_mul, ?Hp in H. nia.
Qed.

(** X12. [findBestPropertyMatch] returns the first of the library
    component's property names that are most similar to the Figma
    property name, with that similarity, provided it exceeds 0.7; it
    returns nothing exactly when no property name exceeds 0.7. *)
Theorem best_property_match_is_first_best :
  forall (figmaProp : string) (eds : EDSComponent),
    match findBestPropertyMatch figmaProp eds with
    | Some (edsProp, similarity) =>
        similarity = calculateNameSimilarity figmaProp edsProp /\
        (7 # 10 < similarity)%Q /\
        firstLargest (calculateNameSimilarity figmaProp) (map fst (edsProperties eds)) edsProp
    | None =>
        forall edsProp, In edsProp (map fst (edsProperties eds)) ->
                        (calculateNameSimilarity figmaProp edsProp <= 7 # 10)%Q
    end.
Proof.
  intros figmaProp eds. unfold findBestPropertyMatch.
  pose proof (sorted_graph_head (calculateNameSimilarity figmaProp)
                                (map fst (edsProperties eds))) as Hhead.
  destruct (Js.sortBy bySimilarity _) as [|[edsProp sim] rest].
  - rewrite Hhead. intros edsProp [].
  - destruct Hhead as [Hsim Hfirst]. cbn [snd]. unfold Qgtb.
    destruct (Qle_bool sim (7 # 10)) eqn:Hle; cbn [negb].
    + apply Qle_bool_iff in Hle. intros other Hother.
      eapply Qle_trans; [|exact Hle]. subst sim.
      exact (firstLargest_largest _ _ _ _ _ Hfirst Hother).
    + apply Qle_bool_false in Hle. auto.
Qed.

End NameMatching.

(** ** Counting entries with distinct keys *)

Section Counting.

Variables A B K : Type.
Variable keyA : A -> K.
Variable keyB : B -> K.

Lemma NoDup_map_filter (f : A -> bool) (l : list A) :
  NoDup (map keyA l) -> NoDup (map keyA (filter f l)).
Proof.
  induction l as [|x l IH]; cbn [map filter]; intro H; [constructor|].
  inversion H as [|k ks Hnotin Hrest]; subst.
  destruct (f x); cbn [map]; [|now apply IH].
  constructor; [|now apply IH].
  intro Hin. apply Hnotin. apply in_map_iff in Hin. destruct Hin as (y & Hy & Hin).
  apply filter_In in Hin. rewrite <- Hy. apply in_map. apply Hin.
Qed.

(** At most one entry made from each item, with the item's key. *)
Lemma NoDup_flat_map (g : A -> list B) (l : list A) :
  (forall x, In x l -> g x = [] \/ exists m, g x = [m] /\ keyB m = keyA x) ->
  NoDup (map keyA l) -> NoDup (map keyB (flat_map g l)).
Proof.
  induction l as [|x l IH]; cbn [map flat_map]; intros Hg H; [constructor|].
  inversion H as [|k ks Hnotin Hrest]; subst.
  assert (IH' : NoDup (map keyB (flat_map g l))).
  { apply IH; [|assumption]. intros y Hy. apply Hg. now right. }
  destruct (Hg x (or_introl eq_refl)) as [->|(m & -> & Hm)]; [exact IH'|].
  cbn [app map]. constructor; [|exact IH'].
  rewrite Hm. intro Hin. apply Hnotin.
  apply in_map_iff in Hin. destruct Hin as (m' & Hk & Hin).
  apply in_flat_map in Hin. destruct Hin as (y & Hy & Hm').
  destruct (Hg y (or_intror Hy)) as [Hnil|(m'' & Hone & Hkey)].
  - rewrite Hnil in Hm'. destruct Hm'.
  - rewrite Hone in Hm'. destruct Hm' as [<-|[]]. rewrite <- Hk, Hkey. now apply in_map.
Qed.

Lemma filter_partition_length (f : A -> bool) (l : list A) :
  List.length (filter f l) + List.length (filter (fun x => negb (f x)) l) = List.length l.
Proof.
  induction l as [|x l IH]; cbn [filter List.length]; [reflexivity|].
  destruct (f x); cbn [negb List.length]; lia.
Qed.

(** The items whose key is among distinct keys, all of them keys of
    items, are as many as those keys. *)
Lemma count_keyed (f : A -> bool) (l : list A) (keys : list K) :
  NoDup (map keyA l) -> NoDup keys ->
  (forall x, In x l -> (f x = true <-> In (keyA x) keys)) ->
  (forall k, In k keys -> In k (map keyA l)) ->
  List.length (filter f l) = List.length keys.
Proof.
  intros Hl Hkeys Hf Hincl.
  rewrite <- (length_map keyA (filter f l)).
  apply Nat.le_antisymm.
  - apply NoDup_incl_length; [now apply NoDup_map_filter|].
    intros k Hk. apply in_map_iff in Hk. destruct Hk as (x & <- & Hx).
    apply filter_In in Hx. destruct Hx as [Hx Hfx]. now apply Hf.
  - apply NoDup_incl_length; [assumption|].
    intros k Hk. pose proof (Hincl k Hk) as Hin.
    apply in_map_iff in Hin. destruct Hin as (x & <- & Hx).
    apply in_map. apply filter_In. split; [assumption|]. now apply Hf.
Qed.

End Counting.

(** ** The fallback pass *)

Section FallbackPass.

Import FigmaParser EdsMapper EdsMapperPasses Reference Selection.

Lemma mapByName_appends (library : EDSLibrary) (mappings : list ComponentMapping)
    (figma : FigmaComponent) :
  mapByName library mappings figma = mappings ++ mapByName library [] figma.
Proof.
  unfold mapByName.
  destruct (Js.sortBy bySimilarity _) as [|[eds sim] rest]; [now rewrite app_nil_r|].
  destruct (Qgtb sim (6 # 10)); [reflexivity | now rewrite app_nil_r].
Qed.

(** A property mapping of the fallback pass pairs two names whose
    similarity exceeds 0.7. *)
Lemma findBestPropertyMatch_Some (figmaProp : string) (eds : EDSComponent)
    (edsProp : string) (sim : Q) :
  findBestPropertyMatch figmaProp eds = Some (edsProp, sim) ->
  sim = calculateNameSimilarity figmaProp edsProp /\ (7 # 10 < sim)%Q /\
  firstLargest (calculateNameSimilarity figmaProp) (map fst (edsProperties eds)) edsProp.
Proof.
  unfold findBestPropertyMatch.
  pose proof (sorted_graph_head (calculateNameSimilarity figmaProp)
                                (map fst (edsProperties eds))) as Hhead.
  destruct (Js.sortBy bySimilarity _) as [|[best q] rest]; [discriminate|].
  destruct Hhead as [Hq Hfirst]. cbn [snd]. unfold Qgtb.
  destruct (Qle_bool q (7 # 10)) eqn:Hle; cbn [negb]; [discriminate|].
  intro H. inversion H; subst. apply Qle_bool_false in Hle.
  repeat split; assumption.
Qed.

(** No match means that no property name is similar enough. *)
Lemma findBestPropertyMatch_None (figmaProp : string) (eds : EDSComponent) :
  findBestPropertyMatch figmaProp eds = None ->
  forall edsProp, In edsProp (map fst (edsProperties eds)) ->
                  (calculateNameSimilarity figmaProp edsProp <= 7 # 10)%Q.
Proof.
  unfold findBestPropertyMatch.
  pose proof (sorted_graph_head (calculateNameSimilarity figmaProp)
                                (map fst (edsProperties eds))) as Hhead.
  destruct (Js.sortBy bySimilarity _) as [|[best q] rest].
  - rewrite Hhead. intros _ edsProp [].
  - destruct Hhead as [Hq Hfirst]. cbn [snd]. unfold Qgtb.
    destruct (Qle_bool q (7 # 10)) eqn:Hle; cbn [negb]; [|discriminate].
    intros _ edsProp Hin. apply Qle_bool_iff in Hle.
    eapply Qle_trans; [|exact Hle]. subst q.
    exact (firstLargest_largest _ _ _ _ _ Hfirst Hin).
Qed.

(** *** The keys of a component's properties *)

Lemma distinctKeys_In (keys : list string) :
  forall (seen : list string) (key : string),
    In key (distinctKeys seen keys) <-> In key keys /\ ~ In key seen.
Proof.
  induction keys as [|k keys IH]; intros seen key; cbn [distinctKeys In]; [tauto|].
  destruct (existsb (String.eqb k) seen) eqn:Hseen.
  - apply existsb_exists in Hseen. destruct Hseen as (k' & Hk' & Heq).
    apply String.eqb_eq in Heq. subst k'. rewrite IH. split.
    + intros [H1 H2]. auto.
    + intros [[->|H1] H2]; [contradiction | auto].
  - assert (Hnot : ~ In k seen).
    { intro Hin. assert (existsb (String.eqb k) seen = true) as Habs; [|congruence].
      apply existsb_exists. exists k. split; [assumption | apply String.eqb_refl]. }
    cbn [In]. rewrite IH. cbn [In]. split.
    + intros [->|[H1 H2]]; [auto|]. split; [auto|]. intro H. apply H2. now right.
    + intros [[->|H1] H2]; [now left|].
      destruct (string_dec k key) as [->|Hne]; [now left|].
      right. split; [assumption|]. intros [H|H]; [contradiction | now apply H2].
Qed.

Lemma distinctKeys_NoDup (keys : list string) :
  forall seen : list string, NoDup (distinctKeys seen keys).
Proof.
  induction keys as [|k keys IH]; intro seen; cbn [distinctKeys]; [constructor|].
  destruct (existsb (String.eqb k) seen); [apply IH|].
  constructor; [|apply IH].
  intro H. apply distinctKeys_In in H. destruct H as [_ H]. apply H. now left.
Qed.

Lemma lookup_key {A : Type} (key : string) (table : list (string * A)) :
  lookup key table <> None <-> In key (map fst table).
Proof.
  induction table as [|[k v] table IH]; cbn [lookup map fst In]; [tauto|].
  destruct (String.eqb_spec k key) as [->|Hne].
  - split; [now left | discriminate].
  - rewrite IH. split; [now right | intros [H|H]; [contradiction | assumption]].
Qed.

Lemma propertyKeyOrder_NoDup : NoDup propertyKeyOrder.
Proof.
  assert (H : nodup string_dec propertyKeyOrder = propertyKeyOrder) by (vm_compute; reflexivity).
  rewrite <- H. apply NoDup_nodup.
Qed.

(** A key [traverseNodes] does not know is looked up in [other]. *)
Lemma propertyValue_other (p : Properties) (key : string) :
  ~ In key propertyKeyOrder ->
  propertyValue p key = option_map PJson (lookup key (other p)).
Proof.
  intro Hnot.
  assert (Hne : forall known, existsb (String.eqb known) propertyKeyOrder = true ->
                              String.eqb key known = false).
  { intros known Hknown. apply String.eqb_neq. intros ->. apply Hnot.
    apply existsb_exists in Hknown. destruct Hknown as (k & Hk & Heq).
    apply String.eqb_eq in Heq. now subst k. }
  unfold propertyValue.
  rewrite !Hne by reflexivity. reflexivity.
Qed.

(** [propertyKeys] lists the keys under which the object holds a value. *)
Lemma propertyKeys_In (p : Properties) (key : string) :
  In key (propertyKeys p) <-> propertyValue p key <> None.
Proof.
  unfold propertyKeys. rewrite in_app_iff, filter_In, distinctKeys_In. split.
  - intros [[_ H]|[Hin Hnot]].
    + destruct (propertyValue p key); [discriminate | discriminate].
    + rewrite (propertyValue_other p key Hnot).
      apply lookup_key in Hin. destruct (lookup key (other p)); [discriminate | contradiction].
  - intro H. destruct (in_dec string_dec key propertyKeyOrder) as [Hin|Hnot].
    + left. split; [assumption|]. destruct (propertyValue p key); [reflexivity | contradiction].
    + right. split; [|assumption]. apply lookup_key.
      rewrite (propertyValue_other p key Hnot) in H.
      destruct (lookup key (other p)); [discriminate | contradiction].
Qed.

Lemma propertyKeys_NoDup (p : Properties) : NoDup (propertyKeys p).
Proof.
  unfold propertyKeys. apply NoDup_app.
  - apply NoDup_filter, propertyKeyOrder_NoDup.
  - apply distinctKeys_NoDup.
  - intros key Hin Hout. apply filter_In in Hin. apply distinctKeys_In in Hout.
    destruct Hin as [Hin _], Hout as [_ Hout]. contradiction.
Qed.

(** The keys that get a property mapping, in order. *)
Lemma mapped_keys {A : Type} (found : string -> option A) (entry : string -> A -> PropertyMapping)
    (keys : list string) :
  (forall key x, figmaProperty (entry key x) = key) ->
  map figmaProperty
      (flat_map (fun key => match found key with
                            | Some x => [entry key x]
                            | None => []
                            end) keys)
  = filter (fun key => match found key with Some _ => true | None => false end) keys.
Proof.
  intro Hentry. induction keys as [|key keys IH]; [reflexivity|].
  cbn [flat_map filter]. rewrite map_app, IH.
  destruct (found key); [cbn [map app]; now rewrite Hentry | reflexivity].
Qed.

Lemma mapByName_new (library : EDSLibrary) (figma : FigmaComponent) :
  (mapByName library [] figma = [] /\
   forall eds, In eds (libraryComponents library) ->
               (calculateNameSimilarity (componentName figma) (edsName eds) <= 6 # 10)%Q) \/
  exists m, mapByName library [] figma = [m] /\ bestNameMatch library figma m.
Proof.
  unfold mapByName.
  pose proof (sorted_graph_head
                (fun eds0 => calculateNameSimilarity (componentName figma) (edsName eds0))
                (libraryComponents library)) as Hhead.
  destruct (Js.sortBy bySimilarity _) as [|[eds sim] rest].
  - left. split; [reflexivity|]. rewrite Hhead. intros eds [].
  - destruct Hhead as [Hsim Hfirst]. unfold Qgtb.
    destruct (Qle_bool sim (6 # 10)) eqn:Hle; cbn [negb].
    + left. split; [reflexivity|]. apply Qle_bool_iff in Hle.
      intros other Hother. eapply Qle_trans; [|exact Hle]. subst sim.
      exact (firstLargest_largest _ _ _ _ _ Hfirst Hother).
    + right. apply Qle_bool_false in Hle. eexists. split; [reflexivity|].
      unfold bestNameMatch.
      cbn [figmaComponent edsComponent confidence patternType matchedNodes propertyMappings].
      repeat (split; [first [reflexivity | assumption]|]).
      assert (Hkeys :
                map figmaProperty
                    (flat_map (fun figmaProp =>
                                 match findBestPropertyMatch figmaProp eds with
                                 | Some (edsProp, s) =>
                                     [{| figmaProperty := figmaProp;
                                         edsProperty := edsProp;
                                         mappedValue :=
                                           propertyValue (componentProperties figma) figmaProp;
                                         propertyConfidence := s |}]
                                 | None => []
                                 end) (propertyKeys (componentProperties figma)))
                = filter (fun key => match findBestPropertyMatch key eds with
                                     | Some _ => true
                                     | None => false
                                     end) (propertyKeys (componentProperties figma))).
      { rewrite <- (mapped_keys (fun key => findBestPropertyMatch key eds)
                               (fun key found =>
                                  {| figmaProperty := key;
                                     edsProperty := fst found;
                                     mappedValue := propertyValue (componentProperties figma) key;
                                     propertyConfidence := snd found |}))
          by reflexivity.
        f_equal. apply flat_map_ext. intro key.
        now destruct (findBestPropertyMatch key eds) as [[edsProp s]|]. }
      split; [|split].
      * apply Forall_forall. intros pm Hpm. apply in_flat_map in Hpm.
        destruct Hpm as (figmaProp & Hkey & Hpm).
        destruct (findBestPropertyMatch figmaProp eds) as [[edsProp s]|] eqn:Hbest;
          [|destruct Hpm].
        destruct Hpm as [<-|[]].
        cbn [propertyConfidence figmaProperty edsProperty mappedValue].
        destruct (findBestPropertyMatch_Some _ _ _ _ Hbest) as (Hs & Hgt & Hbestfirst).
        repeat split; try assumption.
        exact (firstLargest_In _ _ _ _ Hbestfirst).
      * rewrite Hkeys. apply NoDup_filter, propertyKeys_NoDup.
      * intros key edsProp Hkey Hprop Hgt. rewrite Hkeys. apply filter_In.
        split; [assumption|].
        destruct (findBestPropertyMatch key eds) eqn:Hbest; [reflexivity|].
        exfalso. exact (Qlt_not_le _ _ Hgt (findBestPropertyMatch_None _ _ Hbest _ Hprop)).
Qed.

(** What the fallback pass adds. *)
Lemma fallback_outcome (library : EDSLibrary) (figmaComponents : list FigmaComponent)
    (mappings : list ComponentMapping) :
  exists added : list ComponentMapping,
    mapComponentsBasedOnNameAndProperties library figmaComponents mappings
    = mappings ++ added /\
    List.length added <= List.length (filter (isUnmapped mappings) figmaComponents) /\
    Forall (fun m => In (figmaComponent m) figmaComponents /\
                     isUnmapped mappings (figmaComponent m) = true /\
                     bestNameMatch library (figmaComponent m) m)
           added /\
    (forall figma eds,
        In figma figmaComponents -> isUnmapped mappings figma = true ->
        In eds (libraryComponents library) ->
        (6 # 10 < calculateNameSimilarity (componentName figma) (edsName eds))%Q ->
        exists m, In m added /\ figmaComponent m = figma) /\
    (NoDup (map componentId figmaComponents) ->
     NoDup (map (fun m => componentId (figmaComponent m)) added)).
Proof.
  unfold mapComponentsBasedOnNameAndProperties.
  change (fun component : FigmaComponent =>
            negb (existsb (fun mapping : ComponentMapping =>
                             String.eqb (componentId (figmaComponent mapping))
                                        (componentId component)) mappings))
    with (isUnmapped mappings).
  assert (Hnodup : NoDup (map componentId figmaComponents) ->
                   NoDup (map componentId (filter (isUnmapped mappings) figmaComponents))).
  { apply NoDup_map_filter. }
  set (unmapped := filter (isUnmapped mappings) figmaComponents) in *.
  assert (Hin : forall figma, In figma unmapped <->
                              In figma figmaComponents /\ isUnmapped mappings figma = true).
  { intro figma. apply filter_In. }
  clearbody unmapped.
  exists (flat_map (mapByName library []) unmapped).
  split; [|split; [|split; [|split]]].
  - apply fold_left_append. intros acc figma _. apply mapByName_appends.
  - clear Hin Hnodup.
    induction unmapped as [|figma rest IH]; cbn [flat_map List.length]; [lia|].
    rewrite length_app.
    destruct (mapByName_new library figma) as [[-> _]|(m & -> & _)]; cbn [List.length]; lia.
  - apply Forall_forall. intros m Hm. apply in_flat_map in Hm.
    destruct Hm as (figma & Hfigma & Hm).
    destruct (mapByName_new library figma) as [[Hnone _]|(m' & Hone & Hbest)].
    + rewrite Hnone in Hm. destruct Hm.
    + rewrite Hone in Hm. destruct Hm as [<-|[]].
      assert (Hfig : figmaComponent m' = figma) by apply Hbest. rewrite Hfig.
      apply Hin in Hfigma. destruct Hfigma as [Hf1 Hf2].
      split; [exact Hf1 | split; [exact Hf2 | exact Hbest]].
  - intros figma eds Hfigma Hun Heds Hsim.
    destruct (mapByName_new library figma) as [[_ Hlow]|(m & Hone & Hbest)].
    + exfalso. exact (Qlt_not_le _ _ Hsim (Hlow eds Heds)).
    + exists m. split; [|apply Hbest].
      apply in_flat_map. exists figma. split; [now apply Hin|]. rewrite Hone. now left.
  - intro Hnd. apply (NoDup_flat_map _ _ _ componentId); [|now apply Hnodup].
    intros figma _.
    destruct (mapByName_new library figma) as [[Hnone _]|(m & Hone & Hbest)];
      [now left | right].
    exists m. split; [assumption|]. now replace (figmaComponent m) with figma by (symmetry; apply Hbest).
Qed.

(** X13. The fallback pass keeps the mappings it finds and adds at most
    one for each component that has none yet (by component id): the
    component is bound to the first of the library components with the
    most similar name, provided that similarity exceeds 0.6, which then
    is the confidence; a component without mapping for which a library
    name exceeds 0.6 always gets one.  The property mappings of such a
    mapping go through the keys of the component's properties, which are
    all the keys under which it holds a value, whether the parser sets
    them or not: a key is mapped, once, exactly when some property name
    of the library component is more similar to it than 0.7, to the
    first of the most similar ones, with that similarity as confidence
    and the value held under the key. *)
Theorem fallback_binds_most_similar_name :
  forall (library : EDSLibrary) (figmaComponents : list FigmaComponent)
         (mappings : list ComponentMapping),
    (exists added : list ComponentMapping,
        mapComponentsBasedOnNameAndProperties library figmaComponents mappings
        = mappings ++ added /\
        List.length added <= List.length (filter (isUnmapped mappings) figmaComponents) /\
        Forall (fun m => In (figmaComponent m) figmaComponents /\
                         isUnmapped mappings (figmaComponent m) = true /\
                         bestNameMatch library (figmaComponent m) m)
               added /\
        (forall figma eds,
            In figma figmaComponents -> isUnmapped mappings figma = true ->
            In eds (libraryComponents library) ->
            (6 # 10 < calculateNameSimilarity (componentName figma) (edsName eds))%Q ->
            exists m, In m added /\ figmaComponent m = figma)) /\
    (forall (figma : FigmaComponent) (key : string),
        In key (propertyKeys (componentProperties figma)) <->
        propertyValue (componentProperties figma) key <> None) /\
    (forall (figma : FigmaComponent) (key : string) (value : Json),
        ~ In key propertyKeyOrder ->
        lookup key (other (componentProperties figma)) = Some value ->
        propertyValue (componentProperties figma) key = Some (PJson value)).
Proof.
  intros library figmaComponents mappings. split; [|split].
  - destruct (fallback_outcome library figmaComponents mappings)
      as (added & H1 & H2 & H3 & H4 & _).
    exists added. auto.
  - intros figma key. apply propertyKeys_In.
  - intros figma key value Hnot Hvalue.
    now rewrite (propertyValue_other _ _ Hnot), Hvalue.
Qed.

(** On the button of the repository's test utilities, whose properties
    are [variant], [size] and [label], the pass maps all three. *)
Lemma fallback_maps_unknown_keys :
  map (fun m => (mappingId m,
                 map (fun pm => (figmaProperty pm, edsProperty pm, mappedValue pm))
                     (propertyMappings m)))
      (mapComponentsBasedOnNameAndProperties Examples.mockLibrary [Examples.mockButton] [])
  = [("mapping-component-1-eds-button"%string,
      [("variant"%string, "variant"%string, Some (PJson (JStr "primary")));
       ("size"%string, "size"%string, Some (PJson (JStr "medium")));
       ("label"%string, "label"%string, Some (PJson (JStr "Button")))])].
Proof. vm_compute. reflexivity. Qed.

End FallbackPass.
(** ** Order statistics of the font sizes *)

Section SortedDescending.

Variable A : Type.
Variable key : A -> Q.

Let before (a b : A) : bool := Qle_bool (key b) (key a).

Lemma insertSorted_permutation (x : A) (l : list A) :
  Permutation (Js.insertSorted before x l) (x :: l).
Proof.
  induction l as [|y l IH]; cbn [Js.insertSorted]; [reflexivity|].
  destruct (before x y); [reflexivity|].
  rewrite IH. apply perm_swap.
Qed.

Lemma sortBy_permutation (l : list A) : Permutation (Js.sortBy before l) l.
Proof.
  induction l as [|x l IH]; [reflexivity|].
  unfold Js.sortBy in *. cbn [fold_right].
  rewrite insertSorted_permutation. now constructor.
Qed.

Lemma insertSorted_sorted (x : A) (l : list A) :
  StronglySorted (fun a b => (key b <= key a)%Q) l ->
  StronglySorted (fun a b => (key b <= key a)%Q) (Js.insertSorted before x l).
Proof.
  induction l as [|y l IH]; intro Hl; cbn [Js.insertSorted].
  - constructor; constructor.
  - inversion Hl as [|y' l' Hrest Hy]; subst. unfold before at 1.
    destruct (Qle_bool (key y) (key x)) eqn:Hyx.
    + apply Qle_bool_iff in Hyx. constructor; [exact Hl|].
      constructor; [exact Hyx|].
      rewrite Forall_forall in *. intros z Hz.
      eapply Qle_trans; [apply Hy, Hz | exact Hyx].
    + apply Qle_bool_false in Hyx. constructor; [now apply IH|].
      rewrite Forall_forall in *. intros z Hz.
      apply (Permutation_in _ (insertSorted_permutation x l)) in Hz.
      destruct Hz as [<-|Hz]; [now apply Qlt_le_weak | now apply Hy].
Qed.

Lemma sortBy_sorted (l : list A) :
  StronglySorted (fun a b => (key b <= key a)%Q) (Js.sortBy before l).
Proof.
  induction l as [|x l IH]; [constructor|].
  unfold Js.sortBy in *. cbn [fold_right]. now apply insertSorted_sorted.
Qed.

End SortedDescending.

Section FontSizes.

Import DesignAnalyzerTypography Selection.

(** X27. [findSecondLargest] and [findThirdLargest] return nothing for
    fewer than two, respectively three, values; otherwise the value they
    return is such that the values can be listed with one, respectively
    two, values that are at least as large in front of it and all the
    others, none larger, behind it. *)
Theorem second_and_third_largest :
  forall values : list Q,
    match findSecondLargest values with
    | Some second =>
        exists first rest,
          Permutation values (first :: second :: rest) /\
          (second <= first)%Q /\ forall x, In x rest -> (x <= second)%Q
    | None => List.length values < 2
    end /\
    match findThirdLargest values with
    | Some third =>
        exists first second rest,
          Permutation values (first :: second :: third :: rest) /\
          (second <= first)%Q /\ (third <= second)%Q /\
          forall x, In x rest -> (x <= third)%Q
    | None => List.length values < 3
    end.
Proof.
  intro values.
  assert (Hperm : Permutation (Js.sortBy descending values) values)
    by exact (sortBy_permutation Q (fun q => q) values).
  assert (Hsorted : StronglySorted (fun a b => (b <= a)%Q) (Js.sortBy descending values))
    by exact (sortBy_sorted Q (fun q => q) values).
  pose proof (Permutation_length Hperm) as Hlen.
  unfold findSecondLargest, findThirdLargest.
  destruct (Js.sortBy descending values) as [|a [|b [|c rest]]]; cbn [List.length] in Hlen.
  - rewrite <- Hlen. cbn. split; lia.
  - rewrite <- Hlen. cbn. split; lia.
  - rewrite <- Hlen. cbn [Nat.ltb Nat.leb nth_error]. split; [|lia].
    exists a, []. split; [now symmetry|].
    inversion Hsorted as [|x l _ Ha]; subst. inversion Ha; subst. split; [assumption|].
    intros x [].
  - assert (H2 : (List.length values <? 2) = false) by (apply Nat.ltb_ge; lia).
    assert (H3 : (List.length values <? 3) = false) by (apply Nat.ltb_ge; lia).
    rewrite H2, H3. cbn [nth_error].
    inversion Hsorted as [|x l Htail Ha]; subst.
    inversion Htail as [|x l Htail' Hb]; subst.
    inversion Htail' as [|x l _ Hc]; subst.
    inversion Ha as [|x l Hab Ha']; subst. inversion Hb as [|x l Hbc Hb']; subst.
    rewrite Forall_forall in Hb', Hc. split.
    + exists a, (c :: rest). split; [now symmetry|]. split; [assumption|].
      intros x [<-|Hx]; [assumption | now apply Hb'].
    + exists a, b, rest. split; [now symmetry|]. repeat split; try assumption.
Qed.

(** X28. [findMostCommonInRange] returns the size of the first of the
    most used entries whose size lies in the range, bounds included, and
    nothing exactly when no entry lies in the range. *)
Theorem most_common_size_in_range :
  forall (values : list SizeUsage) (min max : Q),
    match findMostCommonInRange values min max with
    | Some size =>
        exists entry,
          usedSize entry = size /\ (min <= size)%Q /\ (size <= max)%Q /\
          firstLargest (fun v => inject_Z (Z.of_nat (usedCount v)))
                       (filter (isInRange min max) values) entry /\
          forall v, In v values -> (min <= usedSize v)%Q -> (usedSize v <= max)%Q ->
                    usedCount v <= usedCount entry
    | None =>
        forall v, In v values -> ~ ((min <= usedSize v)%Q /\ (usedSize v <= max)%Q)
    end.
Proof.
  intros values min max. unfold findMostCommonInRange.
  assert (Hrange : forall v, isInRange min max v = true <->
                             (min <= usedSize v)%Q /\ (usedSize v <= max)%Q).
  { intro v. unfold isInRange. now rewrite andb_true_iff, !Qle_bool_iff. }
  destruct (Js.sortBy byCount _) as [|first rest] eqn:Hsort.
  - apply (sortBy_nil _ (fun v => inject_Z (Z.of_nat (usedCount v)))) in Hsort.
    intros v Hv Hin. apply Hrange in Hin.
    assert (H : In v (filter (isInRange min max) values)) by now apply filter_In.
    rewrite Hsort in H. destruct H.
  - apply (sortBy_firstLargest _ (fun v => inject_Z (Z.of_nat (usedCount v)))) in Hsort.
    exists first. split; [reflexivity|].
    pose proof (firstLargest_In _ _ _ _ Hsort) as Hin. apply filter_In in Hin.
    destruct Hin as [_ Hin]. apply Hrange in Hin. destruct Hin as [Hlo Hhi].
    repeat split; try assumption.
    intros v Hv Hvlo Hvhi.
    assert (H : In v (filter (isInRange min max) values)).
    { apply filter_In. split; [assumption|]. now apply Hrange. }
    pose proof (firstLargest_largest _ _ _ _ _ Hsort H) as Hle. cbn beta in Hle.
    rewrite <- Zle_Qle in Hle. lia.
Qed.

End FontSizes.
(** ** The pattern pass *)

Section PatternPass.

Import FigmaParser EdsMapper EdsMapperPasses Reference Selection.

Variable toNumber : Json -> option Q.

Lemma matchingEdsComponents_head (library : EDSLibrary) (figma : FigmaComponent)
    (top : DesignAnalyzer.ComponentPattern) (eds : EDSComponent) (rest : list EDSComponent) :
  matchingEdsComponents library figma top = eds :: rest ->
  firstLargest (fun e => calculateNameSimilarity (componentName figma) (edsName e))
               (filter (fun e => String.eqb (Js.toLowerCase (edsType e))
                                            (Js.toLowerCase (DesignAnalyzer.patternType top)))
                       (libraryComponents library))
               eds.
Proof.
  unfold matchingEdsComponents.
  set (matching := filter _ (libraryComponents library)).
  destruct (1 <? List.length matching) eqn:Hlen.
  - intro Hsort.
    exact (sortBy_firstLargest _
             (fun e => calculateNameSimilarity (componentName figma) (edsName e))
             matching eds rest Hsort).
  - intro Heq. apply Nat.ltb_ge in Hlen. rewrite Heq in *. cbn [List.length] in Hlen.
    destruct rest; [|cbn [List.length] in Hlen; lia].
    exists [], []. split; [reflexivity|]. split; intros y [].
Qed.

(** What the pattern pass does for one component. *)
Lemma mapByPattern_outcome (library : EDSLibrary)
    (detected : list DesignAnalyzer.ComponentPattern) (mappings : list ComponentMapping)
    (figma : FigmaComponent) :
  match mapByPattern toNumber library detected mappings figma with
  | inr result =>
      result = mappings \/
      exists m top,
        result = mappings ++ [m] /\ topPatternMatch library detected figma m /\
        In top detected /\ confidence m = DesignAnalyzer.confidence top /\
        mapPatternProperties toNumber top (edsComponent m) = inr (propertyMappings m)
  | inl thrown =>
      thrown = TypeError /\
      exists top eds, In top detected /\ DesignAnalyzer.patternType top = "layout"%string /\
                      In eds (libraryComponents library) /\
                      mapLayoutProperties top eds = inl TypeError
  end.
Proof.
  unfold mapByPattern.
  destruct (Js.sortBy byConfidence _) as [|top tops] eqn:Hsort; [now left|].
  apply (sortBy_firstLargest _ DesignAnalyzer.confidence) in Hsort.
  assert (Htop : In top detected).
  { apply firstLargest_In in Hsort. unfold patternsOf in Hsort.
    now apply filter_In in Hsort. }
  destruct (matchingEdsComponents library figma top) as [|eds others] eqn:Hmatch; [now left|].
  apply matchingEdsComponents_head in Hmatch.
  destruct (mapPatternProperties toNumber top eds) as [thrown|props] eqn:Hprops.
  - unfold mapPatternProperties in Hprops.
    destruct (String.eqb (DesignAnalyzer.patternType top) "button"); [discriminate|].
    destruct (String.eqb (DesignAnalyzer.patternType top) "input"); [discriminate|].
    destruct (String.eqb (DesignAnalyzer.patternType top) "card"); [discriminate|].
    destruct (String.eqb (DesignAnalyzer.patternType top) "navigation"); [discriminate|].
    destruct (String.eqb (DesignAnalyzer.patternType top) "layout") eqn:Hlayout; [|discriminate].
    apply String.eqb_eq in Hlayout.
    assert (Hthrown : thrown = TypeError).
    { unfold mapLayoutProperties in Hprops.
      destruct (has "type" _ && has "display" _); [|discriminate].
      destruct (lookup "type" _) as [[| | | | |]|]; now inversion Hprops. }
    subst thrown. split; [reflexivity|]. exists top, eds.
    repeat split; try assumption.
    pose proof (firstLargest_In _ _ _ _ Hmatch) as Hin. now apply filter_In in Hin.
  - right. eexists. exists top. split; [reflexivity|].
    cbn [confidence edsComponent propertyMappings]. repeat split; try assumption.
    exists top. cbn [patternType confidence matchedNodes edsComponent].
    repeat split; try assumption.
    pose proof (firstLargest_In _ _ _ _ Hmatch) as Hin. apply filter_In in Hin.
    now apply String.eqb_eq.
Qed.

(** The pattern pass as a whole: the mappings it adds, one at most per
    component, in the order of the components. *)
Lemma mapComponentsBasedOnPatterns_outcome (library : EDSLibrary)
    (detected : list DesignAnalyzer.ComponentPattern) (components : list FigmaComponent) :
  forall mappings,
  exists added,
    snd (mapComponentsBasedOnPatterns toNumber library components detected mappings)
    = mappings ++ added /\
    Forall (fun m => In (figmaComponent m) components /\
                     topPatternMatch library detected (figmaComponent m) m /\
                     exists top, In top detected /\
                                 confidence m = DesignAnalyzer.confidence top /\
                                 mapPatternProperties toNumber top (edsComponent m)
                                 = inr (propertyMappings m))
           added /\
    (forall chosen : FigmaComponent -> bool,
        Forall (fun m => chosen (figmaComponent m) = true) added ->
        List.length added <= List.length (filter chosen components)) /\
    (NoDup (map componentId components) ->
     NoDup (map (fun m => componentId (figmaComponent m)) added)) /\
    (fst (mapComponentsBasedOnPatterns toNumber library components detected mappings)
     = Some TypeError \/
     fst (mapComponentsBasedOnPatterns toNumber library components detected mappings) = None).
Proof.
  unfold mapComponentsBasedOnPatterns.
  induction components as [|figma rest IH]; intro mappings; cbn [forEach].
  - exists []. rewrite app_nil_r. cbn. repeat split; auto; try constructor; intros; lia.
  - pose proof (mapByPattern_outcome library detected mappings figma) as Hstep.
    destruct (mapByPattern toNumber library detected mappings figma) as [thrown|result].
    + exists []. rewrite app_nil_r. cbn [snd fst List.length map].
      destruct Hstep as [-> _]. repeat split; auto; try constructor; intros; lia.
    + destruct (IH result) as (added & Hsnd & Hall & Hlen & Hnodup & Hfst).
      assert (Hweak : Forall (fun m => In (figmaComponent m) (figma :: rest) /\
                                       topPatternMatch library detected (figmaComponent m) m /\
                                       exists top, In top detected /\
                                         confidence m = DesignAnalyzer.confidence top /\
                                         mapPatternProperties toNumber top (edsComponent m)
                                         = inr (propertyMappings m)) added).
      { eapply Forall_impl; [|exact Hall]. intros m (H1 & H2). split; [now right | exact H2]. }
      destruct Hstep as [->|(m & top & -> & Hm & Htop & Hconf & Hprops)].
      * exists added. rewrite Hsnd. split; [reflexivity|]. split; [exact Hweak|].
        split; [|split; [|exact Hfst]].
        -- intros chosen Hchosen. specialize (Hlen chosen Hchosen). cbn [filter].
           destruct (chosen figma); cbn [List.length]; lia.
        -- intro Hnd. cbn [map] in Hnd. inversion Hnd; subst. now apply Hnodup.
      * exists (m :: added). rewrite Hsnd, <- app_assoc. split; [reflexivity|].
        assert (Hfig : figmaComponent m = figma) by apply Hm.
        split; [|split; [|split; [|exact Hfst]]].
        -- constructor; [|exact Hweak]. rewrite Hfig.
           split; [now left | split; [exact Hm | now exists top]].
        -- intros chosen Hchosen. inversion Hchosen as [|x l Hx Hrest]; subst.
           specialize (Hlen chosen Hrest). cbn [filter]. rewrite Hx.
           cbn [List.length]. lia.
        -- intro Hnd. cbn [map] in *. inversion Hnd as [|x l Hnotin Hnd']; subst.
           constructor; [|now apply Hnodup]. intro Hin.
           apply Hnotin. apply in_map_iff in Hin. destruct Hin as (m' & Hid & Hm').
           rewrite Forall_forall in Hall. destruct (Hall m' Hm') as [Hin' _].
           rewrite <- Hid. now apply in_map.
Qed.

End PatternPass.
(** ** Confidence of the mappings *)

Section MappingConfidence.

Import FigmaParser EdsMapper EdsMapperPasses Reference Selection.

Variable toNumber : Json -> option Q.

Lemma pushIf_confidence (condition : bool) (figmaProp edsProp : string)
    (value : option PropValue) (c : Q) :
  inUnitInterval c ->
  Forall (fun pm => inUnitInterval (propertyConfidence pm))
         (pushIf condition figmaProp edsProp value c).
Proof. intro H. unfold pushIf. destruct condition; repeat constructor; apply H. Qed.

(** Splits a list of pushed entries and settles each confidence. *)
Ltac all_confident :=
  repeat first [ apply Forall_nil
               | apply Forall_cons; [assumption|]
               | apply Forall_app; split
               | apply pushIf_confidence; assumption ].

Lemma cardRadiusMapping_confidence (radius : Json) :
  inUnitInterval (propertyConfidence (cardRadiusMapping toNumber radius)).
Proof.
  unfold cardRadiusMapping. destruct (includesValue standardSizes radius).
  - split; discriminate.
  - cbn [propertyConfidence]. destruct (strictEqNum radius _); split; discriminate.
Qed.

(** Every property mapping of the pattern pass has a confidence of 0.7,
    0.8 or 0.9. *)
Lemma mapPatternProperties_confidence (top : DesignAnalyzer.ComponentPattern)
    (eds : EDSComponent) (props : list PropertyMapping) :
  mapPatternProperties toNumber top eds = inr props ->
  Forall (fun pm => inUnitInterval (propertyConfidence pm)) props.
Proof.
  assert (U9 : inUnitInterval (9 # 10)) by (split; discriminate).
  assert (U8 : inUnitInterval (8 # 10)) by (split; discriminate).
  assert (U7 : inUnitInterval (7 # 10)) by (split; discriminate).
  unfold mapPatternProperties.
  destruct (String.eqb _ "button").
  { intro H. inversion H. unfold mapButtonProperties. all_confident. }
  destruct (String.eqb _ "input").
  { intro H. inversion H. unfold mapInputProperties. all_confident. }
  destruct (String.eqb _ "card").
  { intro H. inversion H. unfold mapCardProperties. all_confident.
    destruct (lookup "cornerRadius" _); [|constructor].
    destruct (defined "borderRadius" _);
      [constructor; [apply cardRadiusMapping_confidence | constructor] | constructor]. }
  destruct (String.eqb _ "navigation").
  { intro H. inversion H. unfold mapNavigationProperties. all_confident. }
  destruct (String.eqb _ "layout"); [|intro H; inversion H; constructor].
  unfold mapLayoutProperties.
  destruct (has "type" _ && has "display" _).
  - destruct (lookup "type" _) as [[| | |t| |]|]; try discriminate.
    intro H. inversion H. cbn [app]. all_confident.
  - intro H. inversion H. cbn [app]. all_confident.
Qed.

Lemma blend_in_unit_interval (c avg : Q) :
  inUnitInterval c -> inUnitInterval avg -> inUnitInterval (c * (6 # 10) + avg * (4 # 10)).
Proof.
  intros [Hc0 Hc1] [Ha0 Ha1]. split.
  - apply (Qle_trans _ (0 + 0)); [discriminate|].
    apply Qplus_le_compat; apply Qmult_le_0_compat; try assumption; discriminate.
  - apply (Qle_trans _ (1 * (6 # 10) + 1 * (4 # 10))); [|discriminate].
    apply Qplus_le_compat; apply Qmult_le_compat_r; try assumption; discriminate.
Qed.

(** The confidence pass keeps a confidence in range. *)
Lemma adjustMapping_in_unit_interval (mapping : ComponentMapping) :
  inUnitInterval (confidence mapping) ->
  Forall (fun pm => inUnitInterval (propertyConfidence pm)) (propertyMappings mapping) ->
  inUnitInterval (confidence (adjustMapping mapping)).
Proof.
  intros Hc Hprops. unfold adjustMapping. cbn [confidence].
  set (blended := if 0 <? _ then _ else _).
  assert (Hb : inUnitInterval blended).
  { subst blended. destruct (0 <? List.length (propertyMappings mapping)) eqn:Hlen; [|exact Hc].
    apply blend_in_unit_interval; [exact Hc|].
    apply (average_in_unit_interval propertyConfidence).
    - apply Nat.ltb_lt in Hlen. destruct (propertyMappings mapping); [cbn in Hlen; lia | discriminate].
    - now apply Forall_forall. }
  destruct Hb as [Hb0 Hb1].
  destruct (ratioAbove _ _ _).
  - apply Qmin1_in_unit_interval.
    apply (Qle_trans _ (0 + 0)); [discriminate|].
    apply Qplus_le_compat; [assumption | discriminate].
  - destruct (ratioBelow _ _ _); [|now split].
    apply Qmax0_in_unit_interval.
    apply (Qle_trans _ (1 - 0)); [|discriminate].
    unfold Qminus. apply Qplus_le_compat; [assumption | discriminate].
Qed.

(** A successful call of [mapComponents], step by step. *)
Lemma mapComponents_success (st st' : State) (r : MappingResult) :
  mapComponents toNumber st = (inr r, st') ->
  exists library byPattern byName,
    edsLibrary st = Some library /\ figmaComponents st <> [] /\
    mapComponentsBasedOnPatterns toNumber library (figmaComponents st) (detectedPatterns st) []
    = (None, byPattern) /\
    mapComponentsBasedOnNameAndProperties library (figmaComponents st) byPattern
    = byPattern ++ byName /\
    r = {| success := true;
           message := "Component mapping completed";
           mappings := map adjustMapping (byPattern ++ byName);
           mappedCount := List.length (map adjustMapping (byPattern ++ byName));
           totalCount := List.length (figmaComponents st);
           unmappedComponents :=
             filter (isUnmapped (map adjustMapping (byPattern ++ byName)))
                    (figmaComponents st) |} /\
    st' = withMappings st (map adjustMapping (byPattern ++ byName)).
Proof.
  unfold mapComponents.
  destruct (edsLibrary st) as [library|]; [|discriminate].
  destruct (figmaComponents st) as [|first rest] eqn:Hcomps; [discriminate|].
  rewrite <- Hcomps.
  destruct (mapComponentsBasedOnPatterns toNumber library (figmaComponents st)
                                         (detectedPatterns st) [])
    as [[thrown|] byPattern] eqn:Hpass; [discriminate|].
  destruct (fallback_outcome library (figmaComponents st) byPattern)
    as (byName & Hfall & _).
  intro H. inversion H as [[Hr Hst]]. exists library, byPattern, byName.
  rewrite Hfall. unfold calculateMappingConfidence.
  split; [reflexivity|]. split; [rewrite Hcomps; discriminate|].
  split; [exact Hpass|]. repeat split; reflexivity.
Qed.

(** X14. When the detected patterns have confidences from 0 to 1, every
    mapping that [mapComponents] returns has a confidence from 0 to 1,
    and so has each of its property mappings. *)
Theorem mapped_confidences_in_unit_interval :
  forall (st st' : State) (r : MappingResult),
    (forall p, In p (detectedPatterns st) -> inUnitInterval (DesignAnalyzer.confidence p)) ->
    mapComponents toNumber st = (inr r, st') ->
    Forall (fun m => inUnitInterval (confidence m) /\
                     Forall (fun pm => inUnitInterval (propertyConfidence pm))
                            (propertyMappings m))
           (mappings r).
Proof.
  intros st st' r Hpatterns Hrun.
  destruct (mapComponents_success _ _ _ Hrun)
    as (library & byPattern & byName & _ & _ & Hpass & Hfall & -> & _).
  cbn [mappings].
  assert (Hraw : Forall (fun m => inUnitInterval (confidence m) /\
                                  Forall (fun pm => inUnitInterval (propertyConfidence pm))
                                         (propertyMappings m))
                        (byPattern ++ byName)).
  { apply Forall_app. split.
    - destruct (mapComponentsBasedOnPatterns_outcome toNumber library (detectedPatterns st)
                  (figmaComponents st) []) as (added & Hsnd & Hall & _).
      rewrite Hpass in Hsnd. cbn [snd app] in Hsnd. subst added.
      eapply Forall_impl; [|exact Hall].
      intros m (_ & _ & top & Htop & Hconf & Hprops). split.
      + rewrite Hconf. now apply Hpatterns.
      + exact (mapPatternProperties_confidence _ _ _ Hprops).
    - destruct (fallback_outcome library (figmaComponents st) byPattern)
        as (added & Hfall' & _ & Hall & _).
      rewrite Hfall in Hfall'. apply app_inv_head in Hfall'. subst added.
      eapply Forall_impl; [|exact Hall].
      intros m (_ & _ & _ & _ & Hconf & _ & _ & _ & Hprops & _). split.
      + rewrite Hconf. apply similarity_range.
      + eapply Forall_impl; [|exact Hprops].
        intros pm (Hpm & _). rewrite Hpm. apply similarity_range. }
  apply Forall_forall. intros m Hm. apply in_map_iff in Hm.
  destruct Hm as (m0 & <- & Hm0). rewrite Forall_forall in Hraw.
  destruct (Hraw m0 Hm0) as [Hc Hp]. split; [|exact Hp].
  now apply adjustMapping_in_unit_interval.
Qed.

End MappingConfidence.

Section MappingConfidenceExample.

Import FigmaParser EdsMapper EdsMapperPasses Selection.

(** On the components and the library of the repository's test
    utilities, with a card pattern detected: the card is mapped by its
    pattern, the button and the input field by name, with the three and
    the two properties they have. *)
Lemma mapped_confidences_in_unit_interval_witness :
  exists r st',
    mapComponents Examples.allNaN Examples.mockMapper = (inr r, st') /\
    map (fun m => (patternType m, map figmaProperty (propertyMappings m), Qred (confidence m)))
        (mappings r)
    = [("card"%string, ["hasShadow"]%string, 69 # 100);
       ("unknown"%string, ["variant"; "size"; "label"]%string, 1);
       ("unknown"%string, ["placeholder"; "disabled"]%string, 47 # 50)]%Q /\
    Forall (fun m => inUnitInterval (confidence m) /\
                     Forall (fun pm => inUnitInterval (propertyConfidence pm))
                            (propertyMappings m))
           (mappings r).
Proof.
  eexists. eexists. split; [reflexivity|]. split; [vm_compute; reflexivity|].
  eapply (mapped_confidences_in_unit_interval Examples.allNaN Examples.mockMapper);
    [|reflexivity].
  intros p [<-|[]]. split; discriminate.
Defined.

End MappingConfidenceExample.
(** ** The result of [mapComponents] *)

Section MappingResult.

Import FigmaParser EdsMapper EdsMapperPasses Reference Selection.

Variable toNumber : Json -> option Q.

Lemma isUnmapped_In (mappings : list ComponentMapping) (component : FigmaComponent) :
  isUnmapped mappings component = false <->
  In (componentId component) (map (fun m => componentId (figmaComponent m)) mappings).
Proof.
  unfold isUnmapped. rewrite negb_false_iff, existsb_exists, in_map_iff.
  split; intros (m & H1 & H2); exists m.
  - apply String.eqb_eq in H2. auto.
  - split; [assumption|]. now apply String.eqb_eq.
Qed.

Lemma adjusted_ids (mappings : list ComponentMapping) :
  map (fun m => componentId (figmaComponent m)) (map adjustMapping mappings)
  = map (fun m => componentId (figmaComponent m)) mappings.
Proof. rewrite map_map. reflexivity. Qed.

(** X15. The counts that [mapComponents] reports: never more mappings
    than components; the unmapped components are those without a mapping
    of their id; and when the component ids are distinct, mapped and
    unmapped components add up to the total. *)
Theorem mapping_counts_add_up :
  forall (st st' : State) (r : MappingResult),
    mapComponents toNumber st = (inr r, st') ->
    mappedCount r = List.length (mappings r) /\
    totalCount r = List.length (figmaComponents st) /\
    mappedCount r <= totalCount r /\
    componentMappings st' = mappings r /\
    (forall component,
        In component (unmappedComponents r) <->
        In component (figmaComponents st) /\
        forall m, In m (mappings r) ->
                  componentId (figmaComponent m) <> componentId component) /\
    (NoDup (map componentId (figmaComponents st)) ->
     mappedCount r + List.length (unmappedComponents r) = totalCount r).
Proof.
  intros st st' r Hrun.
  destruct (mapComponents_success _ _ _ _ Hrun)
    as (library & byPattern & byName & _ & _ & Hpass & Hfall & -> & ->).
  cbn [mappedCount totalCount mappings unmappedComponents withMappings componentMappings].
  destruct (mapComponentsBasedOnPatterns_outcome toNumber library (detectedPatterns st)
              (figmaComponents st) []) as (added1 & Hsnd & Hall1 & Hlen1 & Hnd1 & _).
  rewrite Hpass in Hsnd. cbn [snd app] in Hsnd. subst added1.
  destruct (fallback_outcome library (figmaComponents st) byPattern)
    as (added2 & Hfall' & Hlen2 & Hall2 & _ & Hnd2).
  rewrite Hfall in Hfall'. apply app_inv_head in Hfall'. subst added2.
  set (comps := figmaComponents st) in *.
  rewrite Forall_forall in Hall1, Hall2.
  split; [reflexivity|]. split; [reflexivity|]. split; [|split; [reflexivity|split]].
  - rewrite length_map, length_app.
    assert (H1 : List.length byPattern
                 <= List.length (filter (fun c => negb (isUnmapped byPattern c)) comps)).
    { apply Hlen1. apply Forall_forall. intros m Hm. apply negb_true_iff.
      apply isUnmapped_In. apply in_map_iff. now exists m. }
    pose proof (filter_partition_length _ (isUnmapped byPattern) comps). lia.
  - intro component. rewrite filter_In. split; intros [Hin Hun]; (split; [assumption|]).
    + intros m Hm Heq.
      assert (Hfalse : isUnmapped (map adjustMapping (byPattern ++ byName)) component = false).
      { apply isUnmapped_In. rewrite <- Heq. apply in_map_iff. now exists m. }
      congruence.
    + destruct (isUnmapped _ component) eqn:Hc; [reflexivity|]. exfalso.
      apply isUnmapped_In in Hc. apply in_map_iff in Hc. destruct Hc as (m & Heq & Hm).
      exact (Hun m Hm Heq).
  - intro Hnodup.
    set (final := map adjustMapping (byPattern ++ byName)).
    assert (Hcount : List.length (filter (fun c => negb (isUnmapped final c)) comps)
                     = List.length (map (fun m => componentId (figmaComponent m)) final)).
    { apply (count_keyed _ _ componentId); [assumption| | |].
      - subst final. rewrite adjusted_ids, map_app. apply NoDup_app.
        + now apply Hnd1.
        + now apply Hnd2.
        + intros k Hk1 Hk2. apply in_map_iff in Hk2. destruct Hk2 as (m2 & <- & Hm2).
          destruct (Hall2 m2 Hm2) as (_ & Hun & _).
          apply isUnmapped_In in Hk1. congruence.
      - intros c _. rewrite negb_true_iff. apply isUnmapped_In.
      - intros k Hk. subst final. rewrite adjusted_ids in Hk.
        apply in_map_iff in Hk. destruct Hk as (m & <- & Hm).
        apply in_map. apply in_app_or in Hm. destruct Hm as [Hm|Hm].
        + now apply Hall1.
        + now apply Hall2. }
    rewrite length_map in Hcount.
    pose proof (filter_partition_length _ (isUnmapped final) comps). lia.
Qed.

(** X16. Every mapping of the pattern pass belongs to a component of
    the list and follows the first of the most confident patterns
    detected on that component's node: it takes the pattern's type,
    confidence and matched nodes, and binds the library component that
    comes first among the best-named ones of the pattern's type, letter
    case apart.  No component gets more than one mapping. *)
Theorem pattern_pass_follows_top_pattern :
  forall (library : EDSLibrary) (components : list FigmaComponent)
         (detected : list DesignAnalyzer.ComponentPattern),
    Forall (fun m => In (figmaComponent m) components /\
                     topPatternMatch library detected (figmaComponent m) m)
           (snd (mapComponentsBasedOnPatterns toNumber library components detected [])) /\
    List.length (snd (mapComponentsBasedOnPatterns toNumber library components detected []))
    <= List.length components /\
    (NoDup (map componentId components) ->
     NoDup (map (fun m => componentId (figmaComponent m))
                (snd (mapComponentsBasedOnPatterns toNumber library components detected [])))).
Proof.
  intros library components detected.
  destruct (mapComponentsBasedOnPatterns_outcome toNumber library detected components [])
    as (added & -> & Hall & Hlen & Hnd & _).
  cbn [app]. split; [|split; [|exact Hnd]].
  - eapply Forall_impl; [|exact Hall]. intros m (H1 & H2 & _). now split.
  - specialize (Hlen (fun _ => true)).
    rewrite forallb_filter_id in Hlen by (apply forallb_forall; reflexivity).
    apply Hlen. apply Forall_forall. reflexivity.
Qed.

(** When the pattern pass throws, a layout pattern is the cause. *)
Lemma pattern_pass_throws (library : EDSLibrary) (components : list FigmaComponent)
    (detected : list DesignAnalyzer.ComponentPattern) :
  forall (mappings reached : list ComponentMapping) (thrown : Exception),
    mapComponentsBasedOnPatterns toNumber library components detected mappings
    = (Some thrown, reached) ->
    thrown = TypeError /\
    exists top eds, In top detected /\
                    DesignAnalyzer.patternType top = "layout"%string /\
                    In eds (libraryComponents library) /\
                    mapLayoutProperties top eds = inl TypeError.
Proof.
  unfold mapComponentsBasedOnPatterns.
  induction components as [|figma others IH]; intros mappings reached thrown; cbn [forEach];
    [discriminate|].
  pose proof (mapByPattern_outcome toNumber library detected mappings figma) as Hstep.
  destruct (mapByPattern toNumber library detected mappings figma) as [e|result].
  - intro H. inversion H; subst. exact Hstep.
  - apply IH.
Qed.

(** The layout rule throws only on a type that is truthy and no string. *)
Lemma mapLayoutProperties_throws (top : DesignAnalyzer.ComponentPattern) (eds : EDSComponent) :
  mapLayoutProperties top eds = inl TypeError ->
  exists value,
    lookup "type" (DesignAnalyzer.patternProperties top) = Some value /\
    truthy value = true /\ (forall s, value <> JStr s) /\
    has "display" (edsProperties eds) = true.
Proof.
  unfold mapLayoutProperties.
  destruct (has "type" _ && has "display" _) eqn:Hcond; [|discriminate].
  apply andb_true_iff in Hcond. destruct Hcond as [Hhas Hdisplay].
  unfold has, truthyOpt in Hhas.
  destruct (lookup "type" (DesignAnalyzer.patternProperties top)) as [value|] eqn:Hvalue;
    [|discriminate].
  intro Hthrow. exists value. repeat split; try assumption.
  intros s ->. discriminate.
Qed.

(** X17. [mapComponents] fails in three ways only: without a library,
    with the message "EDS library not loaded"; without components, with
    "No Figma components to map"; both leave the mapper as it was; and
    with a [TypeError], when the top pattern of a component is a layout
    pattern whose [type] property is truthy and not a string, met by a
    library component that has a [display] property.  Otherwise it
    succeeds and stores the mappings it returns. *)
Theorem mapping_fails_in_three_ways :
  forall st : State,
    match mapComponents toNumber st with
    | (inl (ErrorWith message), st') =>
        st' = st /\
        ((message = "EDS library not loaded"%string /\ edsLibrary st = None) \/
         (message = "No Figma components to map"%string /\ edsLibrary st <> None /\
          figmaComponents st = []))
    | (inl TypeError, st') =>
        st' = withMappings st (componentMappings st') /\
        exists library top eds value,
          edsLibrary st = Some library /\ In eds (libraryComponents library) /\
          In top (detectedPatterns st) /\
          DesignAnalyzer.patternType top = "layout"%string /\
          lookup "type" (DesignAnalyzer.patternProperties top) = Some value /\
          truthy value = true /\ (forall s, value <> JStr s) /\
          has "display" (edsProperties eds) = true
    | (inr r, st') =>
        success r = true /\ edsLibrary st <> None /\ figmaComponents st <> [] /\
        st' = withMappings st (mappings r)
    end.
Proof.
  intro st. unfold mapComponents.
  destruct (edsLibrary st) as [library|] eqn:Hlib; [|split; [reflexivity | now left]].
  destruct (figmaComponents st) as [|first rest] eqn:Hcomps.
  { split; [reflexivity|]. right. repeat split. discriminate. }
  rewrite <- Hcomps.
  destruct (mapComponentsBasedOnPatterns toNumber library (figmaComponents st)
                                         (detectedPatterns st) [])
    as [[thrown|] byPattern] eqn:Hpass.
  - destruct (pattern_pass_throws _ _ _ _ _ _ Hpass)
      as (-> & top & eds & Htop & Htype & Heds & Hthrow).
    split; [reflexivity|].
    destruct (mapLayoutProperties_throws _ _ Hthrow) as (value & H1 & H2 & H3 & H4).
    exists library, top, eds, value. repeat split; assumption.
  - cbn [success mappings]. repeat split; try discriminate. rewrite Hcomps. discriminate.
Qed.

(** X25. The layout patterns of the analyzer never make the mapper
    throw: when every detected pattern of type layout has the properties
    that [detectLayoutPatterns] gives a node, [mapComponents] succeeds
    as soon as a library is loaded and there is a component. *)
Theorem analyzer_layouts_never_throw :
  forall st : State,
    (forall p, In p (detectedPatterns st) ->
               DesignAnalyzer.patternType p = "layout"%string ->
               exists node, DesignAnalyzer.patternProperties p
                            = DesignAnalyzer.patternProperties
                                (DesignAnalyzerLayout.layoutPattern node)) ->
    edsLibrary st <> None -> figmaComponents st <> [] ->
    exists r, mapComponents toNumber st = (inr r, withMappings st (mappings r)) /\
              success r = true.
Proof.
  intros st Hlayouts Hlib Hcomps. unfold mapComponents.
  destruct (edsLibrary st) as [library|]; [|contradiction].
  destruct (figmaComponents st) as [|first rest] eqn:Hlist; [contradiction|].
  rewrite <- Hlist.
  destruct (mapComponentsBasedOnPatterns toNumber library (figmaComponents st)
                                         (detectedPatterns st) [])
    as [[thrown|] byPattern] eqn:Hpass.
  - exfalso.
    destruct (pattern_pass_throws _ _ _ _ _ _ Hpass)
      as (_ & top & eds & Htop & Htype & _ & Hthrow).
    destruct (mapLayoutProperties_throws _ _ Hthrow) as (value & Hvalue & _ & Hnot & _).
    destruct (Hlayouts top Htop Htype) as (node & Hprops).
    rewrite Hprops in Hvalue. cbn in Hvalue. inversion Hvalue as [Heq].
    exact (Hnot _ (eq_sym Heq)).
  - match goal with
    | |- exists r, (inr ?result, _) = _ /\ _ => exists result
    end.
    split; reflexivity.
Qed.

End MappingResult.

Section MappingResultExample.

Import FigmaParser EdsMapper EdsMapperPasses.

(** On the mapper of the example: two components, both mapped. *)
Lemma mapping_counts_add_up_witness :
  exists r st',
    mapComponents Examples.allNaN Examples.mapperReady = (inr r, st') /\
    mappedCount r = 2 /\ totalCount r = 2 /\ unmappedComponents r = [] /\
    mappedCount r + List.length (unmappedComponents r) = totalCount r.
Proof.
  eexists. eexists. split; [reflexivity|].
  split; [reflexivity|]. split; [reflexivity|]. split; [reflexivity|].
  refine (proj2 (proj2 (proj2 (proj2 (proj2
            (mapping_counts_add_up Examples.allNaN Examples.mapperReady _ _ eq_refl))))) _).
  repeat constructor; cbn; intuition discriminate.
Defined.

(** On a mapper fed with the layout pattern of the centred row. *)
Lemma analyzer_layouts_never_throw_witness :
  exists r,
    mapComponents Examples.allNaN Examples.layoutMapper
    = (inr r, withMappings Examples.layoutMapper (mappings r)) /\
    success r = true.
Proof.
  apply (analyzer_layouts_never_throw Examples.allNaN Examples.layoutMapper).
  - intros p [<-|[]] _. now exists Examples.centredRow.
  - discriminate.
  - discriminate.
Defined.

End MappingResultExample.

(** ** The corner radius of a card *)

Section CardRadius.

Import FigmaParser EdsMapper EdsMapperPasses Reference Selection.

Variable toNumber : Json -> option Q.

(** X18. The corner radius of a card pattern is kept, with confidence
    0.9, when it is one of 0, 2, 4, 8, 16, 24; any other number is
    replaced by the first of the nearest of these, with confidence 0.7;
    and a radius that is no number at all and does not convert to one
    silently becomes 0, with confidence 0.7. *)
Theorem card_radius_snaps_to_standard :
  (forall q : Q,
      DesignAnalyzer.includesNum standardSizes q = true ->
      cardRadiusMapping toNumber (JNum q)
      = mkPropertyMapping "cornerRadius" "borderRadius" (Some (PNumber q)) (9 # 10)) /\
  (forall q : Q,
      DesignAnalyzer.includesNum standardSizes q = false ->
      exists r,
        cardRadiusMapping toNumber (JNum q)
        = mkPropertyMapping "cornerRadius" "borderRadius" (Some (PNumber r)) (7 # 10) /\
        firstNearest q standardSizes r) /\
  (forall v : Json,
      numberOf toNumber v = None ->
      cardRadiusMapping toNumber v
      = mkPropertyMapping "cornerRadius" "borderRadius" (Some (PNumber 0)) (7 # 10)).
Proof.
  split; [|split].
  - intros q Hq. unfold cardRadiusMapping. cbn [includesValue]. now rewrite Hq.
  - intros q Hq.
    set (r := DesignAnalyzer.findNearestStandardSize q standardSizes).
    assert (Hdef : cardRadiusMapping toNumber (JNum q)
                   = mkPropertyMapping "cornerRadius" "borderRadius" (Some (PNumber r))
                       (if strictEqNum (JNum q) r then 9 # 10 else 7 # 10)).
    { unfold cardRadiusMapping. cbn [includesValue]. rewrite Hq.
      subst r. unfold DesignAnalyzer.findNearestStandardSize, standardSizes.
      cbn [numberOf]. change (nearerTo (Some q)) with (DesignAnalyzer.nearer q).
      reflexivity. }
    rewrite Hdef. clear Hdef.
    assert (Hr : firstNearest q standardSizes r).
    { exact (firstNearest_fold q [2; 4; 8; 16; 24]%Q [0%Q] 0%Q
               (ex_intro _ [] (ex_intro _ [] (conj eq_refl
                  (conj (fun y (H : In y []) => match H with end)
                        (fun y (H : In y []) => match H with end)))))). }
    exists r. split; [|exact Hr].
    assert (Hneq : strictEqNum (JNum q) r = false).
    { cbn [strictEqNum]. destruct (Qeq_bool q r) eqn:Heq; [|reflexivity]. exfalso.
      apply Qeq_bool_iff in Heq.
      assert (Hin : In r standardSizes).
      { destruct Hr as (front & back & -> & _). apply in_or_app. right. now left. }
      assert (Htrue : DesignAnalyzer.includesNum standardSizes q = true).
      { apply includesNum_In. exists r. split; [assumption | now symmetry]. }
      congruence. }
    now rewrite Hneq.
  - intros v Hv. unfold cardRadiusMapping.
    assert (Hnot : includesValue standardSizes v = false).
    { destruct v; try reflexivity. discriminate. }
    assert (Hneq : forall x, strictEqNum v x = false).
    { intro x. destruct v; try reflexivity. discriminate. }
    rewrite Hnot, Hv, Hneq. reflexivity.
Qed.

End CardRadius.
(** ** The distance of two strings from below *)

Section DistanceFromBelow.

Import EdsMapper Reference.

Lemma edits_same (s : list ascii) : edits s s 0.
Proof. induction s; constructor; assumption. Qed.

(** An edit changes the length by one at most. *)
Lemma edits_length (s t : list ascii) (n : nat) :
  edits s t n -> List.length s <= List.length t + n /\ List.length t <= List.length s + n.
Proof. induction 1; cbn [List.length]; lia. Qed.

(** X26. The distance of two strings is 0 exactly when they are equal,
    and is never less than the difference of their lengths. *)
Theorem distance_separates_strings :
  forall s t : string,
    (levenshteinDistance s t = 0 <-> s = t) /\
    String.length s - String.length t <= levenshteinDistance s t /\
    String.length t - String.length s <= levenshteinDistance s t.
Proof.
  intros s t. split.
  - split; [apply levenshteinDistance_zero|].
    intros ->. rewrite levenshteinDistance_levenshtein.
    pose proof (levenshtein_least _ _ _ (edits_same (list_ascii_of_string t))). lia.
  - rewrite levenshteinDistance_levenshtein, <- !length_list_ascii.
    pose proof (edits_length _ _ _ (levenshtein_is_script (list_ascii_of_string s)
                                                          (list_ascii_of_string t))).
    lia.
Qed.

End DistanceFromBelow.
(** ** Validation scores *)

Section ValidationScores.

Import Js LlmOrchestrator CodeValidator Selection.

Lemma countSeverity_app (sev : Severity) (l more : list ValidationIssue) :
  countSeverity sev (l ++ more) = countSeverity sev l + countSeverity sev more.
Proof. unfold countSeverity. now rewrite filter_app, length_app. Qed.

Lemma severity_partition (l : list ValidationIssue) :
  countSeverity SevError l + countSeverity SevWarning l + countSeverity SevInfo l
  = List.length l.
Proof.
  unfold countSeverity. induction l as [|i l IH]; [reflexivity|].
  cbn [filter List.length]. destruct (severity i); cbn [severityEqb List.length]; lia.
Qed.

(** The three classes of the style score. *)
Lemma style_partition (l : list ValidationIssue) :
  List.length (filter isCritical l)
  + List.length (filter (fun i => severityEqb (severity i) SevWarning
                                  && negb (String.eqb (issueType i) "style-critical")) l)
  + countSeverity SevInfo l
  = List.length l.
Proof.
  unfold countSeverity, isCritical. induction l as [|i l IH]; [reflexivity|].
  cbn [filter List.length].
  destruct (severity i); cbn [severityEqb orb andb List.length];
    try destruct (String.eqb (issueType i) "style-critical");
    cbn [negb List.length]; lia.
Qed.

(** [Math.max(0, 1 - p)] for three penalties: the shape of each score. *)
Lemma score_bounds (a b c : nat) (wa wb wc : Q) :
  (0 <= wa)%Q -> (0 <= wb)%Q -> (0 <= wc)%Q ->
  inUnitInterval (CodeValidator.Qmax0 (1 - (penalty a wa + penalty b wb + penalty c wc))).
Proof.
  intros Ha Hb Hc. apply Qmax0_in_unit_interval.
  assert (Hp : forall n w, (0 <= w)%Q -> (0 <= penalty n w)%Q).
  { intros n w Hw. unfold penalty. apply Qmult_le_0_compat; [|assumption].
    change 0%Q with (inject_Z 0). rewrite <- Zle_Qle. lia. }
  apply (Qle_trans _ (1 - 0)); [|discriminate].
  unfold Qminus. apply Qplus_le_r. apply Qopp_le_compat.
  apply (Qle_trans _ (0 + 0 + 0)); [discriminate|].
  repeat apply Qplus_le_compat; now apply Hp.
Qed.

Lemma penalty_monotone (n m : nat) (w : Q) :
  n <= m -> (0 <= w)%Q -> (penalty n w <= penalty m w)%Q.
Proof.
  intros Hnm Hw. unfold penalty. apply Qmult_le_compat_r; [|assumption].
  rewrite <- Zle_Qle. lia.
Qed.

Lemma Qmax0_monotone (x y : Q) :
  (x <= y)%Q -> (CodeValidator.Qmax0 x <= CodeValidator.Qmax0 y)%Q.
Proof.
  intro Hxy. unfold CodeValidator.Qmax0.
  destruct (Qle_bool x 0) eqn:Hx; destruct (Qle_bool y 0) eqn:Hy.
  - apply Qle_refl.
  - apply Qle_bool_false in Hy. now apply Qlt_le_weak.
  - apply Qle_bool_false in Hx. apply Qle_bool_iff in Hy.
    exfalso. apply (Qlt_not_le _ _ Hx). now apply (Qle_trans _ y).
  - assumption.
Qed.

Lemma score_monotone (a b c a' b' c' : nat) (wa wb wc : Q) :
  a <= a' -> b <= b' -> c <= c' -> (0 <= wa)%Q -> (0 <= wb)%Q -> (0 <= wc)%Q ->
  (CodeValidator.Qmax0 (1 - (penalty a' wa + penalty b' wb + penalty c' wc))
   <= CodeValidator.Qmax0 (1 - (penalty a wa + penalty b wb + penalty c wc)))%Q.
Proof.
  intros. apply Qmax0_monotone. unfold Qminus. apply Qplus_le_r. apply Qopp_le_compat.
  repeat apply Qplus_le_compat; now apply penalty_monotone.
Qed.

(** With at least one issue and every weight at least [w > 0], the score
    is below 1. *)
Lemma score_below_one (a b c : nat) (wa wb wc w : Q) :
  0 < a + b + c -> (0 < w)%Q -> (w <= wa)%Q -> (w <= wb)%Q -> (w <= wc)%Q ->
  (CodeValidator.Qmax0 (1 - (penalty a wa + penalty b wb + penalty c wc)) < 1)%Q.
Proof.
  intros Hn Hw Ha Hb Hc.
  assert (Hp : forall n x, (w <= x)%Q -> (penalty n w <= penalty n x)%Q).
  { intros n x Hx. unfold penalty.
    rewrite (Qmult_comm _ w), (Qmult_comm _ x). apply Qmult_le_compat_r; [assumption|].
    change 0%Q with (inject_Z 0). rewrite <- Zle_Qle. lia. }
  assert (Hsum : (w <= penalty a wa + penalty b wb + penalty c wc)%Q).
  { apply (Qle_trans _ (penalty a w + penalty b w + penalty c w)).
    - unfold penalty. rewrite <- !Qmult_plus_distr_l, <- !inject_Z_plus.
      setoid_replace w with (inject_Z 1 * w)%Q at 1 by ring.
      apply Qmult_le_compat_r; [|now apply Qlt_le_weak].
      rewrite <- Zle_Qle. lia.
    - repeat apply Qplus_le_compat; now apply Hp. }
  unfold CodeValidator.Qmax0. destruct (Qle_bool _ 0); [reflexivity|].
  apply (Qle_lt_trans _ (1 - w)).
  - unfold Qminus. apply Qplus_le_r. now apply Qopp_le_compat.
  - rewrite <- (Qplus_0_r 1) at 2. unfold Qminus. apply Qplus_lt_r.
    apply (Qopp_lt_compat 0). exact Hw.
Qed.

Lemma calculateSyntaxScore_facts (l : list ValidationIssue) :
  inUnitInterval (calculateSyntaxScore l) /\
  ((calculateSyntaxScore l == 1)%Q <-> l = []) /\
  forall more, (calculateSyntaxScore (l ++ more) <= calculateSyntaxScore l)%Q.
Proof.
  assert (Hunit : forall k, inUnitInterval (calculateSyntaxScore k)).
  { intro k. destruct k; [split; discriminate|]. now apply score_bounds. }
  split; [apply Hunit|]. split.
  - split; [|intros ->; reflexivity].
    destruct l as [|i l]; [reflexivity|]. intro H. exfalso.
    assert (Hlt : (calculateSyntaxScore (i :: l) < 1)%Q).
    { apply (score_below_one _ _ _ _ _ _ (3 # 100)); try reflexivity; try discriminate.
      rewrite severity_partition. cbn [List.length]. lia. }
    rewrite H in Hlt. discriminate.
  - intro more. destruct l as [|i l]; [apply Hunit|].
    cbn [app]. unfold calculateSyntaxScore.
    change (i :: l ++ more) with ((i :: l) ++ more). rewrite !countSeverity_app.
    apply score_monotone; try lia; discriminate.
Qed.

Lemma calculateResponsivenessScore_facts (l : list ValidationIssue) :
  inUnitInterval (calculateResponsivenessScore l) /\
  ((calculateResponsivenessScore l == 1)%Q <-> l = []) /\
  forall more, (calculateResponsivenessScore (l ++ more) <= calculateResponsivenessScore l)%Q.
Proof.
  assert (Hunit : forall k, inUnitInterval (calculateResponsivenessScore k)).
  { intro k. destruct k; [split; discriminate|]. now apply score_bounds. }
  split; [apply Hunit|]. split.
  - split; [|intros ->; reflexivity].
    destruct l as [|i l]; [reflexivity|]. intro H. exfalso.
    assert (Hlt : (calculateResponsivenessScore (i :: l) < 1)%Q).
    { apply (score_below_one _ _ _ _ _ _ (5 # 100)); try reflexivity; try discriminate.
      rewrite severity_partition. cbn [List.length]. lia. }
    rewrite H in Hlt. discriminate.
  - intro more. destruct l as [|i l]; [apply Hunit|].
    cbn [app]. unfold calculateResponsivenessScore.
    change (i :: l ++ more) with ((i :: l) ++ more). rewrite !countSeverity_app.
    apply score_monotone; try lia; discriminate.
Qed.

Lemma calculateStyleScore_facts (l : list ValidationIssue) :
  inUnitInterval (calculateStyleScore l) /\
  ((calculateStyleScore l == 1)%Q <-> l = []) /\
  forall more, (calculateStyleScore (l ++ more) <= calculateStyleScore l)%Q.
Proof.
  assert (Hunit : forall k, inUnitInterval (calculateStyleScore k)).
  { intro k. destruct k; [split; discriminate|]. now apply score_bounds. }
  split; [apply Hunit|]. split.
  - split; [|intros ->; reflexivity].
    destruct l as [|i l]; [reflexivity|]. intro H. exfalso.
    assert (Hlt : (calculateStyleScore (i :: l) < 1)%Q).
    { apply (score_below_one _ _ _ _ _ _ (2 # 100)); try reflexivity; try discriminate.
      rewrite style_partition. cbn [List.length]. lia. }
    rewrite H in Hlt. discriminate.
  - intro more. destruct l as [|i l]; [apply Hunit|].
    cbn [app]. unfold calculateStyleScore.
    change (i :: l ++ more) with ((i :: l) ++ more).
    rewrite !filter_app, !length_app, !countSeverity_app.
    apply score_monotone; try lia; discriminate.
Qed.

(** X19. Each of the three scores is a number from 0 to 1, equals 1
    exactly when its check found no issue, and never rises when issues
    are added; the overall score of a validation is a number from 0 to 1
    as well. *)
Theorem validation_scores_in_unit_interval :
  (forall l : list ValidationIssue,
      (inUnitInterval (calculateSyntaxScore l) /\
       ((calculateSyntaxScore l == 1)%Q <-> l = []) /\
       forall more, (calculateSyntaxScore (l ++ more) <= calculateSyntaxScore l)%Q) /\
      (inUnitInterval (calculateStyleScore l) /\
       ((calculateStyleScore l == 1)%Q <-> l = []) /\
       forall more, (calculateStyleScore (l ++ more) <= calculateStyleScore l)%Q) /\
      (inUnitInterval (calculateResponsivenessScore l) /\
       ((calculateResponsivenessScore l == 1)%Q <-> l = []) /\
       forall more,
         (calculateResponsivenessScore (l ++ more) <= calculateResponsivenessScore l)%Q)) /\
  (forall (now : string) (generated : CodeGenerationResult)
          (earlier : list ValidationIssue) (fw : string),
    exists (result : ValidationResult) (st' : State),
      validateCode now (mkState (Some generated) earlier fw) = (inr result, st') /\
      inUnitInterval (syntaxScore (syntaxCheck result)) /\
      inUnitInterval (styleScore (styleCheck result)) /\
      inUnitInterval (responsivenessScore (responsivenessCheck result)) /\
      inUnitInterval (overallScore result)).
Proof.
  split.
  - intro l. split; [apply calculateSyntaxScore_facts|].
    split; [apply calculateStyleScore_facts | apply calculateResponsivenessScore_facts].
  - intros now generated earlier fw. eexists. eexists. split; [reflexivity|].
    cbn [syntaxCheck styleCheck responsivenessCheck overallScore
         syntaxScore styleScore responsivenessScore fst framework].
    set (syn := calculateSyntaxScore _). set (sty := calculateStyleScore _).
    set (res := calculateResponsivenessScore _).
    assert (Hsyn : inUnitInterval syn) by apply calculateSyntaxScore_facts.
    assert (Hsty : inUnitInterval sty) by apply calculateStyleScore_facts.
    assert (Hres : inUnitInterval res) by apply calculateResponsivenessScore_facts.
    repeat (split; [assumption|]).
    destruct Hsyn as [H1 H2], Hsty as [H3 H4], Hres as [H5 H6].
    unfold calculateOverallScore. split.
    + apply (Qle_trans _ (0 + 0 + 0)); [discriminate|].
      repeat apply Qplus_le_compat; apply Qmult_le_0_compat; try assumption; discriminate.
    + apply (Qle_trans _ (1 * (5 # 10) + 1 * (3 # 10) + 1 * (2 # 10))); [|discriminate].
      repeat apply Qplus_le_compat; apply Qmult_le_compat_r; try assumption; discriminate.
Qed.

End ValidationScores.
(** ** Issues kept between validations, and two checks of the syntax
    validator *)

Section ValidationIssues.

Import Js LlmOrchestrator CodeValidator.

(** X20. The issue list is cleared by [initialize] only: a validation
    reports the issues that were there before followed by those of its
    three checks, and [success] is about that whole list; validated
    again, the same code gets the same checks, scores and verdict, and
    its issues are listed a second time. *)
Theorem revalidation_repeats_issues :
  forall (now later : string) (generated : CodeGenerationResult)
         (earlier : list ValidationIssue) (fw : string),
  exists (first second : ValidationResult) (st1 st2 : State) (found : list ValidationIssue),
    validateCode now (mkState (Some generated) earlier fw) = (inr first, st1) /\
    validateCode later st1 = (inr second, st2) /\
    found = syntaxIssues (syntaxCheck first) ++ styleIssues (styleCheck first)
            ++ responsivenessIssues (responsivenessCheck first) /\
    issues first = earlier ++ found /\
    (validationSuccess first = true <-> countSeverity SevError (earlier ++ found) = 0) /\
    issues second = earlier ++ found ++ found /\
    syntaxCheck second = syntaxCheck first /\
    styleCheck second = styleCheck first /\
    responsivenessCheck second = responsivenessCheck first /\
    overallScore second = overallScore first /\
    isProductionReady second = isProductionReady first /\
    validationSuccess second = validationSuccess first /\
    validationIssues (initialize generated st2) = [].
Proof.
  intros now later generated earlier fw.
  eexists. eexists. eexists. eexists. eexists.
  split; [reflexivity|]. split; [reflexivity|]. split; [reflexivity|].
  cbn [issues validationIssues syntaxCheck styleCheck responsivenessCheck syntaxIssues
       styleIssues responsivenessIssues validationSuccess overallScore isProductionReady
       framework generatedCode fst snd initialize].
  set (syn := collect (validateComponentSyntax fw) generated).
  set (sty := collect (validateComponentStyle fw) generated).
  set (res := collect (validateComponentResponsiveness fw) generated).
  split; [now rewrite <- !app_assoc|].
  split; [rewrite <- !app_assoc; apply Nat.eqb_eq|].
  split; [now rewrite <- !app_assoc|].
  do 5 (split; [reflexivity|]). split; [|reflexivity].
  rewrite <- !app_assoc.
  unfold countSeverity. rewrite !filter_app, !length_app.
  destruct (List.length (filter _ earlier)), (List.length (filter _ syn)),
    (List.length (filter _ sty)), (List.length (filter _ res)); reflexivity.
Qed.

(** X21. The check for an invalid JSX return statement can never fire:
    its condition asks that the code contain and not contain the same
    text.  No syntax issue of any component, under any framework, is
    that one. *)
Theorem invalid_jsx_is_never_reported :
  forall (fw : string) (generated : CodeGenerationResult),
    Forall (fun i => message i <> [Lit "Invalid JSX syntax in return statement"])
           (collect (validateComponentSyntax fw) generated).
Proof.
  assert (Hone : forall fw c,
             Forall (fun i => message i <> [Lit "Invalid JSX syntax in return statement"])
                    (validateComponentSyntax fw c)).
  { intros fw c. unfold validateComponentSyntax.
    destruct (String.eqb fw "react" || String.eqb fw "vue").
    - unfold scriptSyntaxIssues. rewrite andb_negb_r. cbn [andb when app].
      repeat (apply Forall_app; split).
      all: repeat match goal with
                  | |- context [when ?b _] => destruct b; cbn [when]
                  | |- context [if ?b then _ else _] => destruct b
                  end.
      all: repeat (apply Forall_app; split).
      all: repeat (apply Forall_cons; [discriminate|]); try apply Forall_nil.
    - destruct (String.eqb fw "angular").
      + unfold angularSyntaxIssues.
        repeat (apply Forall_app; split).
        all: repeat match goal with
                    | |- context [when ?b _] => destruct b; cbn [when]
                    end.
        all: repeat (apply Forall_cons; [discriminate|]); try apply Forall_nil.
      + destruct (String.eqb fw "html"); [|constructor].
        unfold htmlSyntaxIssues.
        repeat (apply Forall_app; split).
        all: repeat match goal with
                    | |- context [when ?b _] => destruct b; cbn [when]
                    end.
        all: repeat (apply Forall_cons; [discriminate|]); try apply Forall_nil. }
  intros fw generated. unfold collect. apply Forall_app. split.
  - apply Forall_forall. intros i Hi. apply in_flat_map in Hi.
    destruct Hi as (c & _ & Hi). pose proof (Hone fw c) as H.
    rewrite Forall_forall in H. now apply H.
  - destruct (resultLayout generated); [apply Hone | constructor].
Qed.

End ValidationIssues.
Section Doctype.

Import Js LlmOrchestrator CodeValidator.

Lemma list_ascii_app (a b : string) :
  list_ascii_of_string (a ++ b) = list_ascii_of_string a ++ list_ascii_of_string b.
Proof. induction a as [|c a IH]; cbn; [reflexivity | now rewrite IH]. Qed.

Lemma toLowerCaseChar_not_capital (c : ascii) : inRange 65 90 (toLowerCaseChar c) = false.
Proof. destruct c as [[] [] [] [] [] [] [] []]; reflexivity. Qed.

Lemma toLowerCase_no_capital (s : string) :
  Forall (fun c => inRange 65 90 c = false) (list_ascii_of_string (toLowerCase s)).
Proof.
  induction s as [|c s IH]; cbn; constructor; [apply toLowerCaseChar_not_capital | exact IH].
Qed.

(** A lowercased text contains no text that has a capital letter. *)
Lemma lowered_excludes_capitals (s sub : string) (capital : ascii) :
  In capital (list_ascii_of_string sub) -> inRange 65 90 capital = true ->
  includes (toLowerCase s) sub = false.
Proof.
  intros Hin Hcap. destruct (includes (toLowerCase s) sub) eqn:Hinc; [|reflexivity].
  exfalso. apply includes_occurs in Hinc. destruct Hinc as (pre & post & Heq).
  pose proof (toLowerCase_no_capital s) as Hall. rewrite Heq, !list_ascii_app in Hall.
  rewrite Forall_forall in Hall.
  assert (H : inRange 65 90 capital = false).
  { apply Hall. apply in_or_app. right. apply in_or_app. now left. }
  congruence.
Qed.

(** X22. The DOCTYPE warning of the HTML syntax check is raised exactly
    when the lowercased code lacks [<!doctype html>]: the second test of
    its condition looks for capital letters in lowercased text and is
    always true. *)
Theorem doctype_check_ignores_case :
  forall c : GeneratedComponent,
    (exists i, In i (htmlSyntaxIssues c) /\
               message i = [Lit "Missing DOCTYPE declaration"]) <->
    includes (toLowerCase (code c)) "<!doctype html>" = false.
Proof.
  intro c. unfold htmlSyntaxIssues.
  rewrite (lowered_excludes_capitals (code c) "<!DOCTYPE html>" "D")
    by (cbn; auto 10 || reflexivity).
  cbn [negb]. rewrite andb_true_r.
  destruct (includes (toLowerCase (code c)) "<!doctype html>"); cbn [negb when app].
  - split; [|discriminate]. intros (i & Hi & Hmsg).
    destruct (negb _); cbn [when] in Hi; [|destruct Hi].
    destruct Hi as [<-|[]]. discriminate.
  - split; [reflexivity|]. intros _. eexists. split; [now left | reflexivity].
Qed.

End Doctype.
(** ** Names of generated components *)

Section KebabCase.

Import Js LlmOrchestratorNaming Selection.

Lemma toLowerCaseChar_idempotent (c : ascii) :
  toLowerCaseChar (toLowerCaseChar c) = toLowerCaseChar c.
Proof. destruct c as [[] [] [] [] [] [] [] []]; reflexivity. Qed.

Lemma toLowerCase_idempotent (s : string) : toLowerCase (toLowerCase s) = toLowerCase s.
Proof.
  induction s as [|c s IH]; cbn [toLowerCase]; [reflexivity|].
  now rewrite toLowerCaseChar_idempotent, IH.
Qed.

(** Lowercasing a character that is neither white space nor an
    underscore gives a kebab character. *)
Lemma toLowerCaseChar_kebab (c : ascii) :
  isSpace c || (code c =? 95) = false -> isKebabChar (toLowerCaseChar c) = true.
Proof. destruct c as [[] [] [] [] [] [] [] []]; intro H; try reflexivity; discriminate H. Qed.

Lemma dashRuns_no_separator (s : string) :
  forall inRun,
    forallb (fun c => negb (isSpace c || (code c =? 95)))
            (list_ascii_of_string (dashRuns s inRun)) = true.
Proof.
  induction s as [|c s IH]; intro inRun; cbn [dashRuns]; [reflexivity|].
  destruct (isSpace c || (code c =? 95)) eqn:Hc.
  - destruct inRun; [apply IH|]. cbn [list_ascii_of_string forallb].
    rewrite IH. reflexivity.
  - cbn [list_ascii_of_string forallb]. now rewrite Hc, IH.
Qed.

Lemma toLowerCase_kebab (s : string) :
  forallb (fun c => negb (isSpace c || (code c =? 95))) (list_ascii_of_string s) = true ->
  forallb isKebabChar (list_ascii_of_string (toLowerCase s)) = true.
Proof.
  induction s as [|c s IH]; cbn [toLowerCase list_ascii_of_string forallb]; [reflexivity|].
  intro H. apply andb_true_iff in H. destruct H as [Hc Hs].
  apply negb_true_iff in Hc. now rewrite (toLowerCaseChar_kebab c Hc), IH.
Qed.

Lemma isKebabChar_parts (c : ascii) :
  isKebabChar c = true -> isUpper c = false /\ isSpace c || (code c =? 95) = false.
Proof.
  unfold isKebabChar, isUpper. rewrite !andb_true_iff, !negb_true_iff.
  intros [[H1 H2] H3]. now rewrite H1, H2, H3.
Qed.

Lemma hyphenateHumps_kebab (s : string) :
  forallb isKebabChar (list_ascii_of_string s) = true -> hyphenateHumps s = s.
Proof.
  induction s as [|a tail IH]; [reflexivity|].
  cbn [list_ascii_of_string forallb]. intro H. apply andb_true_iff in H.
  destruct H as [_ Htail]. specialize (IH Htail).
  destruct tail as [|b rest]; [reflexivity|].
  cbn [list_ascii_of_string forallb] in Htail. apply andb_true_iff in Htail.
  destruct Htail as [Hb _]. apply isKebabChar_parts in Hb. destruct Hb as [Hb _].
  cbn [hyphenateHumps]. rewrite Hb, andb_false_r.
  cbn [hyphenateHumps] in IH. now rewrite IH.
Qed.

Lemma dashRuns_kebab (s : string) :
  forallb isKebabChar (list_ascii_of_string s) = true ->
  forall inRun, dashRuns s inRun = s.
Proof.
  induction s as [|c s IH]; [reflexivity|].
  cbn [list_ascii_of_string forallb]. intro H. apply andb_true_iff in H.
  destruct H as [Hc Hs]. apply isKebabChar_parts in Hc. destruct Hc as [_ Hc].
  intro inRun. cbn [dashRuns]. now rewrite Hc, IH.
Qed.

(** X23. [toKebabCase] gives a name free of capital ASCII letters, white
    space and underscores, and leaves such a name as it is: applying it
    twice is the same as applying it once. *)
Theorem kebab_case_is_stable :
  forall str : string,
    forallb isKebabChar (list_ascii_of_string (toKebabCase str)) = true /\
    toKebabCase (toKebabCase str) = toKebabCase str.
Proof.
  intro str.
  assert (Hkebab : forallb isKebabChar (list_ascii_of_string (toKebabCase str)) = true).
  { unfold toKebabCase. apply toLowerCase_kebab, dashRuns_no_separator. }
  split; [exact Hkebab|].
  unfold toKebabCase at 1.
  rewrite (hyphenateHumps_kebab _ Hkebab), (dashRuns_kebab _ Hkebab).
  unfold toKebabCase. apply toLowerCase_idempotent.
Qed.

End KebabCase.

Section PascalCase.

Import Js LlmOrchestratorNaming.

Lemma pascal_chars (c : ascii) :
  isAlnum c = true ->
  isAlnum (toUpperCaseChar c) = true /\ isAlnum (toLowerCaseChar c) = true /\
  inRange 97 122 (toUpperCaseChar c) = false.
Proof. destruct c as [[] [] [] [] [] [] [] []]; intro H; try discriminate H; repeat split. Qed.

Lemma word_char (c : ascii) :
  isWord c || isSpace c = true -> isSeparator c = false -> isAlnum c = true.
Proof.
  destruct c as [[] [] [] [] [] [] [] []]; intros H1 H2;
    try reflexivity; try discriminate H1; discriminate H2.
Qed.

Lemma separator_char (c : ascii) :
  isWord c || isSpace c = true -> isAlnum c = false -> isSeparator c = true.
Proof.
  destruct c as [[] [] [] [] [] [] [] []]; intros H1 H2;
    try reflexivity; try discriminate H1; discriminate H2.
Qed.

Lemma keepWordsAndSpaces_chars (s : string) :
  Forall (fun c => isWord c || isSpace c = true)
         (list_ascii_of_string (keepWordsAndSpaces s)).
Proof.
  induction s as [|c s IH]; cbn [keepWordsAndSpaces]; [constructor|].
  destruct (isWord c || isSpace c) eqn:Hc; [|exact IH].
  cbn [list_ascii_of_string]. now constructor.
Qed.

Lemma keepWordsAndSpaces_subset (s : string) (c : ascii) :
  In c (list_ascii_of_string (keepWordsAndSpaces s)) -> In c (list_ascii_of_string s).
Proof.
  induction s as [|x s IH]; cbn [keepWordsAndSpaces list_ascii_of_string]; [tauto|].
  destruct (isWord x || isSpace x); cbn [list_ascii_of_string In]; tauto.
Qed.

(** The pieces of a split hold the characters that are no separators. *)
Lemma splitOnRuns_chars (P : ascii -> Prop) (sep : ascii -> bool) (s : string) :
  forall word inRun,
    Forall P word ->
    Forall (fun c => sep c = false -> P c) (list_ascii_of_string s) ->
    Forall (fun w => Forall P (list_ascii_of_string w)) (splitOnRuns sep s word inRun).
Proof.
  induction s as [|c s IH]; intros word inRun Hword Hs; cbn [splitOnRuns].
  - constructor; [|constructor]. rewrite list_ascii_of_string_of_list_ascii.
    now apply Forall_rev.
  - cbn [list_ascii_of_string] in Hs. inversion Hs as [|x l Hc Hrest]; subst.
    destruct (sep c) eqn:Hsep.
    + destruct inRun; [now apply IH|].
      constructor; [|apply IH; [constructor | assumption]].
      rewrite list_ascii_of_string_of_list_ascii. now apply Forall_rev.
    + apply IH; [|assumption]. constructor; [now apply Hc | assumption].
Qed.

(** A text of separators only splits into empty pieces. *)
Lemma splitOnRuns_separators (sep : ascii -> bool) (s : string) :
  Forall (fun c => sep c = true) (list_ascii_of_string s) ->
  forall inRun, Forall (fun w => w = EmptyString) (splitOnRuns sep s [] inRun).
Proof.
  induction s as [|c s IH]; intros Hs inRun; cbn [splitOnRuns].
  - constructor; [reflexivity | constructor].
  - cbn [list_ascii_of_string] in Hs. inversion Hs as [|x l Hc Hrest]; subst.
    rewrite Hc. destruct inRun; [now apply IH|].
    constructor; [reflexivity | now apply IH].
Qed.

Lemma concat_chars (P : ascii -> Prop) (words : list string) :
  Forall (fun w => Forall P (list_ascii_of_string w)) words ->
  Forall P (list_ascii_of_string (String.concat EmptyString words)).
Proof.
  induction words as [|w words IH]; intro H; [constructor|].
  inversion H as [|x l Hw Hrest]; subst. specialize (IH Hrest).
  cbn [String.concat]. destruct words as [|w' words']; [exact Hw|].
  rewrite list_ascii_app. apply Forall_app. split; [exact Hw|]. exact IH.
Qed.

Lemma changesInUpperCase_append (a b : string) :
  CodeValidator.changesInUpperCase a = false ->
  CodeValidator.changesInUpperCase b = false ->
  CodeValidator.changesInUpperCase (a ++ b) = false.
Proof. destruct a; cbn; auto. Qed.

Lemma concat_capitalised (words : list string) :
  Forall (fun w => CodeValidator.changesInUpperCase w = false) words ->
  CodeValidator.changesInUpperCase (String.concat EmptyString words) = false.
Proof.
  induction words as [|w words IH]; intro H; [reflexivity|].
  inversion H as [|x l Hw Hrest]; subst. specialize (IH Hrest).
  cbn [String.concat]. destruct words as [|w' words']; [exact Hw|].
  apply changesInUpperCase_append; [exact Hw|]. exact IH.
Qed.

Lemma concat_empties (words : list string) :
  Forall (fun w => w = EmptyString) words -> String.concat EmptyString words = EmptyString.
Proof.
  induction words as [|w words IH]; intro H; [reflexivity|].
  inversion H as [|x l Hw Hrest]; subst. specialize (IH Hrest).
  cbn [String.concat]. destruct words; [reflexivity|]. exact IH.
Qed.

Lemma toLowerCase_alnum (s : string) :
  Forall (fun c => isAlnum c = true) (list_ascii_of_string s) ->
  Forall (fun c => isAlnum c = true) (list_ascii_of_string (toLowerCase s)).
Proof.
  induction s as [|c s IH]; cbn [toLowerCase list_ascii_of_string]; intro H; [constructor|].
  inversion H; subst. constructor; [now apply pascal_chars | now apply IH].
Qed.

(** X24. [formatComponentName] gives a name made of ASCII letters and
    digits only, which does not start with a small letter, so that the
    validator's PascalCase test accepts it; a name without any letter or
    digit gives the empty name. *)
Theorem formatted_name_is_alphanumeric :
  forall name : string,
    Forall (fun c => isAlnum c = true) (list_ascii_of_string (formatComponentName name)) /\
    CodeValidator.changesInUpperCase (formatComponentName name) = false /\
    (Forall (fun c => isAlnum c = false) (list_ascii_of_string name) ->
     formatComponentName name = EmptyString).
Proof.
  intro name. unfold formatComponentName.
  set (cleanName := keepWordsAndSpaces name).
  assert (Hwords : Forall (fun w => Forall (fun c => isAlnum c = true)
                                           (list_ascii_of_string w))
                          (splitOnRuns isSeparator cleanName [] false)).
  { apply splitOnRuns_chars; [constructor|].
    eapply Forall_impl; [|apply keepWordsAndSpaces_chars].
    intros c Hc Hsep. now apply word_char. }
  split; [|split].
  - apply concat_chars. apply Forall_forall. intros w Hw.
    apply in_map_iff in Hw. destruct Hw as (w0 & <- & Hw0).
    rewrite Forall_forall in Hwords. specialize (Hwords w0 Hw0).
    destruct w0 as [|c rest]; [constructor|].
    cbn [pascalWord list_ascii_of_string] in *. inversion Hwords; subst.
    constructor; [now apply pascal_chars | now apply toLowerCase_alnum].
  - apply concat_capitalised. apply Forall_forall. intros w Hw.
    apply in_map_iff in Hw. destruct Hw as (w0 & <- & Hw0).
    rewrite Forall_forall in Hwords. specialize (Hwords w0 Hw0).
    destruct w0 as [|c rest]; [reflexivity|].
    cbn [pascalWord CodeValidator.changesInUpperCase list_ascii_of_string] in *.
    inversion Hwords; subst. now apply pascal_chars.
  - intro Hnone. apply concat_empties.
    assert (Hempty : Forall (fun w => w = EmptyString)
                            (splitOnRuns isSeparator cleanName [] false)).
    { apply splitOnRuns_separators.
      pose proof (keepWordsAndSpaces_chars name) as Hclean. fold cleanName in Hclean.
      rewrite Forall_forall in Hclean, Hnone. apply Forall_forall. intros c Hc.
      apply separator_char; [now apply Hclean|].
      apply Hnone. now apply keepWordsAndSpaces_subset. }
    apply Forall_forall. intros w Hw. apply in_map_iff in Hw.
    destruct Hw as (w0 & <- & Hw0). rewrite Forall_forall in Hempty.
    now rewrite (Hempty w0 Hw0).
Qed.

End PascalCase.

(** ** Which mappings code generation serves *)

Section GenerationSelection.

Import LlmOrchestrator.

#[local] Open Scope string_scope.

Variable renderComponent :
  State -> PromptTemplate -> EdsMapper.ComponentMapping -> list (string * FigmaParser.Json)
  -> Thrown + string.
Variable renderLayout :
  State -> PromptTemplate -> list EdsMapper.ComponentMapping -> list (string * FigmaParser.Json)
  -> Thrown + string.

Lemma map_filter_key {A B : Type} (f : A -> B) (p : B -> bool) (l : list A) :
  map f (filter (fun x => p (f x)) l) = filter p (map f l).
Proof.
  induction l as [|x l IH]; [reflexivity|].
  cbn [filter map]. destruct (p (f x)); cbn [map]; now rewrite IH.
Qed.

(** The artifact of a mapping carries the mapping's id and the language
    of the framework, whether or not generation threw. *)
Lemma generateOrReport_label (st : State) (opts : list (string * FigmaParser.Json))
    (mapping : EdsMapper.ComponentMapping) :
  artifactId (generateOrReport renderComponent st opts mapping) = EdsMapper.mappingId mapping /\
  language (generateOrReport renderComponent st opts mapping) = getLanguageFromFramework st.
Proof.
  unfold generateOrReport, generateComponentCode.
  destruct (FigmaParser.lookup _ _); [|now split].
  destruct (renderComponent _ _ _ _); now split.
Qed.

(** X29. [generateCode] throws in two cases only: no framework is set,
    or no stored mapping has a requested id.  Otherwise the artifacts
    are those of the stored mappings whose id is requested, in the order
    the mappings are stored: requested ids without a mapping are
    ignored, and the order and repetitions of the request play no part.
    Every artifact carries the language of the framework; the result has
    a layout exactly when one is requested, and a layout whose
    generation threw is reported in the layout alone, the result's
    message following the component artifacts only. *)
Theorem generation_serves_stored_mappings :
  forall (now : string) (st : State) (request : CodeGenerationRequest),
    match generateCode renderComponent renderLayout now st request with
    | inl message =>
        (message = "Framework configuration not set" /\ frameworkConfig st = None) \/
        (message = "No valid component mappings selected" /\
         frameworkConfig st <> None /\
         forall mapping, In mapping (mappings st) ->
                         ~ In (EdsMapper.mappingId mapping) (mappingIds request))
    | inr result =>
        (exists config, frameworkConfig st = Some config /\
                        resultFramework result = frameworkName config) /\
        resultComponents result <> [] /\
        map artifactId (resultComponents result)
        = filter (fun id => existsb (String.eqb id) (mappingIds request))
                 (map EdsMapper.mappingId (mappings st)) /\
        Forall (fun component => language component = getLanguageFromFramework st)
               (resultComponents result) /\
        (resultLayout result = None <-> generateLayout request = false) /\
        (forall layout, resultLayout result = Some layout ->
           layoutName layout = "Layout" /\
           layoutLanguage layout = getLanguageFromFramework st /\
           (layoutSuccess layout = false <-> layoutError layout <> None)) /\
        resultSuccess result = forallb success (resultComponents result) /\
        resultMessage result
        = (if forallb success (resultComponents result)
           then "Code generation completed successfully"
           else "Some components failed to generate")
    end.
Proof.
  intros now st request. unfold generateCode.
  destruct (frameworkConfig st) as [config|] eqn:Hconfig; [|now left].
  destruct (selectedMappings st request) as [|first rest] eqn:Hsel.
  - right. split; [reflexivity|]. split; [discriminate|].
    intros mapping Hstored Hrequested.
    assert (Hin : In mapping (selectedMappings st request)).
    { apply filter_In. split; [assumption|]. apply existsb_exists.
      exists (EdsMapper.mappingId mapping). split; [assumption | apply String.eqb_refl]. }
    rewrite Hsel in Hin. destruct Hin.
  - cbn [resultComponents resultLayout resultFramework resultSuccess resultMessage].
    split; [now exists config|]. split; [discriminate|].
    split; [|split; [|split; [|split; [|split; reflexivity]]]].
    + rewrite <- Hsel. unfold selectedMappings. rewrite <- map_filter_key, map_map.
      apply map_ext. intro mapping. apply generateOrReport_label.
    + apply Forall_forall. intros component Hin. apply in_map_iff in Hin.
      destruct Hin as (mapping & <- & _). apply generateOrReport_label.
    + destruct (generateLayout request).
      * destruct (generateLayoutCode _ _ _ _); split; discriminate.
      * now split.
    + intros layout Hlayout. destruct (generateLayout request); [|discriminate].
      unfold generateLayoutCode in Hlayout.
      destruct (FigmaParser.lookup _ _);
        [destruct (renderLayout _ _ _ _)|];
        inversion Hlayout; subst layout;
        cbn [layoutName layoutLanguage layoutSuccess layoutError];
        (split; [reflexivity|]); (split; [reflexivity|]);
        split; intro H; try discriminate; try reflexivity; now contradiction H.
Qed.

End GenerationSelection.
